(** * Ticket report aggregation: time window, bot partitioning, counting

    A shallow embedding of [processor/processor.py] (class [TicketProcessor]),
    of the aggregation part of [main.py], and of the column removal and the
    imputation of [cleaner/cleaner.py], with the properties the
    specification states about them and further properties of the code.

    Conventions of the embedding.
    - A pandas DataFrame is a list of column names and a list of rows; a row
      maps column names to cells.  Boolean indexing [df[mask]] keeps the
      rows whose mask entry is true, in order, and builds a new frame.
    - A Python dict is an insertion-ordered association list ([dict]):
      [list(d.keys())] is observed by the pipeline, so the order is kept.
    - Bot names and modes are text, as in the data model.  A timestamp is
      its number of nanoseconds, [pd.Timedelta(days=8)] is [eight_days],
      and the subtraction of the two raises when no int64 holds the
      difference.  The date parser of pandas and the clock are parameters.
    - The dtype of a column is the one pandas infers from its cells, as
      for a frame read from a file; it matters for [series.str] only.
    - An exception is a value of [exn]; a function that can raise returns a
      [result].  A function that assigns into a frame of its caller returns
      the frame (or the dict of frames) as it stands after the call.
    - Python's [str.lower] and [str.strip] are parameters, as the date
      parser is; the examples use their restriction to ASCII text.
    - Console output ([print]) is not part of the model. *)

From Stdlib Require Import ZArith String Ascii List Bool Permutation Lia.
From stdpp Require Import base option list gmap strings.
Import ListNotations.

Set Default Proof Using "Type".

(** ** Cells, rows and frames *)

Inductive cell : Type :=
  | VStr (s : string)      (* text *)
  | VDate (t : Z)          (* a parsed timestamp *)
  | VNull.                 (* NaN / NaT / None *)

Global Instance cell_eq_dec : EqDecision cell.
Proof. solve_decision. Defined.

Abbreviation Row := (gmap string cell).

Record DataFrame : Type := mkDF {
  columns : list string;
  rows : list Row
}.

(** [pd.DataFrame()] *)
Definition empty_frame : DataFrame := mkDF [] [].

(** ** Exceptions *)

Inductive exn : Type :=
  | KeyError (name : string)
  | NameError (name : string)
  | ValueError (msg : string)
  | AttributeError (attr : string)
  | OutOfBoundsDatetime.   (* of pandas; a ValueError *)

Inductive result (A : Type) : Type :=
  | Ok (a : A)
  | Raise (e : exn).
Arguments Ok {A} a.
Arguments Raise {A} e.

Global Instance result_ret : MRet result := fun A a => Ok a.

Global Instance result_bind : MBind result := fun A B k r =>
  match r with
  | Ok a => k a
  | Raise e => Raise e
  end.

Definition is_ok {A} (r : result A) : bool :=
  match r with Ok _ => true | Raise _ => false end.

(** ** Python dicts, in insertion order *)

Definition dict (V : Type) : Type := list (string * V).

(** [d.get(k)] / [k in d] *)
Fixpoint dict_get {V} (k : string) (d : dict V) : option V :=
  match d with
  | [] => None
  | (k', v) :: d' => if String.eqb k k' then Some v else dict_get k d'
  end.

(** [d[k] = v]: a present key keeps its position, a new one goes last. *)
Fixpoint dict_set {V} (k : string) (v : V) (d : dict V) : dict V :=
  match d with
  | [] => [(k, v)]
  | (k', v') :: d' =>
      if String.eqb k k' then (k', v) :: d' else (k', v') :: dict_set k v d'
  end.

(** [list(d.keys())] *)
Definition dict_keys {V} (d : dict V) : list string := map fst d.

(** [d[k]] as an expression: KeyError on a missing key. *)
Definition dict_item {V} (k : string) (d : dict V) : result V :=
  match dict_get k d with
  | Some v => Ok v
  | None => Raise (KeyError k)
  end.

(** ** Frame primitives *)

(** [c in df.columns] *)
Definition has_column (df : DataFrame) (c : string) : bool :=
  bool_decide (c ∈ columns df).

Definition cell_at (c : string) (r : Row) : cell := default VNull (r !! c).

(** The values of column [c], row by row. *)
Definition series (c : string) (df : DataFrame) : list cell :=
  map (cell_at c) (rows df).

(** [df[c]]: KeyError when the column does not exist. *)
Definition getitem (df : DataFrame) (c : string) : result (list cell) :=
  if has_column df c then Ok (series c df) else Raise (KeyError c).

(** [series == v] on one element. *)
Definition eq_text (v : string) (x : cell) : bool :=
  match x with
  | VStr s => String.eqb s v
  | _ => false
  end.

Definition is_text (x : cell) : bool :=
  match x with VStr _ => true | _ => false end.

(** [mask.sum()] *)
Definition mask_sum (mask : list bool) : nat :=
  length (List.filter (fun b : bool => b) mask).

(** [df[mask]] *)
Definition select (df : DataFrame) (mask : list bool) : DataFrame :=
  mkDF (columns df) (map fst (List.filter snd (combine (rows df) mask))).

(** [df[c] = values] *)
Definition set_column (df : DataFrame) (c : string) (values : list cell)
  : DataFrame :=
  mkDF (if has_column df c then columns df else columns df ++ [c])
       (map (fun rv : Row * cell => <[c := snd rv]> (fst rv))
            (combine (rows df) values)).

(** A [for] loop whose body may raise: the accumulator is threaded through
    the iterations and the first exception ends the loop. *)
Fixpoint for_each {A S} (l : list A) (body : S → A → result S) (s : S)
  : result S :=
  match l with
  | [] => Ok s
  | x :: l' => s' ← body s x; for_each l' body s'
  end.

(** ** Bot partitioner *)

(** What [split_dataframe_by_bot_name] hands back: the dict built by the
    comprehension, or the pair [{}, []] of its exception handler. *)
Inductive split_result : Type :=
  | SplitDict (d : dict DataFrame)
  | SplitTuple (d : dict DataFrame) (l : list string).

Definition split_body (df : DataFrame) (bot_name_list : list string)
    (bot_name_column : string) : result (dict DataFrame) :=
  if negb (has_column df bot_name_column) then
    Raise (ValueError ("Column '" +:+ bot_name_column +:+
                       "' does not exist in the DataFrame."))
  else
    for_each bot_name_list (fun splitted_dfs bot =>
      names ← getitem df bot_name_column;
      Ok (dict_set bot (select df (map (eq_text bot) names)) splitted_dfs)) [].

Definition split_dataframe_by_bot_name (df : DataFrame)
    (bot_name_list : list string) (bot_name_column : string) : split_result :=
  match split_body df bot_name_list bot_name_column with
  | Ok splitted_dfs => SplitDict splitted_dfs
  | Raise _ => SplitTuple [] []
  end.

(** ** Counting engine *)

(** [f"{key}_{value}"] *)
Definition flat_key (key value : string) : string :=
  key +:+ "_" +:+ value.

(** [f'total_{status_value}_ticket_{key}_{value}'] *)
Definition status_key (status_value key value : string) : string :=
  "total_" +:+ status_value +:+ "_ticket_" +:+ key +:+ "_" +:+ value.

(** [(series == value).sum()] *)
Definition count_eq (value : string) (s : list cell) : nat :=
  mask_sum (map (eq_text value) s).

Definition total_ticket_received_count (splitted_df_dict : dict DataFrame)
    (splitted_df_key_list comparison_values : list string)
    (column_name : string) : result (dict nat) :=
  for_each splitted_df_key_list (fun all_counts key =>
    match dict_get key splitted_df_dict with
    | None => Ok all_counts
    | Some df =>
        if negb (has_column df column_name) then Ok all_counts
        else
          for_each comparison_values (fun all_counts value =>
            col ← getitem df column_name;
            let count := count_eq value col in
            Ok (dict_set (flat_key key value)
                         (if 0 <? count then count else 0) all_counts))
            all_counts
    end) [].

Definition count_tickets_for_unique_modes (splitted_df_dict : dict DataFrame)
    (splitted_df_key_list mode_list : list string)
    (status_column status_value : string) : result (dict nat) :=
  for_each splitted_df_key_list (fun all_counts key =>
    match dict_get key splitted_df_dict with
    | None => Ok all_counts
    | Some df =>
        status ← getitem df status_column;
        let filtered_df := select df (map (eq_text status_value) status) in
        for_each mode_list (fun all_counts value =>
          modes ← getitem filtered_df "Mode";
          let count := count_eq value modes in
          Ok (dict_set (status_key status_value key value)
                       (if 0 <? count then count else 0) all_counts))
          all_counts
    end) [].

(** [mode_counts[value][key] = count]: the inner dict is looked up
    (KeyError if [value] is no key) and assigned into. *)
Definition nested_assign (value key : string) (count : nat)
    (mode_counts : dict (dict nat)) : result (dict (dict nat)) :=
  inner ← dict_item value mode_counts;
  Ok (dict_set value (dict_set key count inner) mode_counts).

(** [{value: {} for value in comparison_values}] *)
Definition empty_tables (comparison_values : list string) : dict (dict nat) :=
  fold_left (fun acc value => dict_set value [] acc) comparison_values [].

Definition total_ticket_received_count_modewise
    (splitted_df_dict : dict DataFrame)
    (splitted_df_key_list comparison_values : list string)
    (column_name : string) : result (dict (dict nat)) :=
  for_each splitted_df_key_list (fun mode_counts key =>
    match dict_get key splitted_df_dict with
    | None => Ok mode_counts
    | Some df =>
        if negb (has_column df column_name) then Ok mode_counts
        else
          for_each comparison_values (fun mode_counts value =>
            col ← getitem df column_name;
            let count := count_eq value col in
            mode_counts ← nested_assign value key count mode_counts;
            if count =? 0 then nested_assign value key 0 mode_counts
            else Ok mode_counts)
            mode_counts
    end) (empty_tables comparison_values).

Definition count_bot_wise_status_tickets (splitted_df_dict : dict DataFrame)
    (splitted_df_key_list mode_list : list string)
    (status_column status_value : string) : result (dict nat) :=
  for_each splitted_df_key_list (fun total_ticket_counts key =>
    match dict_get key splitted_df_dict with
    | None => Ok total_ticket_counts
    | Some df =>
        status ← getitem df status_column;
        let filtered_df := select df (map (eq_text status_value) status) in
        total_count ← for_each mode_list (fun acc mode =>
          modes ← getitem filtered_df "Mode";
          Ok (acc + count_eq mode modes)) 0;
        Ok (dict_set key total_count total_ticket_counts)
    end) [].

(** ** The string accessor ([series.str])

    The accessor is refused, with AttributeError, for a series whose values
    pandas does not infer as strings.  The dtype of a column is the one
    pandas infers from its cells, as for a frame read from a file: a
    column without rows or with a text cell holds objects; a column of
    nulls, or of dates and nulls, is numeric or datetime. *)
Definition str_values (s : list cell) : bool :=
  match s with
  | [] => true
  | _ :: _ => existsb is_text s
  end.

Definition str_accessor (s : list cell) : result (list cell) :=
  if str_values s then Ok s else Raise (AttributeError "str").

(** A string method on one element: a value that is not text becomes
    null. *)
Definition str_apply (f : string → string) (x : cell) : cell :=
  match x with
  | VStr s => VStr (f s)
  | _ => VNull
  end.

(** [series.str.f()] *)
Definition str_method (f : string → string) (s : list cell)
  : result (list cell) :=
  values ← str_accessor s;
  Ok (map (str_apply f) values).

(** ** Problem-text counts

    The frames stored in the dict are assigned into ([df.loc[:, column]]),
    so the function returns the dict as it stands afterwards together with
    its result.  In the branch for a missing column the message names the
    variable [key], which this function does not define. *)

Section TextMethods.

(** Python's [str.lower] and [str.strip], which follow the Unicode
    tables. *)
Variable str_lower : string → string.
Variable str_strip : string → string.

Fixpoint problem_reported_loop (comparison_values : list string)
    (column_name : string) (keys : list string)
    (splitted_df_dict : dict DataFrame) (mode_counts : dict (dict nat))
  : dict DataFrame * result (dict (dict nat)) :=
  match keys with
  | [] => (splitted_df_dict, Ok mode_counts)
  | bot_key :: keys' =>
      match dict_get bot_key splitted_df_dict with
      | None =>
          problem_reported_loop comparison_values column_name keys'
            splitted_df_dict mode_counts
      | Some df =>
          if negb (has_column df column_name) then
            (splitted_df_dict, Raise (NameError "key"))
          else
            match
              col ← getitem df column_name;
              lowered ← str_method str_lower col;
              str_method str_strip lowered
            with
            | Raise e => (splitted_df_dict, Raise e)
            | Ok cleaned =>
                let df := set_column df column_name cleaned in
                let splitted_df_dict :=
                  dict_set bot_key df splitted_df_dict in
                match
                  for_each comparison_values (fun mode_counts value =>
                    let cleaned_value := str_strip (str_lower value) in
                    col ← getitem df column_name;
                    let count := count_eq cleaned_value col in
                    nested_assign value bot_key count mode_counts)
                    mode_counts
                with
                | Ok mode_counts =>
                    problem_reported_loop comparison_values column_name
                      keys' splitted_df_dict mode_counts
                | Raise e => (splitted_df_dict, Raise e)
                end
            end
      end
  end.

Definition problem_reported_count_botwise (splitted_df_dict : dict DataFrame)
    (splitted_df_key_list comparison_values : list string)
    (column_name : string) : dict DataFrame * result (dict (dict nat)) :=
  problem_reported_loop comparison_values column_name splitted_df_key_list
    splitted_df_dict (empty_tables comparison_values).

End TextMethods.

(** ** Time window filter *)

(** [pd.Timedelta(days=8)] in nanoseconds. *)
Definition eight_days : Z := 8 * 86400 * 1000000000.

(** A timestamp keeps its nanoseconds in an int64; the least int64 stands
    for NaT. *)
Definition int64_min : Z := -9223372036854775808.
Definition int64_max : Z := 9223372036854775807.

(** [date - timedelta], for a date given by its nanoseconds.  NaT minus
    a timedelta is NaT ([None]).  A date that no int64 holds cannot be
    brought to nanoseconds for the subtraction, and a difference that no
    int64 holds is no timestamp: OutOfBoundsDatetime.  The difference is NaT
    when it is the least int64. *)
Definition timestamp_sub (t d : Z) : result (option Z) :=
  let value := (t - d)%Z in
  if (t =? int64_min)%Z then Ok None
  else if (t <? int64_min)%Z || (int64_max <? t)%Z
          || (value <? int64_min)%Z || (int64_max <? value)%Z then
    Raise OutOfBoundsDatetime
  else if (value =? int64_min)%Z then Ok None
  else Ok (Some value).

(** [series >= cutoff] and [series < cutoff] on one element; a null date
    compares false both ways.  The filters compare a column they have just
    coerced, which holds dates and nulls only. *)
Definition date_ge (cutoff : Z) (x : cell) : bool :=
  match x with
  | VDate t => (cutoff <=? t)%Z
  | _ => false
  end.

Definition date_lt (cutoff : Z) (x : cell) : bool :=
  match x with
  | VDate t => (t <? cutoff)%Z
  | _ => false
  end.

(** A comparison of the column with the cutoff the subtraction gave: NaT
    compares false with every value. *)
Definition compare_cutoff (keep : Z → cell → bool) (cutoff : option Z)
    (x : cell) : bool :=
  match cutoff with
  | Some cutoff => keep cutoff x
  | None => false
  end.

Section TimeWindow.

(** pandas' date parser on one text value ([None]: it does not parse),
    and the clock reading of [pd.to_datetime('today')]. *)
Variable parse_date : string → option Z.
Variable today : Z.

(** [pd.to_datetime(series, errors='coerce')] on one element. *)
Definition to_datetime_coerce (x : cell) : cell :=
  match x with
  | VStr s => match parse_date s with Some t => VDate t | None => VNull end
  | VDate t => VDate t
  | VNull => VNull
  end.

(** The body of a filter's [try] block: the caller's frame after the
    statements that ran, and the value or the exception.  The column is
    assigned before the cutoff is computed, so the frame is rewritten also
    when the subtraction raises.  ([filter_last_8_days] reads the column
    for the comparison before it subtracts, [filter_before_last_8_days]
    after; the column exists by then.) *)
Definition filter_body (keep : Z → cell → bool) (df : DataFrame)
    (date_column : string) (current_date : option Z)
  : DataFrame * result DataFrame :=
  let current_date := default today current_date in
  match getitem df date_column with
  | Raise e => (df, Raise e)
  | Ok dates =>
      let df := set_column df date_column (map to_datetime_coerce dates) in
      match timestamp_sub current_date eight_days with
      | Raise e => (df, Raise e)
      | Ok cutoff_date =>
          match getitem df date_column with
          | Raise e => (df, Raise e)
          | Ok dates =>
              (df, Ok (select df (map (compare_cutoff keep cutoff_date)
                                    dates)))
          end
      end
  end.

(** [except Exception: return pd.DataFrame()] *)
Definition or_empty (r : DataFrame * result DataFrame)
  : DataFrame * DataFrame :=
  match r with
  | (df, Ok out) => (df, out)
  | (df, Raise _) => (df, empty_frame)
  end.

(** Both filters return the caller's frame after the call, then the
    selected rows. *)
Definition filter_last_8_days (df : DataFrame) (date_column : string)
    (current_date : option Z) : DataFrame * DataFrame :=
  or_empty (filter_body date_ge df date_column current_date).

Definition filter_before_last_8_days (df : DataFrame) (date_column : string)
    (current_date : option Z) : DataFrame * DataFrame :=
  or_empty (filter_body date_lt df date_column current_date).

(** *** The aggregation run of [process_csv_files_in_folder]

    The statements between the cleaning of a file and the rendering of
    the report.  [df] and [main_df] name one frame there, so one frame is
    threaded through.  Both readings of the clock give [today]. *)

(** [list(series.unique())]: the distinct values in order of first
    appearance.  The columns it is applied to, [Bot Name] and [Mode], hold
    text and nulls.  pandas lists NaN once, where the first null stands;
    the lists of this model hold text, and NaN is listed as [nan], which is
    how Python formats it in a composite key.  As a value NaN equals no
    cell, and so does [nan] in a column read from a file, where pandas
    reads that text as NaN.  A date in these columns is outside the model
    and is passed over. *)
Definition listed_as (x : cell) : option string :=
  match x with
  | VStr v => Some v
  | VNull => Some "nan"
  | VDate _ => None
  end.

Fixpoint unique_from (seen : list string) (s : list cell) : list string :=
  match s with
  | [] => []
  | x :: s' =>
      match listed_as x with
      | Some v =>
          if bool_decide (v ∈ seen) then unique_from seen s'
          else v :: unique_from (v :: seen) s'
      | None => unique_from seen s'
      end
  end.

Definition unique (s : list cell) : list string := unique_from [] s.

(** [list(x.keys())] on what the partitioner returned: a tuple has no
    [keys]. *)
Definition split_keys (r : split_result) : result (list string) :=
  match r with
  | SplitDict d => Ok (dict_keys d)
  | SplitTuple _ _ => Raise (AttributeError "keys")
  end.

Definition split_dict (r : split_result) : dict DataFrame :=
  match r with
  | SplitDict d => d
  | SplitTuple d _ => d
  end.

Record week_tables : Type := mkWeek {
  total_ticket_received_count_dict : dict nat;
  closed_ticket_modes : dict nat;
  total_ticket_received_count_dict_modewise : dict (dict nat);
  open_ticket_modes : dict nat;
  onhold_ticket_modes : dict nat;
  total_closed_ticket_dict : dict nat;
  total_open_ticket_dict : dict nat;
  total_onhold_ticket_dict : dict nat
}.

Record count_tables : Type := mkTables {
  current_week : week_tables;
  total_archive_open_ticket_dict : dict nat
}.

(** Lines 144 to 192: the tables of the current week, with the bot and
    mode lists the archive part reuses. *)
Definition week_part (main_df current_week_df : DataFrame)
  : result (list string * list string * week_tables) :=
  names ← getitem main_df "Bot Name";
  let bot_name_list := unique names in
  let splitted_df_dict :=
    split_dataframe_by_bot_name current_week_df bot_name_list "Bot Name" in
  splitted_df_key_list ← split_keys splitted_df_dict;
  let splitted_df_dict := split_dict splitted_df_dict in
  modes ← getitem main_df "Mode";
  let comparison_values := unique modes in
  flat ← total_ticket_received_count splitted_df_dict splitted_df_key_list
            comparison_values "Mode";
  let mode_list := unique modes in
  closed_m ← count_tickets_for_unique_modes splitted_df_dict
                splitted_df_key_list mode_list "Status" "Closed";
  modewise ← total_ticket_received_count_modewise splitted_df_dict
                splitted_df_key_list comparison_values "Mode";
  open_m ← count_tickets_for_unique_modes splitted_df_dict
              splitted_df_key_list mode_list "Status" "Open";
  onhold_m ← count_tickets_for_unique_modes splitted_df_dict
                splitted_df_key_list mode_list "Status" "On Hold";
  closed ← count_bot_wise_status_tickets splitted_df_dict
              splitted_df_key_list mode_list "Status" "Closed";
  opened ← count_bot_wise_status_tickets splitted_df_dict
              splitted_df_key_list mode_list "Status" "Open";
  onhold ← count_bot_wise_status_tickets splitted_df_dict
              splitted_df_key_list mode_list "Status" "On Hold";
  Ok (bot_name_list, mode_list,
      mkWeek flat closed_m modewise open_m onhold_m closed opened onhold).

(** Lines 197 to 204: the open tickets of the archive. *)
Definition archive_part (last_archive_df : DataFrame)
    (bot_name_list mode_list : list string) : result (dict nat) :=
  let splitted_df_dict_last :=
    split_dataframe_by_bot_name last_archive_df bot_name_list "Bot Name" in
  splitted_df_key_list ← split_keys splitted_df_dict_last;
  count_bot_wise_status_tickets (split_dict splitted_df_dict_last)
    splitted_df_key_list mode_list "Status" "Open".

(** The frame as the run leaves it, and the tables or the exception. *)
Definition aggregation_run (df : DataFrame)
  : DataFrame * result count_tables :=
  let '(df, current_week_df) :=
    filter_last_8_days df "Ticket Creation Date" None in
  match week_part df current_week_df with
  | Raise e => (df, Raise e)
  | Ok (bot_name_list, mode_list, week) =>
      let '(df, last_archive_df) :=
        filter_before_last_8_days df "Ticket Creation Date" None in
      (df, archive ← archive_part last_archive_df bot_name_list mode_list;
           Ok (mkTables week archive))
  end.

End TimeWindow.

(** * The record cleaner ([cleaner/cleaner.py]) and its configuration *)

(** A row without the cells of the listed columns. *)
Definition drop_cells (cols : list string) (r : Row) : Row :=
  foldr (fun c acc => delete c acc) r cols.

(** [remove_columns]: [df.drop(columns=columns_to_remove, axis=1,
    errors='ignore')] builds a new frame; a listed column the frame does
    not have is ignored (with a warning), so nothing is raised for a frame
    and a list. *)
Definition remove_columns (df : DataFrame) (columns_to_remove : list string)
  : DataFrame :=
  mkDF (List.filter (fun c => negb (bool_decide (c ∈ columns_to_remove)))
          (columns df))
       (map (drop_cells columns_to_remove) (rows df)).

Section Imputation.

(** [str] of a timestamp, which [astype(str)] applies to a date cell. *)
Variable show_timestamp : Z → string.

(** [series.astype(str)] on one element; a null is NaN, as in a column read
    from a file. *)
Definition astype_str (x : cell) : cell :=
  match x with
  | VStr s => VStr s
  | VDate t => VStr (show_timestamp t)
  | VNull => VStr "nan"
  end.

(** [series.replace({'nan': np.nan, '-': np.nan})] on one element. *)
Definition replace_markers (x : cell) : cell :=
  match x with
  | VStr s => if String.eqb s "nan" || String.eqb s "-" then VNull else VStr s
  | _ => x
  end.

(** [series.fillna(value)] on one element. *)
Definition fillna (value : string) (x : cell) : cell :=
  match x with
  | VNull => VStr value
  | _ => x
  end.

(** [impute_null_values]: the frame is assigned into and returned, so the
    result is also the caller's frame after the call.  The items of the
    dict are visited in order; a column the frame does not have is skipped
    (with a warning). *)
Definition impute_null_values (df : DataFrame) (imputation_values : dict string)
  : result DataFrame :=
  for_each imputation_values (fun df item =>
    let column := fst item in
    let replacement_value := snd item in
    if has_column df column then
      col ← getitem df column;
      let df := set_column df column (map astype_str col) in
      col ← getitem df column;
      let df := set_column df column (map replace_markers col) in
      col ← getitem df column;
      Ok (set_column df column (map (fillna replacement_value) col))
    else Ok df) df.

End Imputation.

(** The configuration of [main.py]. *)
Definition columns_to_remove : list string :=
  ["Hardware ID/Serial Number"; "Child Ticket Count"; "Similar issue Count";
   "State Name"; "UDISE_Code"; "Block_Name"; "School_Code"; "School_Name";
   "ICT-Reported-Problems"; "Infra-Status"; "NIC Code"; "Server A or B";
   "Block"; "UDISE Code"; "Block Name"; "District Names";
   "Admin Code/School Code"; "Project Code"; "Project Name"; "Partner Name";
   "Device Model Number"; "School Name"; "District"; "FMS Email";
   "Reason for On-Hold"; "Select Your Issue"; "Steps Performed";
   "Actual Problem"; "Classification"; "Time to Respond"; "Team"; "Team Id";
   "Tags"; "Ticket On Hold Time"; "Category"; "Sub Category"; "Resolution";
   "To Address"; "Account Name"; "Account Id"; "Due Date"].

Definition imputation_values : dict string :=
  [("Problem Reported", "Problem not found");
   ("Bot Name", "Unidentified Bot Name")].

(** * The report sheet ([create_excel_with_pivot_and_dicts]) *)

(** A value written to a cell of the sheet. *)
Inductive xl : Type :=
  | XText (s : string)
  | XNumber (n : nat).

(** The rows appended to the active worksheet, first to last, or the
    StopIteration of [next(iter(mode_wise_data_dict))] on an empty dict.
    The fonts, the second sheet written from the frame argument and the
    file are not part of the model. *)
Inductive sheet_result : Type :=
  | Sheet (appended : list (list xl))
  | StopIteration.

(** Part 2: a titled two-column table per dict, each followed by a blank
    row. *)
Definition dict_sections (dict_mapping : dict (dict nat)) : list (list xl) :=
  flat_map (fun item =>
      [XText (fst item)]
      :: [XText "Bot Name"; XText "Ticket Count"]
      :: map (fun entry => [XText (fst entry); XNumber (snd entry)]) (snd item)
         ++ [[]])
    dict_mapping.

Definition create_excel_with_pivot_and_dicts
    (mode_wise_data_dict dict_mapping : dict (dict nat)) : sheet_result :=
  let title := [XText "Total Tickets Received (Current Week Mode wise)"] in
  let header := XText "Bot Name" :: map XText (dict_keys mode_wise_data_dict) in
  match mode_wise_data_dict with
  | [] => StopIteration
  | (_, first_mode) :: _ =>
      let bot_names := dict_keys first_mode in
      let pivot :=
        map (fun bot_name =>
               XText bot_name
               :: map (fun mode =>
                         XNumber (default 0 (dict_get bot_name (snd mode))))
                    mode_wise_data_dict)
          bot_names in
      Sheet (title :: header :: pivot ++ [] :: dict_sections dict_mapping)
  end.

(** * Vocabulary of the properties *)

(** ** Observations on dicts and frames *)

(** A run of assignments [d[k] = v], first to last. *)
Definition dict_write {V} (d : dict V) (ws : list (string * V)) : dict V :=
  fold_left (fun acc w => dict_set (fst w) (snd w) acc) ws d.

(** The number of rows of [df] whose column [c] holds the text [v]. *)
Definition count_rows (v c : string) (df : DataFrame) : nat :=
  length (List.filter (fun r => eq_text v (cell_at c r)) (rows df)).

(** [mode_counts[value][key]], when both keys exist. *)
Definition nested_get (v k : string) (mc : dict (dict nat)) : option nat :=
  match dict_get v mc with
  | Some inner => dict_get k inner
  | None => None
  end.

(** [mc'] is [mc] after [mc[v][k] = n]: same outer keys, one entry set. *)
Definition nested_step (v k : string) (n : nat) (mc mc' : dict (dict nat))
  : Prop :=
  (∀ v', is_Some (dict_get v' mc') ↔ is_Some (dict_get v' mc)) ∧
  (∀ v' k', nested_get v' k' mc'
            = if decide (v' = v ∧ k' = k) then Some n
              else nested_get v' k' mc).

(** What a table holds for [(k, v)] once key [k] has been counted: nothing
    when [k] is no key of the partition map or its frame lacks the column. *)
Definition counted (d : dict DataFrame) (c v k : string) : option nat :=
  match dict_get k d with
  | Some df => if has_column df c then Some (count_rows v c df) else None
  | None => None
  end.

(** The loop invariant of the nested table: the outer keys are the values,
    and the keys visited so far are counted. *)
Definition table_inv (d : dict DataFrame) (c : string) (values : list string)
    (done : list string) (mc : dict (dict nat)) : Prop :=
  (∀ v, is_Some (dict_get v mc) ↔ v ∈ values) ∧
  (∀ v k, v ∈ values →
     nested_get v k mc
     = if decide (k ∈ done) then counted d c v k else None).

(** The assignments [total_ticket_received_count] makes for one key. *)
Definition flat_writes_of (d : dict DataFrame) (values : list string)
    (c : string) (key : string) : list (string * nat) :=
  match dict_get key d with
  | None => []
  | Some df =>
      if has_column df c
      then map (fun v => (flat_key key v, count_rows v c df)) values
      else []
  end.

(** [df[df[status_column] == status_value]] *)
Definition with_status (sc sv : string) (df : DataFrame) : DataFrame :=
  select df (map (eq_text sv) (series sc df)).

(** The tickets of [df] with the status and the mode. *)
Definition status_count (sc sv m : string) (df : DataFrame) : nat :=
  count_rows m "Mode" (with_status sc sv df).

(** The columns both status counts read: the status column, and [Mode] as
    soon as there is a mode to count. *)
Definition status_ready (sc : string) (modes : list string) (df : DataFrame)
  : bool :=
  has_column df sc && (has_column df "Mode" || bool_decide (modes = [])).

(** Every listed key of the partition map has these columns. *)
Definition keys_ready (d : dict DataFrame) (keys : list string) (sc : string)
    (modes : list string) : Prop :=
  ∀ k df, k ∈ keys → dict_get k d = Some df → status_ready sc modes df = true.

(** The assignments [count_tickets_for_unique_modes] makes for one key. *)
Definition mode_writes_of (d : dict DataFrame) (modes : list string)
    (sc sv : string) (key : string) : list (string * nat) :=
  match dict_get key d with
  | None => []
  | Some df =>
      map (fun m => (status_key sv key m, status_count sc sv m df)) modes
  end.

(** The assignment [count_bot_wise_status_tickets] makes for one key. *)
Definition total_writes_of (d : dict DataFrame) (modes : list string)
    (sc sv : string) (key : string) : list (string * nat) :=
  match dict_get key d with
  | None => []
  | Some df => [(key, list_sum (map (fun m => status_count sc sv m df) modes))]
  end.

(** The sum, over the mode list, of the per-mode entries of key [k]. *)
Definition sum_of_entries (entries : dict nat) (sv k : string)
    (modes : list string) : nat :=
  list_sum (map (fun m => default 0 (dict_get (status_key sv k m) entries))
                modes).

(** [df[df[column] == bot]] *)
Definition bot_rows (df : DataFrame) (c bot : string) : DataFrame :=
  select df (map (eq_text bot) (series c df)).

(** Every element lies in exactly one of three classes. *)
Definition one_of_three (a b c : bool) : Prop :=
  (a = true ∧ b = false ∧ c = false) ∨
  (a = false ∧ b = true ∧ c = false) ∨
  (a = false ∧ b = false ∧ c = true).

(** [series.isna()] on one element. *)
Definition is_null (x : cell) : bool :=
  match x with VNull => true | _ => false end.

Section NormalisedText.

Variable str_lower : string → string.
Variable str_strip : string → string.

(** A text lowercased, then stripped. *)
Definition normal_text (s : string) : string := str_strip (str_lower s).

(** [series.str.lower().str.strip()] on one element. *)
Definition lower_strip_cell (x : cell) : cell :=
  str_apply str_strip (str_apply str_lower x).

(** A frame after [df.loc[:, c] = df[c].str.lower().str.strip()]. *)
Definition lower_strip_frame (c : string) (df : DataFrame) : DataFrame :=
  mkDF (columns df)
       (map (fun r => <[c := lower_strip_cell (cell_at c r)]> r) (rows df)).

(** The text of a cell equals the text [v] once both are lowercased and
    stripped. *)
Definition same_normal_text (v : string) (x : cell) : bool :=
  match x with
  | VStr s => String.eqb (normal_text s) (normal_text v)
  | _ => false
  end.

(** The number of rows of [df] whose column [c] holds [v] up to case and
    surrounding white space. *)
Definition count_normalised (v c : string) (df : DataFrame) : nat :=
  length (List.filter (fun r => same_normal_text v (cell_at c r)) (rows df)).

(** What lowercasing and stripping [n] times makes of a cell. *)
Inductive normalised_as (n : nat) : cell → cell → Prop :=
  | normalised_text s :
      normalised_as n (VStr s) (VStr (Nat.iter n normal_text s))
  | normalised_date t : normalised_as n (VDate t) VNull
  | normalised_null : normalised_as n VNull VNull.

End NormalisedText.

(** What parsing with [errors='coerce'] makes of a cell. *)
Inductive parsed_as (parse_date : string → option Z) : cell → cell → Prop :=
  | parsed_text s t :
      parse_date s = Some t → parsed_as parse_date (VStr s) (VDate t)
  | parsed_no_date s :
      parse_date s = None → parsed_as parse_date (VStr s) VNull
  | parsed_date t : parsed_as parse_date (VDate t) (VDate t)
  | parsed_null : parsed_as parse_date VNull VNull.

(** Row [r'] is row [r] with the cell of column [c] replaced as [rel]
    says, every other cell kept. *)
Definition cell_replaced (rel : cell → cell → Prop) (c : string)
    (r r' : Row) : Prop :=
  (∃ x', r' !! c = Some x' ∧ rel (cell_at c r) x') ∧
  (∀ c', c' ≠ c → r' !! c' = r !! c').

(** Frame [df'] is frame [df] with column [c] overwritten as [rel] says,
    row by row. *)
Definition column_overwritten (rel : cell → cell → Prop) (c : string)
    (df df' : DataFrame) : Prop :=
  columns df' = columns df ∧
  Forall2 (cell_replaced rel c) (rows df) (rows df').

Section ParsedRows.

Variable parse_date : string → option Z.

(** A row after its date cell was parsed in place. *)
Definition coerce_row (c : string) (r : Row) : Row :=
  <[c := to_datetime_coerce parse_date (cell_at c r)]> r.

(** The caller's frame after a filter ran on its column [c]. *)
Definition coerce_frame (c : string) (df : DataFrame) : DataFrame :=
  mkDF (columns df) (map (coerce_row c) (rows df)).

(** The date of a row fails to parse: its cell is null, or text the parser
    rejects. *)
Definition unparseable (c : string) (r : Row) : bool :=
  match cell_at c r with
  | VStr s => match parse_date s with Some _ => false | None => true end
  | VDate _ => false
  | VNull => true
  end.

End ParsedRows.

(** The reference date is a timestamp, and so is its eighth day before. *)
Definition cutoff_in_range (current_date : Z) : Prop :=
  (int64_min < current_date - eight_days)%Z ∧ (current_date ≤ int64_max)%Z.

(** The rows of [df] a comparison with the cutoff keeps, or the exception
    of the subtraction that was to give the cutoff. *)
Definition window (keep : Z → cell → bool) (cutoff : result (option Z))
    (c : string) (df : DataFrame) : result DataFrame :=
  cutoff ← cutoff;
  Ok (mkDF (columns df)
        (List.filter (fun r => compare_cutoff keep cutoff (cell_at c r))
           (rows df))).

(** ** Composite keys *)

(** No other requested pair is formatted to the composite key of [(k, v)]. *)
Definition flat_key_unshared (keys values : list string) (k v : string)
  : Prop :=
  ∀ k' v', k' ∈ keys → v' ∈ values →
    flat_key k' v' = flat_key k v → k' = k ∧ v' = v.

(** No other listed key and mode are formatted to a composite key of [k]. *)
Definition status_key_unshared (keys modes : list string) (sv k : string)
  : Prop :=
  ∀ k' m' m, k' ∈ keys → m' ∈ modes → m ∈ modes →
    status_key sv k' m' = status_key sv k m → k' = k.

(** ** Statements as the specification words them *)

(** The claim of explicit zero entries as the specification words it. *)
Definition zero_entries_claim (d : dict DataFrame)
    (keys values : list string) (c : string) : Prop :=
  (∀ k, k ∈ keys → ∃ df, dict_get k d = Some df ∧ c ∈ columns df) →
  ∃ flat nested,
    total_ticket_received_count d keys values c = Ok flat ∧
    total_ticket_received_count_modewise d keys values c = Ok nested ∧
    ∀ k v df, k ∈ keys → v ∈ values → dict_get k d = Some df →
      is_Some (dict_get (flat_key k v) flat) ∧
      is_Some (nested_get v k nested) ∧
      ((∀ r, r ∈ rows df → cell_at c r ≠ VStr v) →
         dict_get (flat_key k v) flat = Some 0 ∧
         nested_get v k nested = Some 0).

(** The transpose claim as the specification words it. *)
Definition transpose_claim (d : dict DataFrame)
    (keys values : list string) (c : string) : Prop :=
  ∃ flat nested,
    total_ticket_received_count d keys values c = Ok flat ∧
    total_ticket_received_count_modewise d keys values c = Ok nested ∧
    ∀ k v df, k ∈ keys → v ∈ values → dict_get k d = Some df →
      c ∈ columns df →
      is_Some (nested_get v k nested) ∧
      nested_get v k nested = dict_get (flat_key k v) flat.

(** The claim that the per-bot total is the sum of the per-mode entries, as
    the specification words it. *)
Definition status_sum_claim (d : dict DataFrame) (keys modes : list string)
    (sc sv : string) : Prop :=
  NoDup modes →
  ∀ totals entries,
    count_bot_wise_status_tickets d keys modes sc sv = Ok totals →
    count_tickets_for_unique_modes d keys modes sc sv = Ok entries →
    ∀ k, k ∈ keys → is_Some (dict_get k d) →
      dict_get k totals = Some (sum_of_entries entries sv k modes).

(** The partition claim of the time window as the specification words it,
    for every reference date. *)
Definition time_window_claim (parse_date : string → option Z) (today : Z)
    (df : DataFrame) (c : string) (cur : option Z) : Prop :=
  c ∈ columns df →
  let cutoff := (default today cur - eight_days)%Z in
  let recent := fun r => date_ge cutoff (cell_at c r) in
  let archive := fun r => date_lt cutoff (cell_at c r) in
  let failed := fun r => is_null (cell_at c r) in
  ∃ post out_recent out_archive,
    filter_last_8_days parse_date today df c cur = (post, out_recent) ∧
    filter_before_last_8_days parse_date today df c cur = (post, out_archive) ∧
    rows out_recent = List.filter recent (rows post) ∧
    rows out_archive = List.filter archive (rows post) ∧
    Permutation (rows post)
      (rows out_recent ++ rows out_archive ++ List.filter failed (rows post)).

(** ** Inputs of the scenarios *)

Definition ticket (bot mode status : string) : Row :=
  <["Bot Name" := VStr bot]>
    (<["Mode" := VStr mode]> (<["Status" := VStr status]> ∅)).

Definition ticket_columns : list string := ["Bot Name"; "Mode"; "Status"].

(** The scenario of the specification: bots [A] and [B], every ticket of
    the window belongs to [A]. *)
Definition scenario_partitions : dict DataFrame :=
  [("A", mkDF ticket_columns
           [ticket "A" "Email" "Closed"; ticket "A" "Email" "Open"]);
   ("B", mkDF ticket_columns [])].

(** Two bots whose names and modes are formatted to one composite key:
    bot [A] has no ticket, bot [A_B] has one ticket of mode [C]. *)
Definition shared_key_partitions : dict DataFrame :=
  [("A", mkDF ["Mode"] []);
   ("A_B", mkDF ["Mode"] [ {["Mode" := VStr "C"]} ])].

(** Bot [A] has one closed ticket of mode [B_C]; bot [A_B] has none. *)
Definition shared_status_partitions : dict DataFrame :=
  [("A", mkDF ["Mode"; "Status"]
           [ <["Mode" := VStr "B_C"]> {["Status" := VStr "Closed"]} ]);
   ("A_B", mkDF ["Mode"; "Status"] [])].

(** Tickets of bots [A] and [C]; bot [C] is not a listed key. *)
Definition mixed_frame : DataFrame :=
  mkDF ticket_columns
    [ticket "A" "Email" "Closed"; ticket "C" "Phone" "Open";
     ticket "A" "Web" "Open"].

(** Midnight of the [n]-th day after 1970-01-01, in nanoseconds. *)
Definition day (n : Z) : Z := (n * 86400 * 1000000000)%Z.

(** A parser that knows two dates. *)
Definition iso_dates (s : string) : option Z :=
  if String.eqb s "2024-06-01" then Some (day 19875)
  else if String.eqb s "2024-06-14" then Some (day 19888)
  else None.

Definition dated (bot date : string) : Row :=
  <["Ticket Creation Date" := VStr date]> (ticket bot "Email" "Open").

(** The scenario of the specification, for the reference date 2024-06-15
    ([day 19889]): one ticket of 2024-06-01, one of 2024-06-14, one whose
    date is no date. *)
Definition dated_frame : DataFrame :=
  mkDF ("Ticket Creation Date" :: ticket_columns)
    [dated "A" "2024-06-01"; dated "A" "2024-06-14"; dated "B" "soon"].

(** [str.ascii_lower] and [str.ascii_strip] as they act on ASCII text, for the
    examples: the letters A to Z are lowered, and the white space is the
    characters 9 to 13 and 28 to 32. *)

Definition lower_char (a : ascii) : ascii :=
  let n := nat_of_ascii a in
  if (65 <=? n) && (n <=? 90) then ascii_of_nat (n + 32) else a.

Fixpoint ascii_lower (s : string) : string :=
  match s with
  | EmptyString => EmptyString
  | String a s' => String (lower_char a) (ascii_lower s')
  end.

Definition is_space (a : ascii) : bool :=
  let n := nat_of_ascii a in
  ((9 <=? n) && (n <=? 13)) || ((28 <=? n) && (n <=? 32)).

Fixpoint lstrip (s : string) : string :=
  match s with
  | EmptyString => EmptyString
  | String a s' => if is_space a then lstrip s' else s
  end.

Definition ascii_strip (s : string) : string :=
  String.rev (lstrip (String.rev (lstrip s))).

(** A stored frame with text that is not yet normalised. *)
Definition raw_problem_partitions : dict DataFrame :=
  [("A", mkDF ["Problem Reported"]
           [ {["Problem Reported" := VStr " Printer "]} ])].

(** ** Further vocabulary *)

(** The text does not start with white space. *)
Definition starts_clean (s : string) : bool :=
  match s with
  | EmptyString => true
  | String a _ => negb (is_space a)
  end.

(** Two bots with problem texts in mixed case and with stray blanks. *)
Definition problem_partitions : dict DataFrame :=
  [("A", mkDF ["Problem Reported"]
           [ {["Problem Reported" := VStr " Printer "]};
             {["Problem Reported" := VStr "printer"]};
             {["Problem Reported" := VStr "Screen"]} ]);
   ("B", mkDF ["Problem Reported"]
           [ {["Problem Reported" := VStr "PRINTER"]};
             {["Problem Reported" := VNull]} ])].

(** The cell holds one of the listed texts. *)
Definition text_in (values : list string) (x : cell) : bool :=
  match x with
  | VStr s => bool_decide (s ∈ values)
  | _ => false
  end.

(** The bot of a row is one of the listed keys. *)
Definition listed_bot (K : list string) (cb : string) (r : Row) : bool :=
  text_in K (cell_at cb r).

(** The sum, over the listed keys, of their entries for value [v]. *)
Definition sum_over_bots (nested : dict (dict nat)) (v : string)
    (K : list string) : nat :=
  list_sum (map (fun k => default 0 (nested_get v k nested)) K).

(** The cell is what the imputation treats as missing: a null, or the text
    [nan] or [-]. *)
Definition missing_text (x : cell) : bool :=
  match x with
  | VStr s => String.eqb s "nan" || String.eqb s "-"
  | VDate _ => false
  | VNull => true
  end.

Definition text_or_null (x : cell) : bool :=
  match x with VDate _ => false | _ => true end.

(** The sizes of the frames of a partition map, entry by entry. *)
Definition partition_sizes (m : dict DataFrame) : list nat :=
  map (fun kv => length (rows (snd kv))) m.

Section ImputedRows.

Variable show_timestamp : Z → string.

(** What the three assignments of one imputation make of a cell. *)
Definition impute_cell (replacement : string) (x : cell) : cell :=
  fillna replacement (replace_markers (astype_str show_timestamp x)).

(** A row after the imputation of a frame with columns [cols]. *)
Definition impute_row (cols : list string) (imp : dict string) (r : Row)
  : Row :=
  fold_left (fun r item =>
               if bool_decide (fst item ∈ cols)
               then <[fst item := impute_cell (snd item) (cell_at (fst item) r)]> r
               else r) imp r.

End ImputedRows.

(** A raw file: a bot left blank, one given as a dash, and a column the
    configuration removes. *)
Definition raw_frame : DataFrame :=
  mkDF ["Bot Name"; "Mode"; "Tags"]
    [ <["Bot Name" := VStr "A"]> (<["Mode" := VStr "Email"]> {["Tags" := VStr "x"]});
      <["Bot Name" := VNull]> (<["Mode" := VStr "Phone"]> {["Tags" := VNull]});
      <["Bot Name" := VStr "-"]> (<["Mode" := VStr "Email"]> {["Tags" := VStr "y"]}) ].

(** The count of value [v] for key [k]: the rows of the key's frame that
    hold the value, 0 for a key without frame. *)
Definition count_for (d : dict DataFrame) (c k v : string) : nat :=
  match dict_get k d with
  | Some df => count_rows v c df
  | None => 0
  end.

(** The keys the counting loops do not skip: those with a frame that has
    the column. *)
Definition counted_keys (d : dict DataFrame) (c : string)
    (keys : list string) : list string :=
  List.filter (fun k => match dict_get k d with
                        | Some df => has_column df c
                        | None => false
                        end) keys.

(** The nested table of the counts of [keys]: the values in order, under
    each value the counted keys in order. *)
Definition counts_table (d : dict DataFrame) (keys values : list string)
    (c : string) : dict (dict nat) :=
  map (fun v => (v, map (fun k => (k, count_for d c k v))
                      (counted_keys d c keys))) values.

(** The pivot block of the report for such a table: one row per counted
    key, its name followed by its count under each value. *)
Definition pivot_block (d : dict DataFrame) (keys values : list string)
    (c : string) : list (list xl) :=
  map (fun k => XText k :: map (fun v => XNumber (count_for d c k v)) values)
    (counted_keys d c keys).


(** A nested table given by its rows: the values in order, each with its
    inner dict. *)
Definition table_rows (row : string → dict nat) (values : list string)
  : dict (dict nat) :=
  map (fun v => (v, row v)) values.

(** The table in the middle of the pass of key [x]: the values of [done]
    have their entry for [x], the later ones not yet. *)
Definition mid_row (row : string → dict nat) (x : string) (n : string → nat)
    (done : list string) (v : string) : dict nat :=
  if bool_decide (v ∈ done) then row v ++ [(x, n v)] else row v.

(** * Properties *)

Ltac solve_elem := repeat first [ by left | right ].

Ltac elem_cases H :=
  repeat match type of H with
         | _ ∈ _ :: _ => apply elem_of_cons in H as [->|H]
         | _ ∈ [] => by apply elem_of_nil in H
         end.

Ltac in_range :=
  unfold cutoff_in_range; vm_compute; split; [reflexivity | discriminate].

Ltac not_elem H :=
  repeat (apply elem_of_cons in H as [H|H]; [discriminate H|]);
  by apply elem_of_nil in H.

(** ** Dicts *)

Section DictFacts.
Context {V : Type}.
Implicit Types (d : dict V) (k : string) (v : V).

Lemma dict_get_set_eq d k v : dict_get k (dict_set k v d) = Some v.
Proof.
  induction d as [|[k' v'] d IH]; simpl.
  - by rewrite String.eqb_refl.
  - destruct (String.eqb k k') eqn:E; simpl; rewrite E; [done | exact IH].
Qed.

Lemma dict_get_set_ne d k k' v :
  k ≠ k' → dict_get k' (dict_set k v d) = dict_get k' d.
Proof.
  intros Hne. induction d as [|[k0 v0] d IH]; simpl.
  - destruct (String.eqb k' k) eqn:E; [|done].
    apply String.eqb_eq in E. congruence.
  - destruct (String.eqb k k0) eqn:E; simpl.
    + apply String.eqb_eq in E. subst k0.
      destruct (String.eqb k' k) eqn:E'; [|done].
      apply String.eqb_eq in E'. congruence.
    + by rewrite IH.
Qed.

Lemma dict_get_set d k k' v :
  dict_get k' (dict_set k v d)
  = if decide (k = k') then Some v else dict_get k' d.
Proof.
  case_decide as H; [subst; apply dict_get_set_eq | by apply dict_get_set_ne].
Qed.

Lemma dict_set_present d k v :
  is_Some (dict_get k d) → dict_keys (dict_set k v d) = dict_keys d.
Proof.
  induction d as [|[k' v'] d IH]; simpl; intros [x Hx]; [done|].
  destruct (String.eqb k k') eqn:E; simpl; [done|].
  f_equal. apply IH. eauto.
Qed.

Lemma dict_set_absent d k v :
  dict_get k d = None → dict_keys (dict_set k v d) = dict_keys d ++ [k].
Proof.
  induction d as [|[k' v'] d IH]; simpl; intros H; [done|].
  destruct (String.eqb k k') eqn:E; [done|]. simpl. f_equal. by apply IH.
Qed.

Lemma dict_get_keys d k : is_Some (dict_get k d) ↔ k ∈ dict_keys d.
Proof.
  induction d as [|[k' v'] d IH]; simpl.
  - split; [by intros [? ?] | by intros ?%elem_of_nil].
  - rewrite elem_of_cons. destruct (String.eqb k k') eqn:E.
    + apply String.eqb_eq in E. split; eauto.
    + apply String.eqb_neq in E. rewrite IH.
      split; [by right | by intros [?|?]].
Qed.

Lemma dict_write_app d ws1 ws2 :
  dict_write d (ws1 ++ ws2) = dict_write (dict_write d ws1) ws2.
Proof. apply fold_left_app. Qed.

Lemma dict_write_map {A} d (f : A → string * V) (l : list A) :
  fold_left (fun acc x => dict_set (fst (f x)) (snd (f x)) acc) l d
  = dict_write d (map f l).
Proof.
  revert d. induction l as [|x l IH]; intros d; simpl; [done|]. apply IH.
Qed.

(** A key no assignment names keeps its entry. *)
Lemma dict_write_other d ws k :
  (∀ v, (k, v) ∉ ws) → dict_get k (dict_write d ws) = dict_get k d.
Proof.
  revert d. induction ws as [|[k' v'] ws IH]; intros d Hk; simpl; [done|].
  rewrite IH.
  - apply dict_get_set_ne. intros ->. apply (Hk v'). left.
  - intros v Hv. apply (Hk v). by right.
Qed.

(** When every assignment to [k] stores [v], the entry of [k] stays [v]. *)
Lemma dict_write_keep d ws k v :
  (∀ v', (k, v') ∈ ws → v' = v) →
  dict_get k d = Some v → dict_get k (dict_write d ws) = Some v.
Proof.
  revert d. induction ws as [|[k' v'] ws IH]; intros d Hk Hd; simpl; [done|].
  apply IH.
  - intros v0 Hv0. apply Hk. by right.
  - simpl. rewrite dict_get_set. case_decide as E; [|done].
    subst k'. f_equal. apply Hk. left.
Qed.

(** ... and one such assignment is enough to create it. *)
Lemma dict_write_agree d ws k v :
  (∀ v', (k, v') ∈ ws → v' = v) →
  (k, v) ∈ ws → dict_get k (dict_write d ws) = Some v.
Proof.
  revert d. induction ws as [|[k' v'] ws IH]; intros d Hk Hin; simpl.
  - by apply elem_of_nil in Hin.
  - destruct (decide (k' = k)) as [->|Hne].
    + apply dict_write_keep.
      * intros v0 Hv0. apply Hk. by right.
      * simpl. rewrite dict_get_set_eq. f_equal. apply Hk. left.
    + apply IH.
      * intros v0 Hv0. apply Hk. by right.
      * apply elem_of_cons in Hin as [Heq|Hin]; [congruence | done].
Qed.

Lemma dict_write_stays d ws k :
  is_Some (dict_get k d) → is_Some (dict_get k (dict_write d ws)).
Proof.
  revert d. induction ws as [|[k' v'] ws IH]; intros d Hd; simpl; [done|].
  apply IH. simpl. rewrite dict_get_set. case_decide; eauto.
Qed.

(** A key some assignment names has an entry. *)
Lemma dict_write_created d ws k v :
  (k, v) ∈ ws → is_Some (dict_get k (dict_write d ws)).
Proof.
  revert d. induction ws as [|[k' v'] ws IH]; intros d Hin; simpl.
  - by apply elem_of_nil in Hin.
  - apply elem_of_cons in Hin as [[= <- <-]|Hin]; [|by apply IH].
    apply dict_write_stays. simpl. rewrite dict_get_set_eq. eauto.
Qed.

(** Fresh, pairwise distinct keys are appended in the order written. *)
Lemma dict_write_keys d ws :
  NoDup (map fst ws) →
  (∀ k, k ∈ map fst ws → dict_get k d = None) →
  dict_keys (dict_write d ws) = dict_keys d ++ map fst ws.
Proof.
  revert d. induction ws as [|[k v] ws IH]; intros d Hnd Hfresh; simpl.
  - by rewrite app_nil_r.
  - apply NoDup_cons in Hnd as [Hk Hnd]. rewrite IH; [|done|].
    + simpl. rewrite dict_set_absent; [by rewrite <- app_assoc|].
      apply Hfresh. simpl. left.
    + intros k' Hk'. simpl. rewrite dict_get_set_ne.
      * apply Hfresh. simpl. by right.
      * intros ->. done.
Qed.

End DictFacts.

(** ** Loops *)

Lemma for_each_app {A S} (l1 l2 : list A) (body : S → A → result S) (s : S) :
  for_each (l1 ++ l2) body s = (s' ← for_each l1 body s; for_each l2 body s').
Proof.
  revert s. induction l1 as [|x l1 IH]; intros s; simpl; [done|].
  destruct (body s x) as [s'|e]; simpl; [apply IH | done].
Qed.

(** A loop whose body cannot raise is a fold. *)
Lemma for_each_fold {A S} (l : list A) (body : S → A → result S)
    (f : S → A → S) (s : S) :
  (∀ s x, x ∈ l → body s x = Ok (f s x)) →
  for_each l body s = Ok (fold_left f l s).
Proof.
  revert s. induction l as [|x l IH]; intros s H; simpl; [done|].
  rewrite H; [|left]. simpl. apply IH. intros s' y Hy. apply H. by right.
Qed.

(** A loop whose body is a run of dict assignments is their concatenation. *)
Lemma for_each_writes {A V} (l : list A)
    (body : dict V → A → result (dict V)) (W : A → list (string * V))
    (acc : dict V) :
  (∀ acc x, x ∈ l → body acc x = Ok (dict_write acc (W x))) →
  for_each l body acc = Ok (dict_write acc (flat_map W l)).
Proof.
  revert acc. induction l as [|x l IH]; intros acc H; simpl; [done|].
  rewrite H; [|left]. simpl. rewrite IH.
  - by rewrite dict_write_app.
  - intros acc' y Hy. apply H. by right.
Qed.

(** The invariant rule: [I done s] relates the state to the elements
    already visited. *)
Lemma for_each_inv_from {A S} (I : list A → S → Prop) (l : list A)
    (body : S → A → result S) :
  (∀ done x s, I done s → x ∈ l →
     ∃ s', body s x = Ok s' ∧ I (done ++ [x]) s') →
  ∀ rest done s, (∀ x, x ∈ rest → x ∈ l) → I done s →
    ∃ s', for_each rest body s = Ok s' ∧ I (done ++ rest) s'.
Proof.
  intros Hstep rest.
  induction rest as [|x rest IH]; intros done s Hsub HI; simpl.
  - exists s. by rewrite app_nil_r.
  - destruct (Hstep done x s HI) as (s1 & Hb & HI1); [apply Hsub; left|].
    rewrite Hb. simpl.
    destruct (IH (done ++ [x]) s1) as (s2 & Hf & HI2); [|done|].
    + intros y Hy. apply Hsub. by right.
    + exists s2. split; [done|]. by rewrite <- app_assoc in HI2.
Qed.

Lemma for_each_inv {A S} (I : list A → S → Prop) (l : list A)
    (body : S → A → result S) (s : S) :
  I [] s →
  (∀ done x s, I done s → x ∈ l →
     ∃ s', body s x = Ok s' ∧ I (done ++ [x]) s') →
  ∃ s', for_each l body s = Ok s' ∧ I l s'.
Proof.
  intros H0 Hstep.
  apply (for_each_inv_from I l body Hstep l [] s); auto.
Qed.

(** ** Frames *)

Lemma has_column_true df c : has_column df c = true ↔ c ∈ columns df.
Proof. unfold has_column. apply bool_decide_eq_true. Qed.

Lemma getitem_ok df c : c ∈ columns df → getitem df c = Ok (series c df).
Proof.
  intros H. unfold getitem. by rewrite (proj2 (has_column_true df c) H).
Qed.

Lemma getitem_missing df c : c ∉ columns df → getitem df c = Raise (KeyError c).
Proof.
  intros H. unfold getitem, has_column. by rewrite bool_decide_eq_false_2.
Qed.

Lemma mask_rows {A} (f : A → bool) (l : list A) :
  map fst (List.filter snd (combine l (map f l))) = List.filter f l.
Proof.
  induction l as [|x l IH]; simpl; [done|].
  destruct (f x); simpl; by rewrite IH.
Qed.

Lemma mask_sum_map {A} (f : A → bool) (l : list A) :
  mask_sum (map f l) = length (List.filter f l).
Proof.
  unfold mask_sum. induction l as [|x l IH]; simpl; [done|].
  destruct (f x); simpl; by rewrite IH.
Qed.

(** Selecting by a mask computed from a column is a filter on the rows. *)
Lemma select_rows df c (p : cell → bool) :
  rows (select df (map p (series c df)))
  = List.filter (fun r => p (cell_at c r)) (rows df).
Proof.
  unfold select, series. simpl. rewrite map_map. apply mask_rows.
Qed.

Lemma select_series df c (p : cell → bool) :
  select df (map p (series c df))
  = mkDF (columns df) (List.filter (fun r => p (cell_at c r)) (rows df)).
Proof.
  rewrite <- select_rows. reflexivity.
Qed.

Lemma count_eq_series v c df : count_eq v (series c df) = count_rows v c df.
Proof. unfold count_eq, series, count_rows. by rewrite map_map, mask_sum_map. Qed.

Lemma count_or_zero (n : nat) : (if 0 <? n then n else 0) = n.
Proof. destruct n; reflexivity. Qed.

Lemma eq_text_true v x : eq_text v x = true ↔ x = VStr v.
Proof.
  destruct x as [s| |]; simpl; try (split; [done | congruence]).
  rewrite String.eqb_eq. split; congruence.
Qed.

Lemma count_rows_none v c df :
  (∀ r, r ∈ rows df → cell_at c r ≠ VStr v) → count_rows v c df = 0.
Proof.
  unfold count_rows. intros H. induction (rows df) as [|r l IH]; simpl; [done|].
  destruct (eq_text v (cell_at c r)) eqn:E.
  - apply eq_text_true in E. exfalso. apply (H r); [left | done].
  - apply IH. intros r' Hr'. apply H. by right.
Qed.

(** ** Flat counts *)

Lemma total_ticket_received_count_writes d keys values c :
  total_ticket_received_count d keys values c
  = Ok (dict_write [] (flat_map (flat_writes_of d values c) keys)).
Proof.
  unfold total_ticket_received_count. apply for_each_writes.
  intros acc key _. unfold flat_writes_of.
  destruct (dict_get key d) as [df|]; [|done].
  destruct (has_column df c) eqn:Hc; simpl; [|done].
  apply has_column_true in Hc.
  rewrite (for_each_fold _ _
    (fun acc v => dict_set (flat_key key v) (count_rows v c df) acc)).
  - f_equal.
    apply (dict_write_map acc (fun v => (flat_key key v, count_rows v c df))).
  - intros s v _. rewrite getitem_ok by done. simpl.
    by rewrite count_or_zero, count_eq_series.
Qed.

Lemma flat_writes_elem d keys values c ck n :
  (ck, n) ∈ flat_map (flat_writes_of d values c) keys ↔
  ∃ k v df, k ∈ keys ∧ v ∈ values ∧ dict_get k d = Some df ∧
            c ∈ columns df ∧ ck = flat_key k v ∧ n = count_rows v c df.
Proof.
  rewrite list_elem_of_In, in_flat_map. split.
  - intros (k & Hk & Hin). unfold flat_writes_of in Hin.
    destruct (dict_get k d) as [df|] eqn:Hd; [|done].
    destruct (has_column df c) eqn:Hc; [|done].
    apply in_map_iff in Hin as (v & Heq & Hv). inversion Heq; subst.
    exists k, v, df. rewrite <- !list_elem_of_In in *.
    by rewrite <- has_column_true.
  - intros (k & v & df & Hk & Hv & Hd & Hc & -> & ->).
    exists k. rewrite <- list_elem_of_In. split; [done|].
    unfold flat_writes_of. rewrite Hd.
    rewrite (proj2 (has_column_true df c) Hc).
    apply in_map_iff. exists v. by rewrite <- list_elem_of_In.
Qed.

Lemma flat_key_inj k v v' : flat_key k v = flat_key k v' → v = v'.
Proof.
  unfold flat_key. intros H. apply String.app_inj in H.
  by apply (String.app_inj "_") in H.
Qed.

(** ** Nested tables *)

Lemma empty_tables_get values v :
  dict_get v (empty_tables values)
  = if decide (v ∈ values) then Some [] else None.
Proof.
  unfold empty_tables.
  rewrite (dict_write_map [] (fun v : string => (v, @nil (string * nat)))).
  case_decide as Hv.
  - apply dict_write_agree.
    + intros v' Hv'. apply list_elem_of_In, in_map_iff in Hv'.
      destruct Hv' as (? & Heq & _). by inversion Heq.
    + apply list_elem_of_In, in_map_iff. exists v.
      by rewrite <- list_elem_of_In.
  - rewrite dict_write_other; [done|].
    intros v' Hv'. apply list_elem_of_In, in_map_iff in Hv'.
    destruct Hv' as (? & Heq & Hin). inversion Heq; subst.
    by apply list_elem_of_In in Hin.
Qed.

Lemma nested_assign_step v k n mc :
  is_Some (dict_get v mc) →
  ∃ mc', nested_assign v k n mc = Ok mc' ∧ nested_step v k n mc mc'.
Proof.
  intros [inner Hin]. unfold nested_assign, dict_item. rewrite Hin. simpl.
  eexists. split; [reflexivity|]. split.
  - intros v'. rewrite dict_get_set. case_decide; subst; [|done].
    rewrite Hin. split; eauto.
  - intros v' k'. unfold nested_get. rewrite dict_get_set.
    destruct (decide (v = v')) as [<-|Hne].
    + rewrite Hin, dict_get_set.
      destruct (decide (k = k')) as [<-|Hk].
      * by rewrite decide_True.
      * rewrite decide_False; [done|]. intros [_ ?]. congruence.
    + rewrite decide_False; [done|]. intros [? _]. congruence.
Qed.

(** A loop over the values that assigns [cnt v] at [[v][x]] each time. *)
Lemma nested_loop x (cnt : string → nat) vs
    (body : dict (dict nat) → string → result (dict (dict nat))) mc :
  (∀ mc v, v ∈ vs → is_Some (dict_get v mc) →
     ∃ mc', body mc v = Ok mc' ∧ nested_step v x (cnt v) mc mc') →
  (∀ v, v ∈ vs → is_Some (dict_get v mc)) →
  ∃ mc', for_each vs body mc = Ok mc' ∧
    (∀ v, is_Some (dict_get v mc') ↔ is_Some (dict_get v mc)) ∧
    (∀ v k, nested_get v k mc'
            = if decide (k = x ∧ v ∈ vs) then Some (cnt v)
              else nested_get v k mc).
Proof.
  intros Hbody Hdom.
  destruct (for_each_inv
    (fun done mc' =>
       (∀ v, is_Some (dict_get v mc') ↔ is_Some (dict_get v mc)) ∧
       (∀ v k, nested_get v k mc'
               = if decide (k = x ∧ v ∈ done) then Some (cnt v)
                 else nested_get v k mc))
    vs body mc) as (mc' & Hrun & HI).
  - split; [done|]. intros v k. rewrite decide_False; [done|].
    intros [_ H]. by apply elem_of_nil in H.
  - intros done v s [Hd Hg] Hv.
    destruct (Hbody s v Hv) as (s' & Hb & Hd' & Hg').
    { apply Hd. by apply Hdom. }
    exists s'. split; [done|]. split.
    + intros v'. by rewrite Hd'.
    + intros v' k. rewrite Hg', Hg.
      destruct (decide (v' = v ∧ k = x)) as [[-> ->]|Hne].
      * rewrite decide_True; [done|]. split; [done|].
        apply elem_of_app. right. left.
      * destruct (decide (k = x ∧ v' ∈ done)) as [[-> Hin]|Hn2].
        -- rewrite decide_True; [done|]. split; [done|].
           apply elem_of_app. by left.
        -- rewrite decide_False; [done|]. intros [-> Hin].
           apply elem_of_app in Hin as [Hin|Hin]; [by apply Hn2|].
           apply list_elem_of_singleton in Hin. by apply Hne.
  - exists mc'. by split.
Qed.

Lemma total_ticket_received_count_modewise_spec d keys values c :
  ∃ nested,
    total_ticket_received_count_modewise d keys values c = Ok nested ∧
    (∀ v, is_Some (dict_get v nested) ↔ v ∈ values) ∧
    (∀ v k, v ∈ values →
       nested_get v k nested
       = if decide (k ∈ keys) then counted d c v k else None).
Proof.
  unfold total_ticket_received_count_modewise.
  apply (for_each_inv (table_inv d c values)); unfold table_inv.
  - split.
    + intros v. rewrite empty_tables_get. case_decide; split; eauto.
      * by intros [? ?].
      * done.
    + intros v k Hv. unfold nested_get. rewrite empty_tables_get.
      by rewrite decide_True by done.
  - intros done x mc [Hd Hg] Hx.
    destruct (dict_get x d) as [df|] eqn:Hdx.
    + destruct (has_column df c) eqn:Hc; simpl.
      * apply has_column_true in Hc.
        destruct (nested_loop x (fun v => count_rows v c df) values
          (fun mode_counts value =>
             col ← getitem df c;
             let count := count_eq value col in
             mode_counts ← nested_assign value x count mode_counts;
             if count =? 0 then nested_assign value x 0 mode_counts
             else Ok mode_counts) mc) as (mc' & Hrun & Hd' & Hg').
        -- intros s v Hv Hs. rewrite getitem_ok by done. simpl.
           rewrite count_eq_series.
           destruct (nested_assign_step v x (count_rows v c df) s Hs)
             as (s1 & -> & Hs1). simpl.
           destruct (count_rows v c df =? 0) eqn:E0.
           ++ apply Nat.eqb_eq in E0.
              destruct (nested_assign_step v x 0 s1) as (s2 & -> & Hs2).
              { apply Hs1. done. }
              exists s2. split; [done|]. rewrite E0 in *.
              destruct Hs1 as [Ha Hb], Hs2 as [Ha' Hb']. split.
              ** intros v'. by rewrite Ha', Ha.
              ** intros v' k'. rewrite Hb', Hb. by case_decide.
           ++ by exists s1.
        -- intros v Hv. by apply Hd.
        -- exists mc'. split; [done|]. split.
           ++ intros v. by rewrite Hd', Hd.
           ++ intros v k Hv. rewrite Hg', Hg by done.
              destruct (decide (k = x ∧ v ∈ values)) as [[-> _]|Hne].
              ** rewrite decide_True by (apply elem_of_app; right; left).
                 unfold counted. rewrite Hdx.
                 by rewrite (proj2 (has_column_true df c) Hc).
              ** destruct (decide (k ∈ done)) as [Hin|Hnin].
                 --- rewrite decide_True; [done|]. apply elem_of_app. by left.
                 --- destruct (decide (k = x)) as [->|Hkx].
                     { exfalso. by apply Hne. }
                     rewrite decide_False; [done|]. intros Hin.
                     apply elem_of_app in Hin as [?|Hin]; [done|].
                     by apply list_elem_of_singleton in Hin.
      * exists mc. split; [done|]. split; [done|].
        intros v k Hv. rewrite Hg by done.
        destruct (decide (k ∈ done)) as [Hin|Hnin].
        -- rewrite decide_True; [done|]. apply elem_of_app. by left.
        -- destruct (decide (k = x)) as [->|Hkx].
           ++ rewrite decide_True by (apply elem_of_app; right; left).
              unfold counted. by rewrite Hdx, Hc.
           ++ rewrite decide_False; [done|]. intros Hin.
              apply elem_of_app in Hin as [?|Hin]; [done|].
              by apply list_elem_of_singleton in Hin.
    + exists mc. split; [done|]. split; [done|].
      intros v k Hv. rewrite Hg by done.
      destruct (decide (k ∈ done)) as [Hin|Hnin].
      * rewrite decide_True; [done|]. apply elem_of_app. by left.
      * destruct (decide (k = x)) as [->|Hkx].
        -- rewrite decide_True by (apply elem_of_app; right; left).
           unfold counted. by rewrite Hdx.
        -- rewrite decide_False; [done|]. intros Hin.
           apply elem_of_app in Hin as [?|Hin]; [done|].
           by apply list_elem_of_singleton in Hin.
Qed.

(** ** Zero entries and the transpose *)

Lemma flat_entry_present d keys values c flat k v df :
  total_ticket_received_count d keys values c = Ok flat →
  k ∈ keys → v ∈ values → dict_get k d = Some df → c ∈ columns df →
  is_Some (dict_get (flat_key k v) flat).
Proof.
  rewrite total_ticket_received_count_writes. intros [= <-] Hk Hv Hd Hc.
  apply (dict_write_created _ _ _ (count_rows v c df)).
  apply flat_writes_elem. by exists k, v, df.
Qed.

Lemma flat_entry_value d keys values c flat k v df :
  total_ticket_received_count d keys values c = Ok flat →
  k ∈ keys → v ∈ values → dict_get k d = Some df → c ∈ columns df →
  flat_key_unshared keys values k v →
  dict_get (flat_key k v) flat = Some (count_rows v c df).
Proof.
  rewrite total_ticket_received_count_writes. intros [= <-] Hk Hv Hd Hc Hun.
  apply dict_write_agree.
  - intros n Hn. apply flat_writes_elem in Hn
      as (k' & v' & df' & Hk' & Hv' & Hd' & _ & Heq & ->).
    destruct (Hun k' v' Hk' Hv' (eq_sym Heq)) as [-> ->]. congruence.
  - apply flat_writes_elem. by exists k, v, df.
Qed.

Lemma nested_entry_value d keys values c nested k v df :
  total_ticket_received_count_modewise d keys values c = Ok nested →
  k ∈ keys → v ∈ values → dict_get k d = Some df → c ∈ columns df →
  nested_get v k nested = Some (count_rows v c df).
Proof.
  destruct (total_ticket_received_count_modewise_spec d keys values c)
    as (nested' & -> & _ & Hg).
  intros [= <-] Hk Hv Hd Hc. rewrite Hg by done.
  rewrite decide_True by done. unfold counted. rewrite Hd.
  by rewrite (proj2 (has_column_true df c) Hc).
Qed.

Lemma shared_key_ready k :
  k ∈ ["A"; "A_B"] →
  ∃ df, dict_get k shared_key_partitions = Some df ∧ "Mode" ∈ columns df.
Proof.
  intros Hk. apply elem_of_cons in Hk as [->|Hk].
  - eexists. split; [reflexivity | left].
  - apply list_elem_of_singleton in Hk as ->.
    eexists. split; [reflexivity | left].
Qed.

Lemma scenario_ready k :
  k ∈ ["A"; "B"] →
  ∃ df, dict_get k scenario_partitions = Some df ∧ "Mode" ∈ columns df.
Proof.
  intros Hk. elem_cases Hk; eexists; (split; [reflexivity | solve_elem]).
Qed.

Lemma scenario_unshared k v :
  k ∈ ["A"; "B"] → v ∈ ["Email"; "Phone"] →
  flat_key_unshared ["A"; "B"] ["Email"; "Phone"] k v.
Proof.
  intros Hk Hv k' v' Hk' Hv' Heq.
  elem_cases Hk; elem_cases Hv; elem_cases Hk'; elem_cases Hv';
    first [ by split | by vm_compute in Heq ].
Qed.

(** C1, as amended.  When every listed key is in the partition map and its
    frame has the column, both tables are returned and hold an entry for
    every requested (key, value) pair.  The nested entry is the number of
    rows of the key's frame with that value, so 0 when there is none; the
    flat entry is that number, so 0 when there is none, provided no other
    requested pair is formatted to the same composite key. *)
Theorem zero_entries_unshared d keys values c :
  (∀ k, k ∈ keys → ∃ df, dict_get k d = Some df ∧ c ∈ columns df) →
  ∃ flat nested,
    total_ticket_received_count d keys values c = Ok flat ∧
    total_ticket_received_count_modewise d keys values c = Ok nested ∧
    ∀ k v df, k ∈ keys → v ∈ values → dict_get k d = Some df →
      is_Some (dict_get (flat_key k v) flat) ∧
      nested_get v k nested = Some (count_rows v c df) ∧
      (flat_key_unshared keys values k v →
         dict_get (flat_key k v) flat = Some (count_rows v c df)) ∧
      ((∀ r, r ∈ rows df → cell_at c r ≠ VStr v) →
         nested_get v k nested = Some 0 ∧
         (flat_key_unshared keys values k v →
            dict_get (flat_key k v) flat = Some 0)).
Proof.
  intros Hready.
  destruct (total_ticket_received_count_modewise_spec d keys values c)
    as (nested & Hn & _).
  eexists _, nested. split; [apply total_ticket_received_count_writes|].
  split; [done|]. intros k v df Hk Hv Hd.
  destruct (Hready k Hk) as (df' & Hd' & Hc).
  assert (df' = df) as -> by congruence.
  pose proof (total_ticket_received_count_writes d keys values c) as Hf.
  pose proof (nested_entry_value _ _ _ _ _ _ _ _ Hn Hk Hv Hd Hc) as Hnv.
  split; [by eapply flat_entry_present|]. split; [done|].
  split; [by eapply flat_entry_value|].
  intros Hnone. rewrite <- (count_rows_none v c df Hnone).
  split; [done|]. by eapply flat_entry_value.
Qed.

Lemma zero_entries_unshared_witness :
  ∃ flat nested,
    total_ticket_received_count scenario_partitions ["A"; "B"]
      ["Email"; "Phone"] "Mode" = Ok flat ∧
    total_ticket_received_count_modewise scenario_partitions ["A"; "B"]
      ["Email"; "Phone"] "Mode" = Ok nested ∧
    dict_get (flat_key "B" "Email") flat = Some 0 ∧
    nested_get "Email" "B" nested = Some 0.
Proof.
  destruct (zero_entries_unshared scenario_partitions ["A"; "B"]
              ["Email"; "Phone"] "Mode" scenario_ready)
    as (flat & nested & Hf & Hn & Hall).
  exists flat, nested. split; [done|]. split; [done|].
  destruct (Hall "B" "Email" (mkDF ticket_columns []))
    as (_ & _ & _ & Hzero); [solve_elem | solve_elem | reflexivity |].
  destruct Hzero as [Hz Hflat].
  { intros r Hr. by apply elem_of_nil in Hr. }
  split; [|done]. apply Hflat. apply scenario_unshared; solve_elem.
Defined.

(** C1, as the specification words it, fails when two requested pairs share
    a composite key: [("A", "B_C")] has no ticket, yet the flat entry
    [A_B_C] holds the count 1 of [("A_B", "C")], written later. *)
Lemma zero_entries_shared_key :
  ¬ zero_entries_claim shared_key_partitions ["A"; "A_B"] ["B_C"; "C"] "Mode".
Proof.
  intros H. destruct (H shared_key_ready) as (flat & nested & Hf & _ & Hall).
  vm_compute in Hf. injection Hf as <-.
  destruct (Hall "A" "B_C" (mkDF ["Mode"] []))
    as (_ & _ & Hzero); [solve_elem | solve_elem | reflexivity |].
  destruct Hzero as [Hz _].
  { intros r Hr. by apply elem_of_nil in Hr. }
  vm_compute in Hz. discriminate Hz.
Qed.

(** C3, as amended.  Both tables are always returned, and for every listed
    key of the partition map whose frame has the column and every listed
    value, the nested entry at [[value][key]] exists and equals the flat
    entry at the composite key, provided no other requested pair is
    formatted to the same composite key. *)
Theorem modewise_transposes_flat d keys values c :
  ∃ flat nested,
    total_ticket_received_count d keys values c = Ok flat ∧
    total_ticket_received_count_modewise d keys values c = Ok nested ∧
    ∀ k v df, k ∈ keys → v ∈ values → dict_get k d = Some df →
      c ∈ columns df → flat_key_unshared keys values k v →
      is_Some (nested_get v k nested) ∧
      nested_get v k nested = dict_get (flat_key k v) flat.
Proof.
  destruct (total_ticket_received_count_modewise_spec d keys values c)
    as (nested & Hn & _).
  eexists _, nested. split; [apply total_ticket_received_count_writes|].
  split; [done|]. intros k v df Hk Hv Hd Hc Hun.
  rewrite (nested_entry_value _ _ _ _ _ _ _ _ Hn Hk Hv Hd Hc).
  split; [eauto|]. symmetry. eapply flat_entry_value; eauto.
  apply total_ticket_received_count_writes.
Qed.

Lemma modewise_transposes_flat_witness :
  ∃ flat nested,
    total_ticket_received_count scenario_partitions ["A"; "B"]
      ["Email"; "Phone"] "Mode" = Ok flat ∧
    total_ticket_received_count_modewise scenario_partitions ["A"; "B"]
      ["Email"; "Phone"] "Mode" = Ok nested ∧
    nested_get "Email" "A" nested = dict_get (flat_key "A" "Email") flat.
Proof.
  destruct (modewise_transposes_flat scenario_partitions ["A"; "B"]
              ["Email"; "Phone"] "Mode")
    as (flat & nested & Hf & Hn & Hall).
  exists flat, nested. split; [done|]. split; [done|].
  eapply Hall; [solve_elem | solve_elem | reflexivity | solve_elem |].
  apply scenario_unshared; solve_elem.
Defined.

(** C3, as the specification words it, fails on the same partitions: the
    nested entry [[B_C][A]] is 0 and the flat entry [A_B_C] is 1. *)
Lemma transpose_shared_key :
  ¬ transpose_claim shared_key_partitions ["A"; "A_B"] ["B_C"; "C"] "Mode".
Proof.
  intros (flat & nested & Hf & Hn & Hall).
  vm_compute in Hf. injection Hf as <-.
  vm_compute in Hn. injection Hn as <-.
  destruct (Hall "A" "B_C" (mkDF ["Mode"] [])) as [_ Heq];
    [solve_elem | solve_elem | reflexivity | solve_elem |].
  vm_compute in Heq. discriminate Heq.
Qed.

(** C8.  The scenario of the specification: one bot with a closed and an
    open e-mail ticket has exactly one closed e-mail ticket counted. *)
Theorem closed_email_scenario :
  count_tickets_for_unique_modes
    [("A", mkDF ticket_columns
             [ticket "A" "Email" "Closed"; ticket "A" "Email" "Open"])]
    ["A"] ["Email"] "Status" "Closed"
  = Ok [("total_Closed_ticket_A_Email", 1)].
Proof. vm_compute. reflexivity. Qed.

(** ** Status-filtered counts *)

Lemma status_ready_columns sc modes df :
  sc ∈ columns df → "Mode" ∈ columns df → status_ready sc modes df = true.
Proof.
  intros H1 H2. unfold status_ready.
  by rewrite (proj2 (has_column_true _ _) H1), (proj2 (has_column_true _ _) H2).
Qed.

Lemma status_ready_inv sc modes df :
  status_ready sc modes df = true →
  sc ∈ columns df ∧ ("Mode" ∈ columns df ∨ modes = []).
Proof.
  unfold status_ready. intros H. apply andb_true_iff in H as [H1 H2].
  split; [by apply has_column_true|].
  apply orb_true_iff in H2 as [H2|H2].
  - left. by apply has_column_true.
  - right. by apply bool_decide_eq_true in H2.
Qed.

Lemma fold_left_add {A} (f : A → nat) (l : list A) (a : nat) :
  fold_left (fun acc x => acc + f x) l a = a + list_sum (map f l).
Proof.
  revert a. induction l as [|x l IH]; intros a; simpl; [lia|].
  rewrite IH. lia.
Qed.

(** The inner loop of [count_tickets_for_unique_modes] for one key. *)
Lemma mode_loop_entries sc sv key modes df (acc : dict nat) :
  "Mode" ∈ columns df ∨ modes = [] →
  for_each modes (fun all_counts value =>
      col ← getitem (with_status sc sv df) "Mode";
      let count := count_eq value col in
      Ok (dict_set (status_key sv key value)
                   (if 0 <? count then count else 0) all_counts)) acc
  = Ok (dict_write acc
          (map (fun m => (status_key sv key m, status_count sc sv m df)) modes)).
Proof.
  intros [HM| ->]; [|done].
  rewrite (for_each_fold _ _
    (fun acc m => dict_set (status_key sv key m) (status_count sc sv m df) acc)).
  - f_equal.
    apply (dict_write_map acc
             (fun m => (status_key sv key m, status_count sc sv m df))).
  - intros s m _. rewrite getitem_ok by done. simpl.
    by rewrite count_or_zero, count_eq_series.
Qed.

(** The sum of [count_bot_wise_status_tickets] for one key. *)
Lemma mode_loop_total sc sv modes df :
  "Mode" ∈ columns df ∨ modes = [] →
  for_each modes (fun acc mode =>
      col ← getitem (with_status sc sv df) "Mode";
      Ok (acc + count_eq mode col)) 0
  = Ok (list_sum (map (fun m => status_count sc sv m df) modes)).
Proof.
  intros [HM| ->]; [|done].
  rewrite (for_each_fold _ _ (fun acc m => acc + status_count sc sv m df)).
  - by rewrite fold_left_add.
  - intros s m _. rewrite getitem_ok by done. simpl.
    by rewrite count_eq_series.
Qed.

Lemma count_tickets_for_unique_modes_writes d keys modes sc sv :
  keys_ready d keys sc modes →
  count_tickets_for_unique_modes d keys modes sc sv
  = Ok (dict_write [] (flat_map (mode_writes_of d modes sc sv) keys)).
Proof.
  intros Hready. unfold count_tickets_for_unique_modes.
  apply for_each_writes. intros acc key Hkey. unfold mode_writes_of.
  destruct (dict_get key d) as [df|] eqn:Hd; [|done].
  destruct (status_ready_inv _ _ _ (Hready key df Hkey Hd)) as [Hsc HM].
  rewrite getitem_ok by done. simpl. by apply mode_loop_entries.
Qed.

Lemma count_bot_wise_status_tickets_writes d keys modes sc sv :
  keys_ready d keys sc modes →
  count_bot_wise_status_tickets d keys modes sc sv
  = Ok (dict_write [] (flat_map (total_writes_of d modes sc sv) keys)).
Proof.
  intros Hready. unfold count_bot_wise_status_tickets.
  apply for_each_writes. intros acc key Hkey. unfold total_writes_of.
  destruct (dict_get key d) as [df|] eqn:Hd; [|done].
  destruct (status_ready_inv _ _ _ (Hready key df Hkey Hd)) as [Hsc HM].
  rewrite getitem_ok by done. simpl.
  change (select df (map (eq_text sv) (series sc df)))
    with (with_status sc sv df).
  by rewrite mode_loop_total.
Qed.

(** What a loop that ran to its end tells about each element. *)
Lemma for_each_ok_elem {A S} (P : A → Prop) (l : list A)
    (body : S → A → result S) (s s' : S) :
  (∀ s x s1, body s x = Ok s1 → P x) →
  for_each l body s = Ok s' → ∀ x, x ∈ l → P x.
Proof.
  intros HP. revert s. induction l as [|y l IH]; intros s Hrun x Hx.
  - by apply elem_of_nil in Hx.
  - simpl in Hrun. destruct (body s y) as [s1|e] eqn:Hb; [|done].
    apply elem_of_cons in Hx as [->|Hx]; [by eapply HP | by eapply IH].
Qed.

Lemma loop_needs_column {S} (df : DataFrame) (c : string) (l : list string)
    (k : S → string → list cell → result S) (acc r : S) :
  for_each l (fun s m => col ← getitem df c; k s m col) acc = Ok r →
  c ∈ columns df ∨ l = [].
Proof.
  destruct l as [|m l]; [by right|]. intros H. left.
  destruct (decide (c ∈ columns df)) as [|Hn]; [done|].
  simpl in H. by rewrite getitem_missing in H.
Qed.

Lemma count_tickets_for_unique_modes_ready d keys modes sc sv entries :
  count_tickets_for_unique_modes d keys modes sc sv = Ok entries →
  keys_ready d keys sc modes.
Proof.
  intros Hrun k df Hk Hd. revert df Hd.
  eapply (for_each_ok_elem
    (fun k => ∀ df, dict_get k d = Some df → status_ready sc modes df = true));
    [|exact Hrun|exact Hk].
  clear. intros s k s1 Hb df Hd. cbv beta in Hb. rewrite Hd in Hb.
  destruct (decide (sc ∈ columns df)) as [Hsc|Hn];
    [|by rewrite getitem_missing in Hb].
  rewrite getitem_ok in Hb by done. simpl in Hb.
  apply loop_needs_column in Hb. unfold status_ready.
  rewrite (proj2 (has_column_true _ _) Hsc). simpl.
  destruct Hb as [HM| ->]; [|by rewrite orb_true_r].
  by rewrite (proj2 (has_column_true df "Mode") HM).
Qed.

Lemma count_bot_wise_status_tickets_ready d keys modes sc sv totals :
  count_bot_wise_status_tickets d keys modes sc sv = Ok totals →
  keys_ready d keys sc modes.
Proof.
  intros Hrun k df Hk Hd. revert df Hd.
  eapply (for_each_ok_elem
    (fun k => ∀ df, dict_get k d = Some df → status_ready sc modes df = true));
    [|exact Hrun|exact Hk].
  clear. intros s k s1 Hb df Hd. cbv beta in Hb. rewrite Hd in Hb.
  destruct (decide (sc ∈ columns df)) as [Hsc|Hn];
    [|by rewrite getitem_missing in Hb].
  rewrite getitem_ok in Hb by done. simpl in Hb.
  destruct (for_each modes _ 0) as [t|e] eqn:Hloop; [|done].
  apply loop_needs_column in Hloop. unfold status_ready.
  rewrite (proj2 (has_column_true _ _) Hsc). simpl.
  destruct Hloop as [HM| ->]; [|by rewrite orb_true_r].
  by rewrite (proj2 (has_column_true df "Mode") HM).
Qed.

Lemma status_key_inj sv k k' m m' :
  status_key sv k m = status_key sv k' m' → flat_key k m = flat_key k' m'.
Proof.
  unfold status_key, flat_key. intros H.
  apply (String.app_inj "total_") in H. apply String.app_inj in H.
  by apply (String.app_inj "_ticket_") in H.
Qed.

Lemma mode_writes_elem d keys modes sc sv ck n :
  (ck, n) ∈ flat_map (mode_writes_of d modes sc sv) keys ↔
  ∃ k m df, k ∈ keys ∧ m ∈ modes ∧ dict_get k d = Some df ∧
            ck = status_key sv k m ∧ n = status_count sc sv m df.
Proof.
  rewrite list_elem_of_In, in_flat_map. split.
  - intros (k & Hk & Hin). unfold mode_writes_of in Hin.
    destruct (dict_get k d) as [df|] eqn:Hd; [|done].
    apply in_map_iff in Hin as (m & Heq & Hm). inversion Heq; subst.
    exists k, m, df. by rewrite <- !list_elem_of_In in *.
  - intros (k & m & df & Hk & Hm & Hd & -> & ->).
    exists k. rewrite <- list_elem_of_In. split; [done|].
    unfold mode_writes_of. rewrite Hd.
    apply in_map_iff. exists m. by rewrite <- list_elem_of_In.
Qed.

Lemma total_writes_elem d keys modes sc sv ck n :
  (ck, n) ∈ flat_map (total_writes_of d modes sc sv) keys ↔
  ∃ df, ck ∈ keys ∧ dict_get ck d = Some df ∧
        n = list_sum (map (fun m => status_count sc sv m df) modes).
Proof.
  rewrite list_elem_of_In, in_flat_map. split.
  - intros (k & Hk & Hin). unfold total_writes_of in Hin.
    destruct (dict_get k d) as [df|] eqn:Hd; [|done].
    destruct Hin as [Heq|[]]. inversion Heq; subst.
    exists df. by rewrite <- !list_elem_of_In in *.
  - intros (df & Hk & Hd & ->).
    exists ck. rewrite <- list_elem_of_In. split; [done|].
    unfold total_writes_of. rewrite Hd. by left.
Qed.

Lemma total_entry_value d keys modes sc sv totals k df :
  count_bot_wise_status_tickets d keys modes sc sv = Ok totals →
  k ∈ keys → dict_get k d = Some df →
  dict_get k totals
  = Some (list_sum (map (fun m => status_count sc sv m df) modes)).
Proof.
  intros Hrun Hk Hd.
  pose proof (count_bot_wise_status_tickets_ready _ _ _ _ _ _ Hrun) as Hr.
  rewrite count_bot_wise_status_tickets_writes in Hrun by done.
  injection Hrun as <-. apply dict_write_agree.
  - intros n Hn. apply total_writes_elem in Hn as (df' & _ & Hd' & ->).
    by assert (df' = df) as -> by congruence.
  - apply total_writes_elem. by exists df.
Qed.

Lemma mode_entry_value d keys modes sc sv entries k m df :
  count_tickets_for_unique_modes d keys modes sc sv = Ok entries →
  k ∈ keys → m ∈ modes → dict_get k d = Some df →
  status_key_unshared keys modes sv k →
  dict_get (status_key sv k m) entries = Some (status_count sc sv m df).
Proof.
  intros Hrun Hk Hm Hd Hun.
  pose proof (count_tickets_for_unique_modes_ready _ _ _ _ _ _ Hrun) as Hr.
  rewrite count_tickets_for_unique_modes_writes in Hrun by done.
  injection Hrun as <-. apply dict_write_agree.
  - intros n Hn. apply mode_writes_elem in Hn
      as (k' & m' & df' & Hk' & Hm' & Hd' & Heq & ->).
    symmetry in Heq. assert (k' = k) as -> by (by eapply (Hun k' m' m)).
    apply status_key_inj, flat_key_inj in Heq as ->.
    by assert (df' = df) as -> by congruence.
  - apply mode_writes_elem. by exists k, m, df.
Qed.

(** C4, as amended.  Both status counts are returned when every listed key
    of the partition map has the status column and [Mode] in its frame.
    Whenever both are returned, the per-bot total of a listed key of the map
    is the sum, over the mode list, of its per-mode entries, provided no
    other listed key and mode are formatted to one of its composite keys. *)
Theorem status_totals_sum_entries d keys modes sc sv :
  ((∀ k df, k ∈ keys → dict_get k d = Some df →
      sc ∈ columns df ∧ "Mode" ∈ columns df) →
   ∃ totals entries,
     count_bot_wise_status_tickets d keys modes sc sv = Ok totals ∧
     count_tickets_for_unique_modes d keys modes sc sv = Ok entries) ∧
  (∀ totals entries,
     count_bot_wise_status_tickets d keys modes sc sv = Ok totals →
     count_tickets_for_unique_modes d keys modes sc sv = Ok entries →
     ∀ k, k ∈ keys → is_Some (dict_get k d) →
       status_key_unshared keys modes sv k →
       (∀ m, m ∈ modes → is_Some (dict_get (status_key sv k m) entries)) ∧
       dict_get k totals = Some (sum_of_entries entries sv k modes)).
Proof.
  split.
  - intros Hcols.
    assert (keys_ready d keys sc modes) as Hr.
    { intros k df Hk Hd. destruct (Hcols k df Hk Hd).
      by apply status_ready_columns. }
    eexists _, _. split.
    + by apply count_bot_wise_status_tickets_writes.
    + by apply count_tickets_for_unique_modes_writes.
  - intros totals entries Ht He k Hk [df Hd] Hun.
    assert (∀ m, m ∈ modes →
              dict_get (status_key sv k m) entries
              = Some (status_count sc sv m df)) as Hentry.
    { intros m Hm. by eapply mode_entry_value. }
    split.
    + intros m Hm. rewrite Hentry by done. eauto.
    + rewrite (total_entry_value _ _ _ _ _ _ _ _ Ht Hk Hd).
      unfold sum_of_entries. do 2 f_equal. apply map_ext_in.
      intros m Hm. apply list_elem_of_In in Hm. by rewrite Hentry.
Qed.

Lemma status_totals_sum_entries_witness :
  ∃ totals entries,
    count_bot_wise_status_tickets scenario_partitions ["A"; "B"]
      ["Email"; "Phone"] "Status" "Closed" = Ok totals ∧
    count_tickets_for_unique_modes scenario_partitions ["A"; "B"]
      ["Email"; "Phone"] "Status" "Closed" = Ok entries ∧
    dict_get "A" totals
    = Some (sum_of_entries entries "Closed" "A" ["Email"; "Phone"]).
Proof.
  destruct (status_totals_sum_entries scenario_partitions ["A"; "B"]
              ["Email"; "Phone"] "Status" "Closed") as [Hret Hsum].
  destruct Hret as (totals & entries & Ht & He).
  { intros k df Hk Hd. elem_cases Hk; injection Hd as <-; split; solve_elem. }
  exists totals, entries. split; [done|]. split; [done|].
  apply (Hsum totals entries Ht He "A"); [solve_elem | by eexists |].
  intros k' m' m Hk' Hm' Hm Heq.
  elem_cases Hk'; elem_cases Hm'; elem_cases Hm;
    first [ done | by vm_compute in Heq ].
Defined.

(** C4, as the specification words it, fails when two listed keys share a
    composite key: the total of [A] is 1, but its entry
    [total_Closed_ticket_A_B_C] was overwritten with the 0 of
    [("A_B", "C")], so its entries sum to 0. *)
Lemma status_sum_shared_key :
  ¬ status_sum_claim shared_status_partitions ["A"; "A_B"] ["B_C"; "C"]
      "Status" "Closed".
Proof.
  intros H.
  assert (NoDup ["B_C"; "C"]) as Hnd.
  { apply NoDup_cons. split; [|apply NoDup_singleton].
    intros Hin. by apply list_elem_of_singleton in Hin. }
  destruct (count_bot_wise_status_tickets shared_status_partitions
              ["A"; "A_B"] ["B_C"; "C"] "Status" "Closed")
    as [totals|] eqn:Ht; [|by vm_compute in Ht].
  destruct (count_tickets_for_unique_modes shared_status_partitions
              ["A"; "A_B"] ["B_C"; "C"] "Status" "Closed")
    as [entries|] eqn:He; [|by vm_compute in He].
  specialize (H Hnd totals entries Ht He "A").
  vm_compute in Ht. injection Ht as <-.
  vm_compute in He. injection He as <-.
  assert (Some 1 = Some 0) as Habs; [|discriminate Habs].
  apply H; [solve_elem | by eexists].
Qed.

(** ** Bot partitioner *)

Lemma split_dataframe_by_bot_name_writes df bots c :
  c ∈ columns df →
  split_dataframe_by_bot_name df bots c
  = SplitDict (dict_write [] (map (fun bot => (bot, bot_rows df c bot)) bots)).
Proof.
  intros Hc. unfold split_dataframe_by_bot_name, split_body.
  rewrite (proj2 (has_column_true df c) Hc). simpl.
  rewrite (for_each_fold _ _ (fun acc bot => dict_set bot (bot_rows df c bot) acc)).
  - f_equal. apply (dict_write_map [] (fun bot => (bot, bot_rows df c bot))).
  - intros s bot _. by rewrite getitem_ok by done.
Qed.

Lemma bot_rows_elem df c bot r :
  r ∈ rows (bot_rows df c bot) ↔ r ∈ rows df ∧ cell_at c r = VStr bot.
Proof.
  unfold bot_rows. rewrite select_rows, list_elem_of_In, filter_In.
  by rewrite eq_text_true, list_elem_of_In.
Qed.

(** C6.  On a frame that has the bot column and for pairwise distinct keys,
    the partitioner returns a dict with one entry per key, in the order of
    the keys; the entry of a key holds, in order, the rows whose bot column
    is that key.  So a row whose bot is a listed key is in the entry of that
    key and in no other, and a row whose bot is not listed is in none. *)
Theorem split_partitions_rows df K c :
  NoDup K → c ∈ columns df →
  ∃ m, split_dataframe_by_bot_name df K c = SplitDict m ∧
    length m = length K ∧ dict_keys m = K ∧
    (∀ k, k ∈ K → ∃ part, dict_get k m = Some part ∧
       columns part = columns df ∧
       rows part = List.filter (fun r => eq_text k (cell_at c r)) (rows df)) ∧
    (∀ r k, r ∈ rows df → k ∈ K → cell_at c r = VStr k →
       ∃ part, dict_get k m = Some part ∧ r ∈ rows part ∧
         ∀ k' part', dict_get k' m = Some part' → r ∈ rows part' → k' = k) ∧
    (∀ r, r ∈ rows df → (∀ k, k ∈ K → cell_at c r ≠ VStr k) →
       ∀ k' part', dict_get k' m = Some part' → r ∉ rows part').
Proof.
  intros Hnd Hc. rewrite split_dataframe_by_bot_name_writes by done.
  set (ws := map (fun bot => (bot, bot_rows df c bot)) K).
  assert (map fst ws = K) as Hfst.
  { unfold ws. rewrite map_map. simpl. apply map_id. }
  assert (dict_keys (dict_write [] ws) = K) as Hkeys.
  { rewrite dict_write_keys; [done | by rewrite Hfst | done]. }
  assert (∀ k, k ∈ K → dict_get k (dict_write [] ws) = Some (bot_rows df c k))
    as Hget.
  { intros k Hk. apply dict_write_agree.
    - intros v Hv. apply list_elem_of_In, in_map_iff in Hv.
      destruct Hv as (? & Heq & _). by inversion Heq.
    - apply list_elem_of_In, in_map_iff. exists k.
      by rewrite <- list_elem_of_In. }
  assert (∀ k part, dict_get k (dict_write [] ws) = Some part →
            k ∈ K ∧ part = bot_rows df c k) as Hinv.
  { intros k part Hk.
    assert (k ∈ K) as HkK by (rewrite <- Hkeys; apply dict_get_keys; eauto).
    split; [done|]. rewrite Hget in Hk by done. congruence. }
  eexists. split; [reflexivity|].
  split.
  { transitivity (length (dict_keys (dict_write [] ws))).
    - unfold dict_keys. by rewrite length_map.
    - by rewrite Hkeys. }
  split; [done|]. split; [|split].
  - intros k Hk. exists (bot_rows df c k). split; [by apply Hget|].
    split; [done|]. apply select_rows.
  - intros r k Hr Hk Hcell. exists (bot_rows df c k).
    split; [by apply Hget|]. split; [by apply bot_rows_elem|].
    intros k' part' Hk' Hin. apply Hinv in Hk' as [_ ->].
    apply bot_rows_elem in Hin as [_ Hcell']. congruence.
  - intros r Hr Hnone k' part' Hk' Hin. apply Hinv in Hk' as [HkK ->].
    apply bot_rows_elem in Hin as [_ Hcell']. by apply (Hnone k').
Qed.

Lemma split_partitions_rows_witness :
  ∃ m, split_dataframe_by_bot_name mixed_frame ["A"; "B"] "Bot Name"
       = SplitDict m ∧
    length m = 2 ∧ dict_keys m = ["A"; "B"] ∧
    (∃ part, dict_get "A" m = Some part ∧
       rows part = [ticket "A" "Email" "Closed"; ticket "A" "Web" "Open"]) ∧
    (∃ part, dict_get "B" m = Some part ∧ rows part = []).
Proof.
  destruct (split_partitions_rows mixed_frame ["A"; "B"] "Bot Name")
    as (m & Hm & Hlen & Hkeys & Hparts & _).
  { apply NoDup_cons. split; [|apply NoDup_singleton].
    intros Hin. by apply list_elem_of_singleton in Hin. }
  { solve_elem. }
  exists m. split; [done|]. split; [done|]. split; [done|]. split.
  - destruct (Hparts "A") as (part & Hp & _ & Hrows); [solve_elem|].
    exists part. split; [done|]. rewrite Hrows. reflexivity.
  - destruct (Hparts "B") as (part & Hp & _ & Hrows); [solve_elem|].
    exists part. split; [done|]. rewrite Hrows. reflexivity.
Defined.

(** C7.  On a frame without the bot column the partitioner returns the pair
    of an empty dict and an empty list, which is no dict. *)
Theorem split_missing_column_tuple df K c :
  c ∉ columns df →
  split_dataframe_by_bot_name df K c = SplitTuple [] [] ∧
  split_dataframe_by_bot_name df K c ≠ SplitDict [] ∧
  split_keys (split_dataframe_by_bot_name df K c)
  = Raise (AttributeError "keys").
Proof.
  intros Hc. unfold split_dataframe_by_bot_name, split_body, has_column.
  rewrite bool_decide_eq_false_2 by done. simpl. by split.
Qed.

Lemma split_missing_column_tuple_witness :
  split_dataframe_by_bot_name (mkDF ["Mode"; "Status"] []) ["A"] "Bot Name"
  = SplitTuple [] [].
Proof.
  apply (split_missing_column_tuple (mkDF ["Mode"; "Status"] []) ["A"]
           "Bot Name").
  intros Hin. not_elem Hin.
Defined.

(** ** Missing columns *)

(** C5.  A listed key of the partition map whose frame lacks the column
    makes three operations raise instead of skipping the key: the
    problem-text count raises NameError from its warning message, and the
    two status counts raise KeyError on the status column. *)
Theorem missing_column_raises str_lower str_strip d key keys values c sv df :
  dict_get key d = Some df → c ∉ columns df →
  problem_reported_count_botwise str_lower str_strip d (key :: keys) values c
  = (d, Raise (NameError "key")) ∧
  count_tickets_for_unique_modes d (key :: keys) values c sv
  = Raise (KeyError c) ∧
  count_bot_wise_status_tickets d (key :: keys) values c sv
  = Raise (KeyError c).
Proof.
  intros Hd Hc.
  unfold problem_reported_count_botwise, count_tickets_for_unique_modes,
    count_bot_wise_status_tickets.
  simpl. rewrite Hd. unfold has_column.
  rewrite bool_decide_eq_false_2 by done. simpl.
  by rewrite getitem_missing by done.
Qed.

Lemma missing_column_raises_witness :
  problem_reported_count_botwise ascii_lower ascii_strip scenario_partitions
    ["A"] ["printer"]
    "Problem Reported"
  = (scenario_partitions, Raise (NameError "key")) ∧
  count_tickets_for_unique_modes scenario_partitions ["A"] ["printer"]
    "Problem Reported" "Closed"
  = Raise (KeyError "Problem Reported") ∧
  count_bot_wise_status_tickets scenario_partitions ["A"] ["printer"]
    "Problem Reported" "Closed"
  = Raise (KeyError "Problem Reported").
Proof.
  apply (missing_column_raises ascii_lower ascii_strip
           scenario_partitions "A" [] ["printer"]
           "Problem Reported" "Closed"
           (mkDF ticket_columns
              [ticket "A" "Email" "Closed"; ticket "A" "Email" "Open"])).
  - reflexivity.
  - intros Hin. not_elem Hin.
Defined.

(** The two operations that check the column never raise. *)
Lemma flat_and_nested_never_raise d keys values c :
  is_ok (total_ticket_received_count d keys values c) = true ∧
  is_ok (total_ticket_received_count_modewise d keys values c) = true.
Proof.
  rewrite total_ticket_received_count_writes.
  destruct (total_ticket_received_count_modewise_spec d keys values c)
    as (nested & -> & _).
  done.
Qed.

(** A key that is not in the partition map is skipped by every counting
    operation. *)
Lemma missing_key_skipped str_lower str_strip d key keys values c sv :
  dict_get key d = None →
  total_ticket_received_count d (key :: keys) values c
  = total_ticket_received_count d keys values c ∧
  total_ticket_received_count_modewise d (key :: keys) values c
  = total_ticket_received_count_modewise d keys values c ∧
  count_tickets_for_unique_modes d (key :: keys) values c sv
  = count_tickets_for_unique_modes d keys values c sv ∧
  count_bot_wise_status_tickets d (key :: keys) values c sv
  = count_bot_wise_status_tickets d keys values c sv ∧
  problem_reported_count_botwise str_lower str_strip d (key :: keys) values c
  = problem_reported_count_botwise str_lower str_strip d keys values c.
Proof.
  intros Hd.
  unfold total_ticket_received_count, total_ticket_received_count_modewise,
    count_tickets_for_unique_modes, count_bot_wise_status_tickets,
    problem_reported_count_botwise.
  simpl. by rewrite Hd.
Qed.

(** ** Time window *)

Lemma combine_map_self {A B C} (g : A → B) (h : A * B → C) (l : list A) :
  map h (combine l (map g l)) = map (fun x => h (x, g x)) l.
Proof. induction l as [|x l IH]; simpl; [done | by rewrite IH]. Qed.

(** [df[c] = f(df[c])] on an existing column rewrites that cell of each row. *)
Lemma set_column_map df c (f : cell → cell) :
  c ∈ columns df →
  set_column df c (map f (series c df))
  = mkDF (columns df) (map (fun r => <[c := f (cell_at c r)]> r) (rows df)).
Proof.
  intros Hc. unfold set_column, series.
  rewrite (proj2 (has_column_true df c) Hc). f_equal.
  rewrite map_map.
  apply (combine_map_self (fun r => f (cell_at c r))
           (fun rv : Row * cell => <[c := snd rv]> (fst rv))).
Qed.

Lemma cell_at_insert c x (r : Row) : cell_at c (<[c := x]> r) = x.
Proof. unfold cell_at. by rewrite lookup_insert_eq. Qed.

Lemma three_way_partition {A} (p q u : A → bool) (l : list A) :
  (∀ x, x ∈ l → one_of_three (p x) (q x) (u x)) →
  Permutation l (List.filter p l ++ List.filter q l ++ List.filter u l).
Proof.
  induction l as [|x l IH]; intros H; simpl; [done|].
  assert (IH' := IH (fun y Hy => H y (list_elem_of_further _ _ _ Hy))).
  destruct (H x) as [(-> & -> & ->)|[(-> & -> & ->)|(-> & -> & ->)]];
    [left| | |]; simpl.
  - by apply perm_skip.
  - by apply Permutation_cons_app.
  - rewrite app_assoc. apply Permutation_cons_app. by rewrite <- app_assoc.
Qed.

Section TimeWindowFacts.

Variable parse_date : string → option Z.
Variable today : Z.

Local Abbreviation coerce := (to_datetime_coerce parse_date).

Lemma coerce_idem x : coerce (coerce x) = coerce x.
Proof.
  destruct x as [s|t|]; simpl; [|done..]. by destruct (parse_date s).
Qed.

Lemma coerce_null x : is_null (coerce x) = true ↔
  match x with
  | VStr s => parse_date s = None
  | VDate _ => False
  | VNull => True
  end.
Proof.
  destruct x as [s|t|]; simpl; [|done..].
  destruct (parse_date s); simpl; split; done.
Qed.

Lemma coerce_classes cutoff x :
  one_of_three (date_ge cutoff (coerce x)) (date_lt cutoff (coerce x))
               (is_null (coerce x)).
Proof.
  assert (∀ t, one_of_three (cutoff <=? t)%Z (t <? cutoff)%Z false) as Ht.
  { intros t. unfold one_of_three.
    destruct (Z.leb_spec cutoff t), (Z.ltb_spec t cutoff); try lia; auto. }
  destruct x as [s|t|]; simpl.
  - destruct (parse_date s); simpl; [apply Ht|]. right. right. done.
  - apply Ht.
  - right. right. done.
Qed.

Lemma coerce_row_idem c r : coerce_row parse_date c (coerce_row parse_date c r) = coerce_row parse_date c r.
Proof.
  unfold coerce_row. rewrite cell_at_insert, coerce_idem.
  apply insert_insert_eq.
Qed.

Lemma coerce_frame_idem c df :
  coerce_frame parse_date c (coerce_frame parse_date c df) = coerce_frame parse_date c df.
Proof.
  unfold coerce_frame. simpl. f_equal. rewrite map_map.
  apply map_ext. intros r. apply coerce_row_idem.
Qed.

Lemma series_coerce_frame c df :
  series c (coerce_frame parse_date c df) = map coerce (series c df).
Proof.
  unfold series, coerce_frame. simpl. rewrite !map_map.
  apply map_ext. intros r. apply cell_at_insert.
Qed.

Lemma is_null_coerce c r :
  is_null (coerce (cell_at c r)) = unparseable parse_date c r.
Proof.
  unfold unparseable. destruct (cell_at c r) as [s|t|]; simpl; [|done..].
  by destruct (parse_date s).
Qed.

Lemma failed_rows c (l : list Row) :
  List.filter (fun r => is_null (cell_at c r)) (map (coerce_row parse_date c) l)
  = map (coerce_row parse_date c) (List.filter (unparseable parse_date c) l).
Proof.
  induction l as [|r l IH]; simpl; [done|].
  unfold coerce_row at 1. rewrite cell_at_insert, is_null_coerce.
  destruct (unparseable parse_date c r); simpl; by rewrite IH.
Qed.

Lemma timestamp_sub_in_range t :
  cutoff_in_range t → timestamp_sub t eight_days = Ok (Some (t - eight_days)%Z).
Proof.
  unfold cutoff_in_range, timestamp_sub. intros [Hlo Hhi]. cbv zeta.
  assert (0 < eight_days)%Z as Hpos by done.
  rewrite (proj2 (Z.eqb_neq t int64_min)) by lia.
  rewrite (proj2 (Z.ltb_ge t int64_min)) by lia.
  rewrite (proj2 (Z.ltb_ge int64_max t)) by lia.
  rewrite (proj2 (Z.ltb_ge (t - eight_days) int64_min)) by lia.
  rewrite (proj2 (Z.ltb_ge int64_max (t - eight_days))) by lia.
  rewrite (proj2 (Z.eqb_neq (t - eight_days) int64_min)) by lia. done.
Qed.

(** The [try] block of a filter on a frame that has the column: the
    column is parsed in place whatever the reference date. *)
Lemma filter_body_column keep df c cur :
  c ∈ columns df →
  filter_body parse_date today keep df c cur
  = (coerce_frame parse_date c df,
     window keep (timestamp_sub (default today cur) eight_days) c
       (coerce_frame parse_date c df)).
Proof.
  intros Hc. unfold filter_body, window. rewrite getitem_ok by done.
  rewrite set_column_map by done. fold (coerce_row parse_date c).
  change (mkDF (columns df) (map (coerce_row parse_date c) (rows df)))
    with (coerce_frame parse_date c df).
  destruct (timestamp_sub (default today cur) eight_days) as [cutoff|e];
    [|done].
  rewrite getitem_ok by done. by rewrite select_series.
Qed.

Lemma filter_body_present keep df c cur :
  c ∈ columns df → cutoff_in_range (default today cur) →
  filter_body parse_date today keep df c cur
  = (coerce_frame parse_date c df,
     Ok (mkDF (columns df)
           (List.filter
              (fun r => keep (default today cur - eight_days)%Z (cell_at c r))
              (rows (coerce_frame parse_date c df))))).
Proof.
  intros Hc Hcut. rewrite filter_body_column by done.
  by rewrite timestamp_sub_in_range.
Qed.

Lemma filter_body_missing keep df c cur :
  c ∉ columns df →
  filter_body parse_date today keep df c cur = (df, Raise (KeyError c)).
Proof.
  intros Hc. unfold filter_body. by rewrite getitem_missing by done.
Qed.

(** C2, as amended.  On a frame with the date column and for a reference
    date whose eighth day before is a timestamp, [filter_last_8_days]
    returns the rows whose parsed date is at least the reference date minus
    8 days, [filter_before_last_8_days] those whose parsed date is earlier,
    both in the order of the frame; with the rows whose date failed to
    parse they make up the rows of the frame, each row in exactly one of
    the three classes.  The rows are those of the caller's frame after the
    call, which are the original rows with the date cell parsed. *)
Theorem time_window_partition df c cur :
  c ∈ columns df → cutoff_in_range (default today cur) →
  let cutoff := (default today cur - eight_days)%Z in
  let recent := fun r => date_ge cutoff (cell_at c r) in
  let archive := fun r => date_lt cutoff (cell_at c r) in
  let failed := fun r => is_null (cell_at c r) in
  ∃ post out_recent out_archive,
    filter_last_8_days parse_date today df c cur = (post, out_recent) ∧
    filter_before_last_8_days parse_date today df c cur = (post, out_archive) ∧
    rows post = map (coerce_row parse_date c) (rows df) ∧
    rows out_recent = List.filter recent (rows post) ∧
    rows out_archive = List.filter archive (rows post) ∧
    List.filter failed (rows post)
    = map (coerce_row parse_date c) (List.filter (unparseable parse_date c) (rows df)) ∧
    (∀ r, r ∈ rows post → one_of_three (recent r) (archive r) (failed r)) ∧
    Permutation (rows post)
      (rows out_recent ++ rows out_archive ++ List.filter failed (rows post)).
Proof.
  intros Hc Hcut cutoff recent archive failed.
  unfold filter_last_8_days, filter_before_last_8_days.
  rewrite !filter_body_present by done. simpl.
  eexists _, _, _. split; [reflexivity|]. split; [reflexivity|]. simpl.
  assert (∀ r, r ∈ map (coerce_row parse_date c) (rows df) →
            one_of_three (recent r) (archive r) (failed r)) as Hone.
  { intros r Hr. apply list_elem_of_In, in_map_iff in Hr as (r0 & <- & _).
    unfold recent, archive, failed, coerce_row. rewrite cell_at_insert.
    apply coerce_classes. }
  split; [done|]. split; [done|]. split; [done|]. split; [|split; [done|]].
  - apply failed_rows.
  - by apply three_way_partition.
Qed.

End TimeWindowFacts.

Lemma time_window_partition_witness :
  ∃ post out_recent out_archive,
    filter_last_8_days iso_dates 0 dated_frame "Ticket Creation Date"
      (Some (day 19889)) = (post, out_recent) ∧
    filter_before_last_8_days iso_dates 0 dated_frame "Ticket Creation Date"
      (Some (day 19889)) = (post, out_archive) ∧
    rows out_recent
    = [coerce_row iso_dates "Ticket Creation Date" (dated "A" "2024-06-14")] ∧
    rows out_archive
    = [coerce_row iso_dates "Ticket Creation Date" (dated "A" "2024-06-01")] ∧
    Permutation (rows post)
      (rows out_recent ++ rows out_archive ++
       [coerce_row iso_dates "Ticket Creation Date" (dated "B" "soon")]).
Proof.
  destruct (time_window_partition iso_dates 0 dated_frame
              "Ticket Creation Date" (Some (day 19889)))
    as (post & out_recent & out_archive & Hl & Hb & Hpost & Hr & Ha & Hf
        & _ & Hperm); [solve_elem | in_range |].
  exists post, out_recent, out_archive.
  split; [done|]. split; [done|].
  rewrite Hf in Hperm. rewrite Hpost in Hr, Ha.
  split; [exact Hr|]. split; [exact Ha|]. exact Hperm.
Defined.

(** C2, as the specification words it, fails for a reference date within
    eight days of the first timestamp: with [pd.Timestamp.min] the
    subtraction raises, the handler returns the frame without rows, and the
    ticket of 2024-06-14, later than any cutoff, is not among the recent
    rows. *)
Lemma time_window_out_of_bounds :
  ¬ time_window_claim iso_dates 0 dated_frame "Ticket Creation Date"
      (Some (int64_min + 1)%Z).
Proof.
  intros H. destruct H as (post & out_recent & out_archive & Hl & _ & Hr & _);
    [solve_elem|].
  vm_compute in Hl. injection Hl as <- <-.
  vm_compute in Hr. discriminate Hr.
Qed.

(** ** Assignments into the caller's frames *)

Lemma Forall2_same {A} (R : A → A → Prop) (l : list A) :
  Forall2 R l l → ∀ x, x ∈ l → R x x.
Proof.
  induction l as [|y l IH]; intros H x Hx; [by apply elem_of_nil in Hx|].
  apply Forall2_cons in H as [Hy Hl].
  apply elem_of_cons in Hx as [->|Hx]; [done | by apply IH].
Qed.

(** A frame whose column was overwritten differs from the original as soon
    as one row holds a cell the overwriting does not keep. *)
Lemma overwritten_differs rel c df df' :
  column_overwritten rel c df df' →
  (∃ r, r ∈ rows df ∧ ∀ x', rel (cell_at c r) x' → r !! c ≠ Some x') →
  df' ≠ df.
Proof.
  intros [_ Hrows] (r & Hr & Hrel) ->.
  destruct (Forall2_same _ _ Hrows r Hr) as [(x' & Hx' & Hxr) _].
  by apply (Hrel x').
Qed.

Lemma cell_at_text c (r : Row) s : cell_at c r = VStr s → r !! c = Some (VStr s).
Proof.
  unfold cell_at. destruct (r !! c) as [x|]; simpl; [by intros -> | done].
Qed.

Section TextFacts.

Variable str_lower : string → string.
Variable str_strip : string → string.

Local Abbreviation normal := (normal_text str_lower str_strip).
Local Abbreviation clean_cell := (lower_strip_cell str_lower str_strip).
Local Abbreviation clean_frame := (lower_strip_frame str_lower str_strip).

Lemma str_values_apply f s : str_values (map (str_apply f) s) = str_values s.
Proof.
  assert (∀ l, existsb is_text (map (str_apply f) l) = existsb is_text l)
    as H.
  { induction l as [|y l IH]; [done|]. cbn [map existsb].
    rewrite IH. by destruct y. }
  destruct s as [|x s]; [done|]. apply (H (x :: s)).
Qed.

(** [df[c].str.lower().str.strip()] on a column the accessor accepts. *)
Lemma normalise_column df c :
  c ∈ columns df → str_values (series c df) = true →
  (col ← getitem df c;
   lowered ← str_method str_lower col;
   str_method str_strip lowered)
  = Ok (map clean_cell (series c df)).
Proof.
  intros Hc Hs. rewrite getitem_ok by done. cbn [mbind result_bind].
  unfold str_method, str_accessor. rewrite Hs. cbn [mbind result_bind].
  rewrite str_values_apply, Hs. cbn [mbind result_bind].
  by rewrite map_map.
Qed.

(** On a column the accessor refuses, the normalisation raises before
    anything is assigned. *)
Lemma normalise_column_refused df c :
  c ∈ columns df → str_values (series c df) = false →
  (col ← getitem df c;
   lowered ← str_method str_lower col;
   str_method str_strip lowered)
  = Raise (AttributeError "str").
Proof.
  intros Hc Hs. rewrite getitem_ok by done. cbn [mbind result_bind].
  unfold str_method, str_accessor. by rewrite Hs.
Qed.

Lemma series_clean_frame c df :
  series c (clean_frame c df) = map clean_cell (series c df).
Proof.
  unfold series, lower_strip_frame. cbn [rows]. rewrite !map_map.
  apply map_ext. intros r. apply cell_at_insert.
Qed.

Lemma str_values_clean_frame c df :
  str_values (series c (clean_frame c df)) = str_values (series c df).
Proof.
  rewrite series_clean_frame. unfold lower_strip_cell.
  rewrite <- (map_map (str_apply str_lower) (str_apply str_strip)).
  by rewrite !str_values_apply.
Qed.

Lemma iter_clean_frame_ready n c df :
  columns (Nat.iter n (clean_frame c) df) = columns df ∧
  str_values (series c (Nat.iter n (clean_frame c) df))
  = str_values (series c df).
Proof.
  induction n as [|n [IH1 IH2]]; [done|].
  change (Nat.iter (S n) (clean_frame c) df)
    with (clean_frame c (Nat.iter n (clean_frame c) df)).
  split; [exact IH1|]. by rewrite str_values_clean_frame.
Qed.

(** The stored frames after the problem-text count: the frame of a key is
    rewritten once for each time the key is listed. *)
Lemma problem_reported_loop_spec values c keys :
  ∀ d mc,
    (∀ k df, k ∈ keys → dict_get k d = Some df →
       c ∈ columns df ∧ str_values (series c df) = true) →
    (∀ v, v ∈ values → is_Some (dict_get v mc)) →
    ∃ post counts,
      problem_reported_loop str_lower str_strip values c keys d mc
      = (post, Ok counts) ∧
      ∀ k, dict_get k post
           = Nat.iter (count_occ string_dec keys k) (clean_frame c)
               <$> dict_get k d.
Proof.
  induction keys as [|x keys IH]; intros d mc Hcols Hdom;
    cbn [problem_reported_loop].
  - exists d, mc. split; [done|]. intros k. by destruct (dict_get k d).
  - destruct (dict_get x d) as [df|] eqn:Hd.
    + destruct (Hcols x df) as [Hc Hs]; [left | done |].
      rewrite (proj2 (has_column_true df c) Hc). cbn [negb].
      rewrite normalise_column by done.
      rewrite set_column_map by done.
      change (mkDF (columns df)
                (map (fun r => <[c := clean_cell (cell_at c r)]> r)
                   (rows df)))
        with (clean_frame c df).
      destruct (nested_loop x
                  (fun v => count_rows (normal v) c (clean_frame c df)) values
                  (fun mode_counts value =>
                     let cleaned_value := str_strip (str_lower value) in
                     col ← getitem (clean_frame c df) c;
                     let count := count_eq cleaned_value col in
                     nested_assign value x count mode_counts) mc)
        as (mc' & Hrun & Hdom' & _).
      { intros s v Hv Hs'. simpl. rewrite getitem_ok by done. simpl.
        rewrite count_eq_series. by apply nested_assign_step. }
      { done. }
      cbv zeta in Hrun. rewrite Hrun.
      destruct (IH (dict_set x (clean_frame c df) d) mc')
        as (post & counts & Hloop & Hpost).
      { intros k df' Hk Hget. rewrite dict_get_set in Hget.
        case_decide as E.
        - injection Hget as <-. split; [done|].
          by rewrite str_values_clean_frame.
        - eapply Hcols; [by right | done]. }
      { intros v Hv. apply Hdom'. by apply Hdom. }
      exists post, counts. split; [done|]. intros k. rewrite Hpost.
      rewrite dict_get_set. cbn [count_occ].
      destruct (string_dec x k) as [->|Hne].
      * rewrite decide_True by done. rewrite Hd. simpl.
        by rewrite Nat.iter_swap.
      * by rewrite decide_False by done.
    + destruct (IH d mc) as (post & counts & Hloop & Hpost).
      { intros k df' Hk Hget. eapply Hcols; [by right | done]. }
      { done. }
      exists post, counts. split; [done|]. intros k. rewrite Hpost.
      cbn [count_occ].
      destruct (string_dec x k) as [->|Hne]; [|done]. by rewrite Hd.
Qed.

Lemma iter_clean_cell_text n s :
  Nat.iter n clean_cell (VStr s) = VStr (Nat.iter n normal s).
Proof.
  induction n as [|n IH]; [done|].
  change (Nat.iter (S n) clean_cell (VStr s))
    with (clean_cell (Nat.iter n clean_cell (VStr s))).
  by rewrite IH.
Qed.

Lemma iter_clean_cell_null n : Nat.iter n clean_cell VNull = VNull.
Proof.
  induction n as [|n IH]; [done|].
  change (Nat.iter (S n) clean_cell VNull)
    with (clean_cell (Nat.iter n clean_cell VNull)).
  by rewrite IH.
Qed.

Lemma iter_clean_cell x n :
  normalised_as str_lower str_strip (S n) x (Nat.iter (S n) clean_cell x).
Proof.
  destruct x as [s|t|].
  - rewrite iter_clean_cell_text. constructor.
  - change (Nat.iter (S n) clean_cell (VDate t))
      with (clean_cell (Nat.iter n clean_cell (VDate t))).
    rewrite <- Nat.iter_swap.
    change (clean_cell (VDate t)) with VNull.
    rewrite iter_clean_cell_null. constructor.
  - rewrite iter_clean_cell_null. constructor.
Qed.

Lemma iter_clean_frame_rows n c df :
  rows (Nat.iter (S n) (clean_frame c) df)
  = map (fun r => <[c := Nat.iter (S n) clean_cell (cell_at c r)]> r)
      (rows df).
Proof.
  induction n as [|n IH]; [done|].
  change (Nat.iter (S (S n)) (clean_frame c) df)
    with (clean_frame c (Nat.iter (S n) (clean_frame c) df)).
  unfold lower_strip_frame at 1. cbn [rows]. rewrite IH, map_map.
  apply map_ext. intros r. rewrite cell_at_insert.
  by rewrite insert_insert_eq.
Qed.

(** A frame normalised once or more has the counted column overwritten
    by the text lowercased and stripped that many times. *)
Lemma iter_clean_frame_overwritten n c df :
  column_overwritten (normalised_as str_lower str_strip (S n)) c df
    (Nat.iter (S n) (clean_frame c) df).
Proof.
  split; [apply iter_clean_frame_ready|].
  rewrite iter_clean_frame_rows.
  induction (rows df) as [|r l IH]; [constructor|].
  cbn [map]. constructor; [|done]. split.
  - eexists. split; [apply lookup_insert_eq|]. apply iter_clean_cell.
  - intros c' Hne. by apply lookup_insert_ne.
Qed.

End TextFacts.

Section RunFacts.

Variable parse_date : string → option Z.
Variable today : Z.
Variable str_lower : string → string.
Variable str_strip : string → string.

Lemma coerce_frame_overwritten c df :
  column_overwritten (parsed_as parse_date) c df (coerce_frame parse_date c df).
Proof.
  split; [done|]. unfold coerce_frame. cbn [rows].
  induction (rows df) as [|r l IH]; [constructor|].
  cbn [map]. constructor; [|done]. split.
  - eexists. split; [apply lookup_insert_eq|].
    destruct (cell_at c r) as [s|t|]; cbn [to_datetime_coerce];
      [|constructor..].
    destruct (parse_date s) as [t|] eqn:E; by constructor.
  - intros c' Hne. by apply lookup_insert_ne.
Qed.

Lemma filter_body_again keep keep' df c cur cur' :
  filter_body parse_date today keep
    (fst (filter_body parse_date today keep' df c cur')) c cur
  = (fst (filter_body parse_date today keep' df c cur'),
     snd (filter_body parse_date today keep df c cur)).
Proof.
  destruct (decide (c ∈ columns df)) as [Hc|Hc].
  - rewrite (filter_body_column _ _ keep' df) by done. cbn [fst].
    rewrite !filter_body_column by done. cbn [snd].
    by rewrite coerce_frame_idem.
  - rewrite (filter_body_missing _ _ keep' df) by done. cbn [fst].
    by rewrite filter_body_missing by done.
Qed.

Lemma or_empty_fst r : fst (or_empty r) = fst r.
Proof. by destruct r as [df [out|e]]. Qed.

Lemma or_empty_pair df r : or_empty (df, r) = (df, snd (or_empty (df, r))).
Proof. by destruct r. Qed.

Lemma snd_or_empty df df' r : snd (or_empty (df, r)) = snd (or_empty (df', r)).
Proof. by destruct r. Qed.

(** A filter applied to the frame another filter left behind changes
    nothing more and selects what it selects from the original frame. *)
Lemma filter_after_filter keep keep' df c cur cur' :
  or_empty (filter_body parse_date today keep
              (fst (or_empty (filter_body parse_date today keep' df c cur')))
              c cur)
  = (fst (or_empty (filter_body parse_date today keep' df c cur')),
     snd (or_empty (filter_body parse_date today keep df c cur))).
Proof.
  rewrite or_empty_fst, filter_body_again, or_empty_pair. f_equal.
  destruct (filter_body parse_date today keep df c cur) as [df' r]. simpl.
  apply snd_or_empty.
Qed.

Lemma filter_last_again df c cur cur' :
  filter_last_8_days parse_date today
    (fst (filter_last_8_days parse_date today df c cur')) c cur
  = (fst (filter_last_8_days parse_date today df c cur'),
     snd (filter_last_8_days parse_date today df c cur)).
Proof. unfold filter_last_8_days. apply filter_after_filter. Qed.

Lemma filter_before_after_last df c cur cur' :
  filter_before_last_8_days parse_date today
    (fst (filter_last_8_days parse_date today df c cur')) c cur
  = (fst (filter_last_8_days parse_date today df c cur'),
     snd (filter_before_last_8_days parse_date today df c cur)).
Proof.
  unfold filter_last_8_days, filter_before_last_8_days.
  apply filter_after_filter.
Qed.

Lemma aggregation_run_frame df :
  fst (aggregation_run parse_date today df)
  = fst (filter_last_8_days parse_date today df "Ticket Creation Date" None).
Proof.
  unfold aggregation_run.
  destruct (filter_last_8_days parse_date today df "Ticket Creation Date" None)
    as [df1 cw] eqn:E1.
  destruct (week_part df1 cw) as [[[bots modes] week]|e]; [|done].
  assert (df1 = fst (filter_last_8_days parse_date today df
                       "Ticket Creation Date" None)) as Hdf1
    by (by rewrite E1).
  rewrite Hdf1 at 1. by rewrite filter_before_after_last.
Qed.

(** C9.  The tables of a run are a function of the frame, the parser and
    the current date; and they do not depend on the frame being fresh: a
    second run on the frame as the first run left it (its date column
    parsed in place) returns the same tables and leaves the same frame. *)
Theorem aggregation_run_repeatable df :
  aggregation_run parse_date today (fst (aggregation_run parse_date today df))
  = aggregation_run parse_date today df.
Proof.
  rewrite aggregation_run_frame. unfold aggregation_run.
  rewrite filter_last_again.
  by destruct (filter_last_8_days parse_date today df
                 "Ticket Creation Date" None) as [df1 cw].
Qed.

(** C10.  Both filters overwrite the date column of the caller's frame:
    whatever the reference date, the frame they leave has the columns and
    the rows of the frame passed in, with each date cell replaced by the
    parsed date (null where the text is no date) and every other cell
    kept; it differs from the frame passed in as soon as one date cell was
    text; and when the cutoff is a timestamp the rows are selected from the
    frame so rewritten.  The problem-text count, on frames whose counted
    column the string accessor accepts, overwrites that column of each
    stored frame of a listed key with the text lowercased and stripped,
    once per listing (null where the cell was not text), and leaves the
    other entries of the dict alone; the dict differs from the one passed
    in as soon as this changes one text of a listed frame. *)
Theorem filters_and_problem_count_assign_in_place :
  (∀ df c cur, c ∈ columns df →
     ∃ post,
       fst (filter_last_8_days parse_date today df c cur) = post ∧
       fst (filter_before_last_8_days parse_date today df c cur) = post ∧
       column_overwritten (parsed_as parse_date) c df post ∧
       (cutoff_in_range (default today cur) →
        let cutoff := (default today cur - eight_days)%Z in
        rows (snd (filter_last_8_days parse_date today df c cur))
        = List.filter (fun r => date_ge cutoff (cell_at c r)) (rows post) ∧
        rows (snd (filter_before_last_8_days parse_date today df c cur))
        = List.filter (fun r => date_lt cutoff (cell_at c r)) (rows post)) ∧
       ((∃ r s, r ∈ rows df ∧ cell_at c r = VStr s) → post ≠ df)) ∧
  (∀ d keys values c,
     (∀ k df, k ∈ keys → dict_get k d = Some df →
        c ∈ columns df ∧ str_values (series c df) = true) →
     ∃ post counts,
       problem_reported_count_botwise str_lower str_strip d keys values c
       = (post, Ok counts) ∧
       (∀ k, k ∉ keys → dict_get k post = dict_get k d) ∧
       (∀ k, dict_get k d = None → dict_get k post = None) ∧
       (∀ k df, k ∈ keys → dict_get k d = Some df →
          ∃ df', dict_get k post = Some df' ∧
            column_overwritten
              (normalised_as str_lower str_strip
                 (count_occ string_dec keys k)) c df df') ∧
       ((∃ k df r s, k ∈ keys ∧ dict_get k d = Some df ∧ r ∈ rows df ∧
           cell_at c r = VStr s ∧
           Nat.iter (count_occ string_dec keys k)
             (normal_text str_lower str_strip) s ≠ s) →
        post ≠ d)).
Proof.
  split.
  - intros df c cur Hc. exists (coerce_frame parse_date c df).
    unfold filter_last_8_days, filter_before_last_8_days.
    rewrite !or_empty_fst, !filter_body_column by done. cbn [fst].
    split; [done|]. split; [done|].
    split; [apply coerce_frame_overwritten|]. split.
    + intros Hcut. by rewrite !timestamp_sub_in_range by done.
    + intros (r & s & Hr & Hcell).
      apply (overwritten_differs _ c df _ (coerce_frame_overwritten c df)).
      exists r. split; [done|]. intros x' Hrel.
      rewrite (cell_at_text _ _ _ Hcell). rewrite Hcell in Hrel.
      inversion Hrel; discriminate.
  - intros d keys values c Hready. unfold problem_reported_count_botwise.
    destruct (problem_reported_loop_spec str_lower str_strip values c keys d
                (empty_tables values) Hready)
      as (post & counts & Hrun & Hpost).
    { intros v Hv. rewrite empty_tables_get. rewrite decide_True by done.
      eauto. }
    assert (∀ k df, k ∈ keys → dict_get k d = Some df →
              ∃ df', dict_get k post = Some df' ∧
                column_overwritten
                  (normalised_as str_lower str_strip
                     (count_occ string_dec keys k)) c df df') as Hover.
    { intros k df Hk Hd. rewrite Hpost, Hd. cbn [fmap option_fmap option_map].
      apply list_elem_of_In, (count_occ_In string_dec) in Hk.
      destruct (count_occ string_dec keys k) as [|n]; [lia|].
      eexists. split; [done|]. apply iter_clean_frame_overwritten. }
    exists post, counts. split; [done|]. split; [|split; [|split; [done|]]].
    + intros k Hk. rewrite Hpost.
      rewrite (proj1 (count_occ_not_In string_dec keys k))
        by (by rewrite <- list_elem_of_In).
      by destruct (dict_get k d).
    + intros k Hd. by rewrite Hpost, Hd.
    + intros (k & df & r & s & Hk & Hd & Hr & Hcell & Hne) ->.
      destruct (Hover k df Hk Hd) as (df' & Hd' & Hov).
      assert (df' = df) as -> by congruence.
      apply (overwritten_differs _ c df df Hov); [|done].
      exists r. split; [done|]. intros x' Hrel.
      rewrite (cell_at_text _ _ _ Hcell). rewrite Hcell in Hrel.
      inversion Hrel; subst. congruence.
Qed.

End RunFacts.

Lemma filters_and_problem_count_assign_in_place_witness :
  fst (filter_last_8_days iso_dates 0 dated_frame "Ticket Creation Date"
         (Some (day 19889))) ≠ dated_frame ∧
  fst (problem_reported_count_botwise ascii_lower ascii_strip
         raw_problem_partitions ["A"] [] "Problem Reported")
  ≠ raw_problem_partitions.
Proof.
  destruct (filters_and_problem_count_assign_in_place iso_dates 0
              ascii_lower ascii_strip) as [Hfilters Hcount].
  split.
  - destruct (Hfilters dated_frame "Ticket Creation Date" (Some (day 19889)))
      as (post & <- & _ & _ & _ & Hdiff); [solve_elem|].
    apply Hdiff. exists (dated "A" "2024-06-01"), "2024-06-01".
    split; [solve_elem | reflexivity].
  - destruct (Hcount raw_problem_partitions ["A"] [] "Problem Reported")
      as (post & counts & Hrun & _ & _ & _ & Hdiff).
    { intros k df Hk Hd. elem_cases Hk. injection Hd as <-.
      split; [solve_elem | reflexivity]. }
    rewrite Hrun. cbn [fst]. apply Hdiff.
    exists "A", (mkDF ["Problem Reported"]
                   [ {["Problem Reported" := VStr " Printer "]} ]),
      {["Problem Reported" := VStr " Printer "]}, " Printer ".
    split; [solve_elem|]. split; [reflexivity|]. split; [solve_elem|].
    split; [reflexivity|]. vm_compute. discriminate.
Defined.

(** The frames the two assignments leave, evaluated: the three date texts
    become two dates and a null, and the problem text loses its capital
    and its blanks. *)
Example in_place_scenario :
  map (cell_at "Ticket Creation Date")
    (rows (fst (filter_last_8_days iso_dates 0 dated_frame
                  "Ticket Creation Date" (Some (day 19889)))))
  = [VDate (day 19875); VDate (day 19888); VNull] ∧
  fst (problem_reported_count_botwise ascii_lower ascii_strip
         raw_problem_partitions ["A"] [] "Problem Reported")
  = [("A", mkDF ["Problem Reported"]
             [ {["Problem Reported" := VStr "printer"]} ])].
Proof. split; reflexivity. Qed.

(** ** The scenarios, evaluated *)

(** Bot [B] has no ticket in the window: all four counts hold an explicit 0
    for it. *)
Example scenario_zero_for_idle_bot :
  total_ticket_received_count scenario_partitions ["A"; "B"] ["Email"] "Mode"
  = Ok [("A_Email", 2); ("B_Email", 0)] ∧
  count_tickets_for_unique_modes scenario_partitions ["A"; "B"] ["Email"]
    "Status" "Closed"
  = Ok [("total_Closed_ticket_A_Email", 1);
        ("total_Closed_ticket_B_Email", 0)] ∧
  total_ticket_received_count_modewise scenario_partitions ["A"; "B"]
    ["Email"] "Mode"
  = Ok [("Email", [("A", 2); ("B", 0)])] ∧
  count_bot_wise_status_tickets scenario_partitions ["A"; "B"] ["Email"]
    "Status" "Closed"
  = Ok [("A", 1); ("B", 0)].
Proof. vm_compute. repeat split. Qed.

(** A run on the dated tickets with the clock at 2024-06-15: the ticket of
    2024-06-14 is counted for the week, the one of 2024-06-01 for the
    archive, and bot [B], whose only ticket has no date, is listed with 0. *)
Example aggregation_run_scenario :
  ∃ week,
    snd (aggregation_run iso_dates (day 19889) dated_frame)
    = Ok (mkTables week [("A", 1); ("B", 0)]) ∧
    total_ticket_received_count_dict week = [("A_Email", 1); ("B_Email", 0)] ∧
    total_ticket_received_count_dict_modewise week
    = [("Email", [("A", 1); ("B", 0)])] ∧
    total_open_ticket_dict week = [("A", 1); ("B", 0)] ∧
    total_closed_ticket_dict week = [("A", 0); ("B", 0)].
Proof. vm_compute. eexists. repeat split. Qed.

(** A mode left blank is listed once, as [nan], and its entries are 0. *)
Example null_mode_listed_once :
  let modes := unique [VStr "Email"; VNull; VStr "Email"; VNull] in
  modes = ["Email"; "nan"] ∧
  total_ticket_received_count
    [("A", mkDF ["Mode"] [ {["Mode" := VStr "Email"]}; {["Mode" := VNull]} ])]
    ["A"] modes "Mode"
  = Ok [("A_Email", 1); ("A_nan", 0)].
Proof. split; reflexivity. Qed.

(** * Further properties *)

(** ** Text normalisation *)

Lemma string_app_cons a s1 s2 : String a s1 +:+ s2 = String a (s1 +:+ s2).
Proof. reflexivity. Qed.

Lemma string_app_nil_r s : s +:+ "" = s.
Proof. induction s as [|a s IH]; [done|]. by rewrite string_app_cons, IH. Qed.

Lemma string_app_assoc s1 s2 s3 : (s1 +:+ s2) +:+ s3 = s1 +:+ (s2 +:+ s3).
Proof.
  induction s1 as [|a s1 IH]; [done|]. by rewrite !string_app_cons, IH.
Qed.

Lemma rev_app_app u v s :
  String.rev_app (u +:+ v) s = String.rev_app v (String.rev_app u s).
Proof.
  revert s. induction u as [|a u IH]; intros s; [done|].
  rewrite string_app_cons. simpl. apply IH.
Qed.

Lemma rev_app_rev s1 s2 : String.rev_app s1 s2 = String.rev s1 +:+ s2.
Proof.
  unfold String.rev. revert s2.
  induction s1 as [|a s1 IH]; intros s2; simpl; [done|].
  rewrite IH, (IH (String a "")), string_app_assoc. done.
Qed.

Lemma rev_app_twice s1 s2 s3 :
  String.rev_app (String.rev_app s1 s2) s3 = String.rev_app s2 (s1 +:+ s3).
Proof.
  revert s2 s3. induction s1 as [|a s1 IH]; intros s2 s3; simpl; [done|].
  by rewrite IH.
Qed.

Lemma string_rev_involutive s : String.rev (String.rev s) = s.
Proof.
  unfold String.rev. rewrite rev_app_twice. simpl. apply string_app_nil_r.
Qed.

Lemma string_rev_snoc w a :
  String.rev (w +:+ String a "") = String a (String.rev w).
Proof. unfold String.rev. by rewrite rev_app_app. Qed.

Lemma string_rev_cons a t :
  String.rev (String a t) = String.rev t +:+ String a "".
Proof. unfold String.rev at 1. simpl. apply rev_app_rev. Qed.

Lemma lstrip_starts_clean s : starts_clean (lstrip s) = true.
Proof.
  induction s as [|a s IH]; simpl; [done|].
  destruct (is_space a) eqn:E; [done|]. simpl. by rewrite E.
Qed.

Lemma lstrip_of_clean s : starts_clean s = true → lstrip s = s.
Proof.
  destruct s as [|a s]; simpl; [done|]. by destruct (is_space a).
Qed.

Lemma lstrip_snoc w a :
  is_space a = false → ∃ w', lstrip (w +:+ String a "") = w' +:+ String a "".
Proof.
  intros Ha. induction w as [|b w IH].
  - exists "". simpl. by rewrite Ha.
  - rewrite string_app_cons. simpl. destruct (is_space b); [done|].
    exists (String b w). by rewrite string_app_cons.
Qed.

(** What [rstrip] leaves of a text that starts with no white space starts
    with none. *)
Lemma rstrip_keeps_clean x :
  starts_clean x = true →
  starts_clean (String.rev (lstrip (String.rev x))) = true.
Proof.
  destruct x as [|a t]; [done|]. simpl. intros Ha.
  apply negb_true_iff in Ha.
  rewrite string_rev_cons.
  destruct (lstrip_snoc (String.rev t) a Ha) as (w' & ->).
  rewrite string_rev_snoc. simpl. by rewrite Ha.
Qed.

Lemma strip_idem s : ascii_strip (ascii_strip s) = ascii_strip s.
Proof.
  unfold ascii_strip.
  rewrite (lstrip_of_clean (String.rev (lstrip (String.rev (lstrip s))))).
  - rewrite string_rev_involutive.
    by rewrite (lstrip_of_clean _ (lstrip_starts_clean _)).
  - apply rstrip_keeps_clean, lstrip_starts_clean.
Qed.

Lemma lower_char_idem a : lower_char (lower_char a) = lower_char a.
Proof. by destruct a as [[] [] [] [] [] [] [] []]. Qed.

Lemma is_space_lower_char a : is_space (lower_char a) = is_space a.
Proof. by destruct a as [[] [] [] [] [] [] [] []]. Qed.

Lemma lower_idem s : ascii_lower (ascii_lower s) = ascii_lower s.
Proof.
  induction s as [|a s IH]; simpl; [done|]. by rewrite lower_char_idem, IH.
Qed.

Lemma lower_lstrip s : ascii_lower (lstrip s) = lstrip (ascii_lower s).
Proof.
  induction s as [|a s IH]; simpl; [done|].
  rewrite is_space_lower_char. by destruct (is_space a).
Qed.

Lemma lower_rev_app s1 s2 :
  ascii_lower (String.rev_app s1 s2) = String.rev_app (ascii_lower s1) (ascii_lower s2).
Proof.
  revert s2. induction s1 as [|a s1 IH]; intros s2; simpl; [done|].
  by rewrite IH.
Qed.

Lemma lower_strip s : ascii_lower (ascii_strip s) = ascii_strip (ascii_lower s).
Proof.
  unfold ascii_strip, String.rev.
  by rewrite lower_rev_app, lower_lstrip, lower_rev_app, lower_lstrip.
Qed.

(** On ASCII text, normalising twice is normalising once. *)
Lemma ascii_normal_text_idem s :
  normal_text ascii_lower ascii_strip (normal_text ascii_lower ascii_strip s)
  = normal_text ascii_lower ascii_strip s.
Proof. unfold normal_text. by rewrite lower_strip, lower_idem, strip_idem. Qed.

(** ** Problem-text counts *)

Lemma nodup_two (a b : string) : a ≠ b → NoDup [a; b].
Proof.
  intros Hab. apply NoDup_cons. split; [|apply NoDup_singleton].
  intros Hin. by apply list_elem_of_singleton in Hin.
Qed.

Section ProblemCounts.

Variable str_lower : string → string.
Variable str_strip : string → string.

Local Abbreviation normal := (normal_text str_lower str_strip).
Local Abbreviation clean_cell := (lower_strip_cell str_lower str_strip).
Local Abbreviation clean_frame := (lower_strip_frame str_lower str_strip).
Local Abbreviation same_text := (same_normal_text str_lower str_strip).
Local Abbreviation count_same := (count_normalised str_lower str_strip).

Lemma eq_text_lower_strip v x :
  eq_text (normal v) (clean_cell x) = same_text v x.
Proof. by destruct x. Qed.

Lemma count_rows_lower_strip_frame v c df :
  count_rows (str_strip (str_lower v)) c (clean_frame c df)
  = count_same v c df.
Proof.
  change (str_strip (str_lower v)) with (normal v).
  unfold count_rows, count_normalised, lower_strip_frame. simpl.
  induction (rows df) as [|r l IH]; simpl; [done|].
  rewrite cell_at_insert, eq_text_lower_strip.
  destruct (same_text v (cell_at c r)); simpl; by rewrite IH.
Qed.

(** The counts of the problem-text loop over pairwise distinct keys. *)
Lemma problem_reported_loop_counts values c keys :
  ∀ d mc,
    NoDup keys →
    (∀ k df, k ∈ keys → dict_get k d = Some df →
       c ∈ columns df ∧ str_values (series c df) = true) →
    (∀ v, v ∈ values → is_Some (dict_get v mc)) →
    ∃ post counts,
      problem_reported_loop str_lower str_strip values c keys d mc
      = (post, Ok counts) ∧
      (∀ v, is_Some (dict_get v counts) ↔ is_Some (dict_get v mc)) ∧
      ∀ v k, v ∈ values →
        nested_get v k counts
        = match (if decide (k ∈ keys) then dict_get k d else None) with
          | Some df => Some (count_same v c df)
          | None => nested_get v k mc
          end.
Proof.
  induction keys as [|x keys IH]; intros d mc Hnd Hcols Hdom.
  - exists d, mc. split; [done|]. split; [done|]. intros v k _.
    by rewrite decide_False by (by intros ?%elem_of_nil).
  - apply NoDup_cons in Hnd as [Hx Hnd]. cbn [problem_reported_loop].
    destruct (dict_get x d) as [df|] eqn:Hd.
    + destruct (Hcols x df) as [Hc Hs]; [left | done |].
      rewrite (proj2 (has_column_true df c) Hc). cbn [negb].
      rewrite normalise_column by done.
      rewrite set_column_map by done.
      change (mkDF (columns df)
                (map (fun r => <[c := clean_cell (cell_at c r)]> r)
                   (rows df)))
        with (clean_frame c df).
      destruct (nested_loop x (fun v => count_same v c df) values
                  (fun mode_counts value =>
                     let cleaned_value := str_strip (str_lower value) in
                     col ← getitem (clean_frame c df) c;
                     let count := count_eq cleaned_value col in
                     nested_assign value x count mode_counts) mc)
        as (mc' & Hrun & Hdom' & Hget').
      { intros s v Hv Hs'. simpl. rewrite getitem_ok by done. simpl.
        rewrite count_eq_series.
        rewrite (count_rows_lower_strip_frame v c df).
        by apply nested_assign_step. }
      { done. }
      cbv zeta in Hrun. rewrite Hrun.
      destruct (IH (dict_set x (clean_frame c df) d) mc')
        as (post & counts & Hloop & Hdomc & Hcounts); [done| | |].
      { intros k df' Hk Hget. rewrite dict_get_set in Hget.
        case_decide as E.
        - injection Hget as <-. split; [done|].
          by rewrite str_values_clean_frame.
        - eapply Hcols; [by right | done]. }
      { intros v Hv. apply Hdom'. by apply Hdom. }
      exists post, counts. split; [done|]. split.
      { intros v. by rewrite Hdomc, Hdom'. }
      intros v k Hv. rewrite Hcounts by done.
      destruct (decide (k ∈ keys)) as [Hk|Hk].
      * rewrite decide_True by (by right).
        rewrite dict_get_set_ne by (by intros ->).
        destruct (dict_get k d); [done|].
        rewrite Hget'. rewrite decide_False; [done|].
        intros [-> _]. done.
      * rewrite Hget'. destruct (decide (k = x)) as [->|Hkx].
        -- rewrite decide_True by done. rewrite decide_True by left.
           by rewrite Hd.
        -- rewrite decide_False by (by intros [? _]).
           rewrite decide_False; [done|].
           intros Hin. apply elem_of_cons in Hin as [?|?]; done.
    + destruct (IH d mc) as (post & counts & Hloop & Hdomc & Hcounts);
        [done| |done|].
      { intros k df' Hk Hget. eapply Hcols; [by right | done]. }
      exists post, counts. split; [done|]. split; [done|].
      intros v k Hv. rewrite Hcounts by done.
      destruct (decide (k ∈ keys)) as [Hk|Hk].
      * by rewrite decide_True by (by right).
      * destruct (decide (k = x)) as [->|Hkx].
        -- rewrite decide_True by left. by rewrite Hd.
        -- rewrite decide_False; [done|].
           intros Hin. apply elem_of_cons in Hin as [?|?]; done.
Qed.

(** X1.  Over pairwise distinct keys whose frames have the column, with
    values the string accessor accepts, the problem-text count returns a
    table whose outer keys are the values as given, and whose entry at
    [[value][bot]] is the number of rows of the bot's frame whose text,
    lowercased and stripped, equals the value lowercased and stripped; a
    cell that is not text is never counted. *)
Theorem problem_counts_ignore_case d keys values c :
  NoDup keys →
  (∀ k df, k ∈ keys → dict_get k d = Some df →
     c ∈ columns df ∧ str_values (series c df) = true) →
  ∃ post counts,
    problem_reported_count_botwise str_lower str_strip d keys values c
    = (post, Ok counts) ∧
    (∀ v, is_Some (dict_get v counts) ↔ v ∈ values) ∧
    (∀ v k df, v ∈ values → k ∈ keys → dict_get k d = Some df →
       nested_get v k counts
       = Some (length (List.filter
                         (fun r => match cell_at c r with
                                   | VStr s =>
                                       String.eqb (str_strip (str_lower s))
                                         (str_strip (str_lower v))
                                   | _ => false
                                   end)
                         (rows df)))) ∧
    (∀ v k, v ∈ values → dict_get k d = None →
       nested_get v k counts = None).
Proof.
  intros Hnd Hcols. unfold problem_reported_count_botwise.
  destruct (problem_reported_loop_counts values c keys d
              (empty_tables values) Hnd Hcols)
    as (post & counts & Hrun & Hdom & Hget).
  { intros v Hv. rewrite empty_tables_get, decide_True by done. eauto. }
  assert (∀ v k, v ∈ values → nested_get v k (empty_tables values) = None)
    as Hempty.
  { intros v k Hv. unfold nested_get.
    by rewrite empty_tables_get, decide_True by done. }
  exists post, counts. split; [done|]. split; [|split].
  - intros v. rewrite Hdom, empty_tables_get. case_decide; split; eauto.
    + by intros [? ?].
    + done.
  - intros v k df Hv Hk Hd. rewrite Hget by done.
    by rewrite decide_True, Hd by done.
  - intros v k Hv Hd. rewrite Hget by done.
    case_decide; rewrite ?Hd; by apply Hempty.
Qed.

(** *** A second call *)

Section Idempotent.

Hypothesis normal_idem : ∀ s, normal (normal s) = normal s.

Lemma lower_strip_cell_idem x : clean_cell (clean_cell x) = clean_cell x.
Proof using normal_idem.
  destruct x as [s|t|]; [|done..].
  change (VStr (normal (normal s)) = VStr (normal s)).
  by rewrite normal_idem.
Qed.

Lemma same_normal_text_lower_strip v x :
  same_text v (clean_cell x) = same_text v x.
Proof using normal_idem.
  destruct x as [s|t|]; [|done..].
  change (String.eqb (normal (normal s)) (normal v)
          = String.eqb (normal s) (normal v)).
  by rewrite normal_idem.
Qed.

Lemma count_normalised_lower_strip_frame v c df :
  count_same v c (clean_frame c df) = count_same v c df.
Proof using normal_idem.
  unfold count_normalised, lower_strip_frame. simpl.
  induction (rows df) as [|r l IH]; simpl; [done|].
  rewrite cell_at_insert, same_normal_text_lower_strip.
  destruct (same_text v (cell_at c r)); simpl; by rewrite IH.
Qed.

Lemma lower_strip_frame_idem c df :
  clean_frame c (clean_frame c df) = clean_frame c df.
Proof using normal_idem.
  unfold lower_strip_frame. simpl. f_equal. rewrite map_map.
  apply map_ext. intros r.
  by rewrite cell_at_insert, lower_strip_cell_idem, insert_insert_eq.
Qed.

Lemma iter_lower_strip_frame n c df :
  (∀ v, count_same v c (Nat.iter n (clean_frame c) df) = count_same v c df) ∧
  Nat.iter n (clean_frame c) (Nat.iter n (clean_frame c) df)
  = Nat.iter n (clean_frame c) df.
Proof using normal_idem.
  induction n as [|n (IH2 & IH3)]; [done|]. simpl. split.
  - intros v. by rewrite count_normalised_lower_strip_frame.
  - rewrite <- (Nat.iter_swap n _ (clean_frame c)
                  (clean_frame c (Nat.iter n (clean_frame c) df))).
    rewrite lower_strip_frame_idem.
    by rewrite Nat.iter_swap, IH3.
Qed.

End Idempotent.

(** X2.  Where lowercasing and stripping a text twice gives what doing it
    once gives, a second problem-text count on the dict the first one left
    behind returns the same counts and leaves every stored frame as it
    found it. *)
Theorem problem_counts_second_call d keys values c :
  (∀ s, str_strip (str_lower (str_strip (str_lower s)))
        = str_strip (str_lower s)) →
  NoDup keys →
  (∀ k df, k ∈ keys → dict_get k d = Some df →
     c ∈ columns df ∧ str_values (series c df) = true) →
  ∃ post counts post2 counts2,
    problem_reported_count_botwise str_lower str_strip d keys values c
    = (post, Ok counts) ∧
    problem_reported_count_botwise str_lower str_strip post keys values c
    = (post2, Ok counts2) ∧
    (∀ k, dict_get k post2 = dict_get k post) ∧
    (∀ v k, v ∈ values → nested_get v k counts2 = nested_get v k counts).
Proof.
  intros Hidem Hnd Hcols. unfold problem_reported_count_botwise.
  assert (∀ v, v ∈ values → is_Some (dict_get v (empty_tables values)))
    as Hdom0.
  { intros v Hv. rewrite empty_tables_get, decide_True by done. eauto. }
  destruct (problem_reported_loop_counts values c keys d
              (empty_tables values) Hnd Hcols Hdom0)
    as (post & counts & Hrun & _ & Hget).
  destruct (problem_reported_loop_spec str_lower str_strip values c keys d
              (empty_tables values) Hcols Hdom0)
    as (post' & counts' & Hrun' & Hpost).
  rewrite Hrun in Hrun'. injection Hrun' as <- <-.
  assert (∀ k df, k ∈ keys → dict_get k post = Some df →
            c ∈ columns df ∧ str_values (series c df) = true)
    as Hcols2.
  { intros k df' Hk Hd'. rewrite Hpost in Hd'.
    destruct (dict_get k d) as [df|] eqn:Hd; [|done].
    injection Hd' as <-.
    destruct (iter_clean_frame_ready str_lower str_strip
                (count_occ string_dec keys k) c df) as [-> ->].
    by eapply Hcols. }
  destruct (problem_reported_loop_counts values c keys post
              (empty_tables values) Hnd Hcols2 Hdom0)
    as (post2 & counts2 & Hrun2 & _ & Hget2).
  destruct (problem_reported_loop_spec str_lower str_strip values c keys post
              (empty_tables values) Hcols2 Hdom0)
    as (post2' & counts2' & Hrun2' & Hpost2).
  rewrite Hrun2 in Hrun2'. injection Hrun2' as <- <-.
  exists post, counts, post2, counts2.
  split; [done|]. split; [done|]. split.
  - intros k. rewrite Hpost2, Hpost.
    destruct (dict_get k d) as [df|]; [|done]. simpl.
    by rewrite (proj2 (iter_lower_strip_frame Hidem _ c df)).
  - intros v k Hv. rewrite Hget, Hget2 by done.
    case_decide; [|done]. rewrite Hpost.
    destruct (dict_get k d) as [df|]; [|done]. simpl.
    by rewrite (proj1 (iter_lower_strip_frame Hidem _ c df)).
Qed.

End ProblemCounts.

Lemma problem_partitions_ready k df :
  k ∈ ["A"; "B"] → dict_get k problem_partitions = Some df →
  "Problem Reported" ∈ columns df ∧
  str_values (series "Problem Reported" df) = true.
Proof.
  intros Hk Hd. elem_cases Hk; injection Hd as <-;
    (split; [solve_elem | reflexivity]).
Qed.

Lemma problem_counts_ignore_case_witness :
  ∃ post counts,
    problem_reported_count_botwise ascii_lower ascii_strip problem_partitions
      ["A"; "B"] ["PRINTER "; "screen"] "Problem Reported"
    = (post, Ok counts) ∧
    nested_get "PRINTER " "A" counts = Some 2 ∧
    nested_get "PRINTER " "B" counts = Some 1 ∧
    nested_get "screen" "A" counts = Some 1 ∧
    nested_get "screen" "B" counts = Some 0.
Proof.
  destruct (problem_counts_ignore_case ascii_lower ascii_strip
              problem_partitions ["A"; "B"] ["PRINTER "; "screen"]
              "Problem Reported")
    as (post & counts & Hrun & _ & Hget & _).
  { by apply nodup_two. }
  { apply problem_partitions_ready. }
  exists post, counts. split; [done|].
  repeat split;
    (erewrite Hget; [ | solve_elem | solve_elem | reflexivity]; reflexivity).
Defined.

Lemma problem_counts_second_call_witness :
  ∃ post counts post2 counts2,
    problem_reported_count_botwise ascii_lower ascii_strip problem_partitions
      ["A"; "B"] ["PRINTER "] "Problem Reported" = (post, Ok counts) ∧
    problem_reported_count_botwise ascii_lower ascii_strip post ["A"; "B"]
      ["PRINTER "] "Problem Reported" = (post2, Ok counts2) ∧
    dict_get "A" post2 = dict_get "A" post ∧
    nested_get "PRINTER " "A" counts2 = nested_get "PRINTER " "A" counts.
Proof.
  destruct (problem_counts_second_call ascii_lower ascii_strip
              problem_partitions ["A"; "B"] ["PRINTER "] "Problem Reported")
    as (post & counts & post2 & counts2 & H1 & H2 & Hp & Hc).
  { apply ascii_normal_text_idem. }
  { by apply nodup_two. }
  { apply problem_partitions_ready. }
  exists post, counts, post2, counts2.
  split; [done|]. split; [done|]. split; [apply Hp|]. apply Hc. solve_elem.
Defined.


(** ** Time window: failure and re-filtering *)

Lemma filter_twice {A} (f : A → bool) (l : list A) :
  List.filter f (List.filter f l) = List.filter f l.
Proof.
  induction l as [|x l IH]; simpl; [done|].
  destruct (f x) eqn:E; simpl; [by rewrite E, IH | done].
Qed.

Lemma filter_disjoint {A} (f g : A → bool) (l : list A) :
  (∀ x, f x = true → g x = false) → List.filter g (List.filter f l) = [].
Proof.
  intros H. induction l as [|x l IH]; simpl; [done|].
  destruct (f x) eqn:E; simpl; [by rewrite (H x E) | done].
Qed.

Lemma date_ge_not_lt cutoff x : date_ge cutoff x = true → date_lt cutoff x = false.
Proof.
  destruct x as [s|t|]; simpl; try done. intros H.
  apply Z.leb_le in H. apply Z.ltb_ge. lia.
Qed.

Lemma date_lt_not_ge cutoff x : date_lt cutoff x = true → date_ge cutoff x = false.
Proof.
  destruct x as [s|t|]; simpl; try done. intros H.
  apply Z.ltb_lt in H. apply Z.leb_gt. lia.
Qed.

Section WindowFacts.

Variable parse_date : string → option Z.
Variable today : Z.

(** A selection of rows whose date cell is already parsed is left as it is
    by a filter, which returns its own selection of it. *)
Lemma filter_body_parsed keep keep0 df c cur :
  c ∈ columns df →
  let sel := mkDF (columns df)
               (List.filter (fun r => keep0 (cell_at c r))
                  (rows (coerce_frame parse_date c df))) in
  filter_body parse_date today keep sel c cur
  = (sel, window keep (timestamp_sub (default today cur) eight_days) c sel).
Proof.
  intros Hc sel. rewrite (filter_body_column _ _ keep sel) by done.
  assert (coerce_frame parse_date c sel = sel) as ->; [|done].
  unfold sel, coerce_frame. simpl. f_equal.
  induction (rows df) as [|r l IH]; simpl; [done|].
  destruct (keep0 (cell_at c (coerce_row parse_date c r))); simpl;
    [rewrite coerce_row_idem|]; by rewrite IH.
Qed.

Lemma filter_last_returns df c cur :
  c ∈ columns df → cutoff_in_range (default today cur) →
  snd (filter_last_8_days parse_date today df c cur)
  = mkDF (columns df)
      (List.filter
         (fun r => date_ge (default today cur - eight_days)%Z (cell_at c r))
         (rows (coerce_frame parse_date c df))).
Proof.
  intros Hc Hcut. unfold filter_last_8_days. by rewrite filter_body_present.
Qed.

Lemma filter_before_returns df c cur :
  c ∈ columns df → cutoff_in_range (default today cur) →
  snd (filter_before_last_8_days parse_date today df c cur)
  = mkDF (columns df)
      (List.filter
         (fun r => date_lt (default today cur - eight_days)%Z (cell_at c r))
         (rows (coerce_frame parse_date c df))).
Proof.
  intros Hc Hcut. unfold filter_before_last_8_days.
  by rewrite filter_body_present.
Qed.

Lemma compare_ge_not_lt cutoff x :
  compare_cutoff date_ge cutoff x = true →
  compare_cutoff date_lt cutoff x = false.
Proof. destruct cutoff; [apply date_ge_not_lt | done]. Qed.

Lemma compare_lt_not_ge cutoff x :
  compare_cutoff date_lt cutoff x = true →
  compare_cutoff date_ge cutoff x = false.
Proof. destruct cutoff; [apply date_lt_not_ge | done]. Qed.

(** Filtering what a filter selected, with the same reference date: the
    selection of the same comparison is kept whole, the selection of a
    comparison that excludes it is empty. *)
Lemma filter_of_window keep keep' df c cur :
  c ∈ columns df →
  let sel := snd (or_empty (filter_body parse_date today keep' df c cur)) in
  snd (or_empty (filter_body parse_date today keep sel c cur))
  = match timestamp_sub (default today cur) eight_days with
    | Ok cutoff =>
        mkDF (columns df)
          (List.filter (fun r => compare_cutoff keep cutoff (cell_at c r))
             (List.filter (fun r => compare_cutoff keep' cutoff (cell_at c r))
                (rows (coerce_frame parse_date c df))))
    | Raise _ => empty_frame
    end ∧
  fst (or_empty (filter_body parse_date today keep sel c cur)) = sel.
Proof.
  intros Hc sel. subst sel. rewrite (filter_body_column _ _ keep' df) by done.
  unfold window.
  destruct (timestamp_sub (default today cur) eight_days) as [cutoff|e] eqn:E;
    cbn [mbind result_bind or_empty snd].
  - change (columns (coerce_frame parse_date c df)) with (columns df).
    rewrite (filter_body_parsed keep
               (compare_cutoff keep' cutoff) df c cur Hc).
    rewrite E. by cbn [window mbind result_bind or_empty snd fst rows columns].
  - by rewrite filter_body_missing by (apply not_elem_of_nil).
Qed.

(** X3.  When the date column is absent both filters swallow the KeyError:
    they leave the caller's frame as it is and return the frame without
    columns and rows, and partitioning that frame by bot then gives the
    pair of the partitioner's error path, for any keys and bot column. *)
Theorem filter_failure_is_empty_frame df c cur K cb :
  c ∉ columns df →
  filter_last_8_days parse_date today df c cur = (df, empty_frame) ∧
  filter_before_last_8_days parse_date today df c cur = (df, empty_frame) ∧
  split_dataframe_by_bot_name
    (snd (filter_last_8_days parse_date today df c cur)) K cb
  = SplitTuple [] [].
Proof.
  intros Hc. unfold filter_last_8_days, filter_before_last_8_days.
  by rewrite !filter_body_missing by done.
Qed.

(** X4.  The two windows are closed and exclusive under re-filtering with
    the same reference date: filtering the recent rows again returns them
    unchanged and their archive is empty, and the same with the roles
    exchanged. *)
Theorem filter_windows_compose df c cur :
  c ∈ columns df →
  let recent := snd (filter_last_8_days parse_date today df c cur) in
  let archive := snd (filter_before_last_8_days parse_date today df c cur) in
  filter_last_8_days parse_date today recent c cur = (recent, recent) ∧
  rows (snd (filter_before_last_8_days parse_date today recent c cur)) = [] ∧
  filter_before_last_8_days parse_date today archive c cur
  = (archive, archive) ∧
  rows (snd (filter_last_8_days parse_date today archive c cur)) = [].
Proof.
  intros Hc recent archive. subst recent archive.
  unfold filter_last_8_days, filter_before_last_8_days.
  destruct (filter_of_window date_ge date_ge df c cur Hc) as [Hgg Hg1].
  destruct (filter_of_window date_lt date_ge df c cur Hc) as [Hlg _].
  destruct (filter_of_window date_lt date_lt df c cur Hc) as [Hll Hl1].
  destruct (filter_of_window date_ge date_lt df c cur Hc) as [Hgl _].
  cbv zeta in Hgg, Hg1, Hlg, Hll, Hl1, Hgl.
  rewrite (surjective_pairing
             (or_empty (filter_body parse_date today date_ge
                (snd (or_empty (filter_body parse_date today date_ge df c cur)))
                c cur))).
  rewrite (surjective_pairing
             (or_empty (filter_body parse_date today date_lt
                (snd (or_empty (filter_body parse_date today date_lt df c cur)))
                c cur))).
  rewrite Hgg, Hg1, Hlg, Hll, Hl1, Hgl.
  rewrite !(filter_body_column _ _ _ df) by done. unfold window.
  destruct (timestamp_sub (default today cur) eight_days) as [cutoff|e];
    cbn [mbind result_bind or_empty snd rows]; [|done].
  rewrite !filter_twice.
  rewrite (filter_disjoint
             (fun r => compare_cutoff date_ge cutoff (cell_at c r))
             (fun r => compare_cutoff date_lt cutoff (cell_at c r)))
    by (intros r; apply compare_ge_not_lt).
  rewrite (filter_disjoint
             (fun r => compare_cutoff date_lt cutoff (cell_at c r))
             (fun r => compare_cutoff date_ge cutoff (cell_at c r)))
    by (intros r; apply compare_lt_not_ge).
  done.
Qed.

End WindowFacts.

Lemma filter_failure_is_empty_frame_witness :
  filter_last_8_days iso_dates (day 19889) (mkDF ticket_columns [])
    "Ticket Creation Date" None
  = (mkDF ticket_columns [], empty_frame) ∧
  filter_before_last_8_days iso_dates (day 19889) (mkDF ticket_columns [])
    "Ticket Creation Date" None
  = (mkDF ticket_columns [], empty_frame) ∧
  split_dataframe_by_bot_name
    (snd (filter_last_8_days iso_dates (day 19889) (mkDF ticket_columns [])
            "Ticket Creation Date" None)) ["A"] "Bot Name"
  = SplitTuple [] [].
Proof.
  apply (filter_failure_is_empty_frame iso_dates (day 19889)
           (mkDF ticket_columns []) "Ticket Creation Date" None ["A"]
           "Bot Name").
  intros Hin. not_elem Hin.
Defined.

Lemma filter_windows_compose_witness :
  let recent := snd (filter_last_8_days iso_dates 0 dated_frame
                       "Ticket Creation Date" (Some (day 19889))) in
  filter_last_8_days iso_dates 0 recent "Ticket Creation Date"
    (Some (day 19889)) = (recent, recent) ∧
  rows (snd (filter_before_last_8_days iso_dates 0 recent
               "Ticket Creation Date" (Some (day 19889)))) = [].
Proof.
  destruct (filter_windows_compose iso_dates 0 dated_frame
              "Ticket Creation Date" (Some (day 19889)))
    as (H1 & H2 & _); [solve_elem|].
  by split.
Defined.


(** ** Counting without loss or repetition *)

Lemma indicator_sum values x :
  NoDup values →
  list_sum (map (fun v => if eq_text v x then 1 else 0) values)
  = if text_in values x then 1 else 0.
Proof.
  induction values as [|v values IH]; intros Hnd.
  - by destruct x.
  - apply NoDup_cons in Hnd as [Hv Hnd]. simpl. rewrite IH by done.
    destruct x as [s|t|]; simpl; [|done..].
    destruct (String.eqb s v) eqn:E.
    + apply String.eqb_eq in E as ->.
      rewrite bool_decide_eq_false_2 by done.
      rewrite bool_decide_eq_true_2; [done | left].
    + apply String.eqb_neq in E. simpl.
      destruct (bool_decide (s ∈ values)) eqn:B.
      * apply bool_decide_eq_true in B.
        rewrite bool_decide_eq_true_2; [done | by right].
      * apply bool_decide_eq_false in B.
        rewrite bool_decide_eq_false_2; [done|].
        intros Hin. apply elem_of_cons in Hin as [?|?]; done.
Qed.

Lemma list_sum_map_add {A} (f g : A → nat) (l : list A) :
  list_sum (map (fun x => f x + g x) l)
  = list_sum (map f l) + list_sum (map g l).
Proof. induction l as [|x l IH]; simpl; [done|]. rewrite IH. lia. Qed.

Lemma list_sum_map_zero {A} (l : list A) : list_sum (map (fun _ => 0) l) = 0.
Proof. induction l as [|x l IH]; simpl; [done | exact IH]. Qed.

(** Distinct values partition the rows they count. *)
Lemma count_rows_sum values c df :
  NoDup values →
  list_sum (map (fun v => count_rows v c df) values)
  = length (List.filter (fun r => text_in values (cell_at c r)) (rows df)).
Proof.
  intros Hnd. unfold count_rows.
  induction (rows df) as [|r l IH]; simpl; [apply list_sum_map_zero|].
  transitivity
    (list_sum (map (fun v => (if eq_text v (cell_at c r) then 1 else 0)
                             + length (List.filter
                                         (fun r0 => eq_text v (cell_at c r0))
                                         l)) values)).
  - f_equal. apply map_ext. intros v. by destruct (eq_text v (cell_at c r)).
  - rewrite list_sum_map_add, IH, indicator_sum by done.
    by destruct (text_in values (cell_at c r)).
Qed.


Lemma filter_both {A} (f g : A → bool) (l : list A) :
  List.filter g (List.filter f l) = List.filter (fun x => f x && g x) l.
Proof.
  induction l as [|x l IH]; simpl; [done|].
  destruct (f x); simpl; [destruct (g x)|]; by rewrite IH.
Qed.

Lemma list_sum_map_twice {A} (f : A → nat) (l : list A) :
  list_sum (map f (l ++ l)) = 2 * list_sum (map f l).
Proof. rewrite map_app, list_sum_app. lia. Qed.

(** The tickets of a frame with the status and one of the listed modes. *)
Lemma status_count_sum sc sv modes df :
  NoDup modes →
  list_sum (map (fun m => status_count sc sv m df) modes)
  = length (List.filter
              (fun r => eq_text sv (cell_at sc r)
                        && text_in modes (cell_at "Mode" r))
              (rows df)).
Proof.
  intros Hnd. unfold status_count. rewrite count_rows_sum by done.
  unfold with_status. by rewrite select_rows, filter_both.
Qed.

(** X5.  Whenever the per-bot status count returns, with pairwise distinct
    modes the total of a listed bot of the map is exactly the number of its
    rows that have the status and one of the listed modes: no ticket is
    counted twice.  Listing every mode twice is accepted and doubles every
    total. *)
Theorem status_total_counts_each_ticket_once d keys modes sc sv totals :
  count_bot_wise_status_tickets d keys modes sc sv = Ok totals →
  NoDup modes →
  (∀ k df, k ∈ keys → dict_get k d = Some df →
     dict_get k totals
     = Some (length (List.filter
                       (fun r => eq_text sv (cell_at sc r)
                                 && text_in modes (cell_at "Mode" r))
                       (rows df)))) ∧
  ∃ doubled,
    count_bot_wise_status_tickets d keys (modes ++ modes) sc sv = Ok doubled ∧
    ∀ k n, k ∈ keys → dict_get k totals = Some n →
      dict_get k doubled = Some (2 * n).
Proof.
  intros Hrun Hnd. split.
  - intros k df Hk Hd.
    rewrite (total_entry_value _ _ _ _ _ _ _ _ Hrun Hk Hd).
    by rewrite status_count_sum.
  - pose proof (count_bot_wise_status_tickets_ready _ _ _ _ _ _ Hrun) as Hr.
    assert (keys_ready d keys sc (modes ++ modes)) as Hr2.
    { intros k df Hk Hd.
      destruct (status_ready_inv _ _ _ (Hr k df Hk Hd)) as [Hsc [HM| ->]].
      - by apply status_ready_columns.
      - exact (Hr k df Hk Hd). }
    eexists. split; [by apply count_bot_wise_status_tickets_writes|].
    intros k n Hk Hn.
    rewrite count_bot_wise_status_tickets_writes in Hrun by done.
    injection Hrun as <-.
    destruct (dict_get k d) as [df|] eqn:Hd.
    + assert (dict_get k
                (dict_write [] (flat_map (total_writes_of d modes sc sv) keys))
              = Some (list_sum (map (fun m => status_count sc sv m df) modes)))
        as Hn'.
      { apply dict_write_agree.
        - intros n0 Hn0.
          apply total_writes_elem in Hn0 as (df' & _ & Hd' & ->).
          by assert (df' = df) as -> by congruence.
        - apply total_writes_elem. by exists df. }
      rewrite Hn' in Hn. injection Hn as <-.
      rewrite <- list_sum_map_twice. apply dict_write_agree.
      * intros n0 Hn0.
        apply total_writes_elem in Hn0 as (df' & _ & Hd' & ->).
        by assert (df' = df) as -> by congruence.
      * apply total_writes_elem. by exists df.
    + rewrite dict_write_other in Hn; [done|].
      intros n0 Hn0. apply total_writes_elem in Hn0 as (df' & _ & Hd' & _).
      congruence.
Qed.

Lemma status_total_counts_each_ticket_once_witness :
  dict_get "A" [("A", 1); ("B", 0)] = Some 1 ∧
  ∃ doubled,
    count_bot_wise_status_tickets scenario_partitions ["A"; "B"]
      (["Email"; "Phone"] ++ ["Email"; "Phone"]) "Status" "Closed"
    = Ok doubled ∧
    dict_get "A" doubled = Some 2.
Proof.
  destruct (status_total_counts_each_ticket_once scenario_partitions
              ["A"; "B"] ["Email"; "Phone"] "Status" "Closed"
              [("A", 1); ("B", 0)])
    as [Hexact (doubled & Hrun & Hdouble)].
  { reflexivity. }
  { by apply nodup_two. }
  split.
  - erewrite Hexact; [ | solve_elem | reflexivity]. reflexivity.
  - exists doubled. split; [done|].
    apply (Hdouble "A" 1); [solve_elem | reflexivity].
Defined.


(** ** Partitioning: repeated keys, and counting the partitions *)

Lemma unique_from_ext seen1 seen2 s :
  (∀ x, x ∈ seen1 ↔ x ∈ seen2) → unique_from seen1 s = unique_from seen2 s.
Proof.
  revert seen1 seen2. induction s as [|x s IH]; intros seen1 seen2 H;
    [done|]. cbn [unique_from].
  destruct (listed_as x) as [v|]; [|by apply IH].
  destruct (bool_decide (v ∈ seen1)) eqn:B.
  - apply bool_decide_eq_true in B.
    rewrite bool_decide_eq_true_2 by (by apply H). by apply IH.
  - apply bool_decide_eq_false in B.
    rewrite bool_decide_eq_false_2 by (by rewrite <- H). f_equal.
    apply IH. intros y. rewrite !elem_of_cons. by rewrite H.
Qed.

(** The keys of a dict after a run of assignments: the old ones, then the
    new ones in order of first assignment. *)
Lemma dict_write_key_order {V} (d : dict V) (ws : list (string * V)) :
  dict_keys (dict_write d ws)
  = dict_keys d ++ unique_from (dict_keys d) (map (fun w => VStr (fst w)) ws).
Proof.
  revert d. induction ws as [|[k v] ws IH]; intros d; simpl.
  - by rewrite app_nil_r.
  - rewrite IH. simpl. destruct (bool_decide (k ∈ dict_keys d)) eqn:B.
    + apply bool_decide_eq_true in B.
      by rewrite dict_set_present by (by apply dict_get_keys).
    + apply bool_decide_eq_false in B.
      assert (dict_get k d = None) as Hnone.
      { destruct (dict_get k d) eqn:E; [|done]. exfalso. apply B.
        apply dict_get_keys. eauto. }
      rewrite dict_set_absent by done. rewrite <- app_assoc. simpl.
      do 2 f_equal. apply unique_from_ext. intros x.
      rewrite elem_of_app, !elem_of_cons, elem_of_nil. tauto.
Qed.

Lemma unique_from_elem seen s v :
  v ∈ unique_from seen s ↔ (∃ x, x ∈ s ∧ listed_as x = Some v) ∧ v ∉ seen.
Proof.
  revert seen. induction s as [|x s IH]; intros seen.
  - simpl. rewrite elem_of_nil. split; [done|].
    intros [(x & Hx & _) _]. by apply elem_of_nil in Hx.
  - cbn [unique_from]. destruct (listed_as x) as [w|] eqn:Hw.
    + case_bool_decide as B.
      * rewrite IH. split.
        -- intros [(y & Hy & Hl) Hn]. split; [|done].
           exists y. split; [by right | done].
        -- intros [(y & Hy & Hl) Hn]. split; [|done].
           apply elem_of_cons in Hy as [->|Hy]; [|by exists y].
           congruence.
      * rewrite elem_of_cons, IH. split.
        -- intros [->|[(y & Hy & Hl) Hn]].
           ++ split; [|done]. exists x. split; [left | done].
           ++ split; [exists y; split; [by right | done] |].
              intros Hs. apply Hn. by right.
        -- intros [(y & Hy & Hl) Hn].
           destruct (decide (v = w)) as [->|Hne]; [by left|]. right.
           split.
           ++ apply elem_of_cons in Hy as [->|Hy]; [congruence | by exists y].
           ++ intros [?|?]%elem_of_cons; done.
    + rewrite IH. split.
      * intros [(y & Hy & Hl) Hn]. split; [|done].
        exists y. split; [by right | done].
      * intros [(y & Hy & Hl) Hn]. split; [|done].
        apply elem_of_cons in Hy as [->|Hy]; [congruence | by exists y].
Qed.

Lemma unique_from_nodup seen s : NoDup (unique_from seen s).
Proof.
  revert seen. induction s as [|x s IH]; intros seen; [apply NoDup_nil_2|].
  cbn [unique_from]. destruct (listed_as x) as [w|]; [|apply IH].
  destruct (bool_decide (w ∈ seen)); [apply IH|].
  apply NoDup_cons. split; [|apply IH].
  rewrite unique_from_elem. intros [_ Hn]. apply Hn. left.
Qed.

(** A list without repetition is its own list of distinct values. *)
Lemma unique_from_of_nodup seen K :
  NoDup K → (∀ k, k ∈ K → k ∉ seen) → unique_from seen (map VStr K) = K.
Proof.
  revert seen. induction K as [|k K IH]; intros seen Hnd Hfresh; [done|].
  apply NoDup_cons in Hnd as [Hk Hnd]. simpl.
  rewrite bool_decide_eq_false_2 by (apply Hfresh; left). f_equal.
  apply IH; [done|]. intros k' Hk' Hin.
  apply elem_of_cons in Hin as [->|Hin]; [done|].
  by apply (Hfresh k'); [right|].
Qed.

Lemma split_dataframe_by_bot_name_entry df K c k :
  c ∈ columns df → k ∈ K →
  dict_get k (dict_write [] (map (fun bot => (bot, bot_rows df c bot)) K))
  = Some (bot_rows df c k).
Proof.
  intros Hc Hk. apply dict_write_agree.
  - intros v Hv. apply list_elem_of_In, in_map_iff in Hv.
    destruct Hv as (? & Heq & _). by inversion Heq.
  - apply list_elem_of_In, in_map_iff. exists k.
    by rewrite <- list_elem_of_In.
Qed.

(** X6.  On a frame that has the bot column the partitioner accepts repeated
    keys: the dict has one entry per distinct key, in the order of first
    occurrence, and the entry of a key is the frame of the rows of that
    bot, with the columns of the input. *)
Theorem split_repeated_keys df K c :
  c ∈ columns df →
  ∃ m, split_dataframe_by_bot_name df K c = SplitDict m ∧
    dict_keys m = unique (map VStr K) ∧
    NoDup (dict_keys m) ∧
    (∀ k, k ∈ dict_keys m ↔ k ∈ K) ∧
    (∀ k, k ∈ K → ∃ part, dict_get k m = Some part ∧
       columns part = columns df ∧
       rows part = List.filter (fun r => eq_text k (cell_at c r)) (rows df)).
Proof.
  intros Hc. rewrite split_dataframe_by_bot_name_writes by done.
  eexists. split; [reflexivity|].
  assert (dict_keys (dict_write [] (map (fun bot => (bot, bot_rows df c bot)) K))
          = unique (map VStr K)) as Hkeys.
  { rewrite dict_write_key_order. simpl. by rewrite map_map. }
  split; [done|]. rewrite Hkeys. split; [apply unique_from_nodup|]. split.
  - intros k. unfold unique. rewrite unique_from_elem. split.
    + intros [(x & Hx & Hl) _].
      apply list_elem_of_In, in_map_iff in Hx as (k' & <- & Hin).
      injection Hl as <-. by apply list_elem_of_In.
    + intros Hk. split; [|by intros ?%elem_of_nil].
      exists (VStr k). split; [|done].
      apply list_elem_of_In, in_map_iff. exists k.
      by rewrite <- list_elem_of_In.
  - intros k Hk. exists (bot_rows df c k).
    split; [by apply split_dataframe_by_bot_name_entry|].
    split; [done|]. apply select_rows.
Qed.

Lemma split_repeated_keys_witness :
  ∃ m, split_dataframe_by_bot_name mixed_frame ["A"; "C"; "A"] "Bot Name"
       = SplitDict m ∧
    dict_keys m = ["A"; "C"].
Proof.
  destruct (split_repeated_keys mixed_frame ["A"; "C"; "A"] "Bot Name")
    as (m & Hm & Hkeys & _); [solve_elem|].
  exists m. split; [done|]. by rewrite Hkeys.
Defined.

Lemma filter_swap_length {A} (f g : A → bool) (l : list A) :
  length (List.filter g (List.filter f l))
  = length (List.filter f (List.filter g l)).
Proof.
  rewrite !filter_both. f_equal.
  apply List.filter_ext. intros x. apply andb_comm.
Qed.

(** X7.  Partitioning by pairwise distinct bots and then counting values per
    bot neither loses nor repeats a ticket: both operations return, and for
    every listed value the per-bot entries add up to the number of rows of
    the frame that hold the value and whose bot is listed. *)
Theorem partition_counts_conserve df K values cb c :
  NoDup K → cb ∈ columns df → c ∈ columns df →
  ∃ m nested,
    split_dataframe_by_bot_name df K cb = SplitDict m ∧
    total_ticket_received_count_modewise m K values c = Ok nested ∧
    ∀ v, v ∈ values →
      sum_over_bots nested v K
      = length (List.filter
                  (fun r => eq_text v (cell_at c r) && listed_bot K cb r)
                  (rows df)).
Proof.
  intros Hnd Hcb Hc. rewrite split_dataframe_by_bot_name_writes by done.
  set (m := dict_write [] (map (fun bot => (bot, bot_rows df cb bot)) K)).
  destruct (total_ticket_received_count_modewise_spec m K values c)
    as (nested & Hn & _).
  exists m, nested. split; [done|]. split; [done|]. intros v Hv.
  unfold sum_over_bots.
  transitivity
    (list_sum (map (fun k => count_rows k cb
                               (mkDF (columns df)
                                  (List.filter
                                     (fun r => eq_text v (cell_at c r))
                                     (rows df)))) K)).
  - f_equal. apply map_ext_in. intros k Hk. apply list_elem_of_In in Hk.
    rewrite (nested_entry_value m K values c nested k v (bot_rows df cb k));
      [|done..|by apply split_dataframe_by_bot_name_entry|done].
    simpl. unfold count_rows, bot_rows. rewrite select_rows. simpl.
    apply filter_swap_length.
  - rewrite count_rows_sum by done. simpl. by rewrite filter_both.
Qed.

Lemma partition_counts_conserve_witness :
  ∃ m nested,
    split_dataframe_by_bot_name mixed_frame ["A"; "B"] "Bot Name"
    = SplitDict m ∧
    total_ticket_received_count_modewise m ["A"; "B"] ["Email"; "Phone"]
      "Mode" = Ok nested ∧
    sum_over_bots nested "Email" ["A"; "B"] = 1 ∧
    sum_over_bots nested "Phone" ["A"; "B"] = 0.
Proof.
  destruct (partition_counts_conserve mixed_frame ["A"; "B"]
              ["Email"; "Phone"] "Bot Name" "Mode")
    as (m & nested & Hm & Hn & Hsum);
    [by apply nodup_two | solve_elem | solve_elem |].
  exists m, nested. split; [done|]. split; [done|].
  split; (rewrite Hsum by solve_elem; reflexivity).
Defined.


(** ** The aggregation run: what it needs and what it lists *)

(** Partitioning a frame that has the bot column by pairwise distinct
    bots. *)
Lemma split_distinct_bots df bots :
  "Bot Name" ∈ columns df → NoDup bots →
  ∃ m, split_dataframe_by_bot_name df bots "Bot Name" = SplitDict m ∧
    dict_keys m = bots ∧
    ∀ k, k ∈ bots → dict_get k m = Some (bot_rows df "Bot Name" k).
Proof.
  intros Hc Hnd. rewrite split_dataframe_by_bot_name_writes by done.
  eexists. split; [reflexivity|]. split.
  - rewrite dict_write_key_order. simpl. rewrite map_map. simpl.
    apply unique_from_of_nodup; [done|]. by intros k _ ?%elem_of_nil.
  - intros k Hk. by apply split_dataframe_by_bot_name_entry.
Qed.

(** The per-bot status count over a dict that holds every listed bot. *)
Lemma bot_totals_keys m bots modes sc sv :
  NoDup bots →
  (∀ k, k ∈ bots → ∃ df, dict_get k m = Some df ∧
                         sc ∈ columns df ∧ "Mode" ∈ columns df) →
  ∃ totals, count_bot_wise_status_tickets m bots modes sc sv = Ok totals ∧
    dict_keys totals = bots.
Proof.
  intros Hnd Hall.
  assert (keys_ready m bots sc modes) as Hr.
  { intros k df Hk Hd. destruct (Hall k Hk) as (df' & Hd' & H1 & H2).
    assert (df' = df) as -> by congruence. by apply status_ready_columns. }
  rewrite count_bot_wise_status_tickets_writes by done.
  eexists. split; [reflexivity|]. rewrite dict_write_key_order. simpl.
  assert (map (fun w : string * nat => VStr (fst w))
            (flat_map (total_writes_of m modes sc sv) bots)
          = map VStr bots) as ->.
  { clear Hr Hnd. induction bots as [|k bots IH]; [done|]. simpl.
    rewrite map_app, IH by (intros k' Hk'; apply Hall; by right).
    unfold total_writes_of at 1.
    destruct (Hall k) as (df & -> & _); [left|]. done. }
  apply unique_from_of_nodup; [done|]. by intros k _ ?%elem_of_nil.
Qed.

Lemma mode_entries_ok m bots modes sc sv :
  (∀ k, k ∈ bots → ∃ df, dict_get k m = Some df ∧
                         sc ∈ columns df ∧ "Mode" ∈ columns df) →
  ∃ entries, count_tickets_for_unique_modes m bots modes sc sv = Ok entries.
Proof.
  intros Hall. eexists. apply count_tickets_for_unique_modes_writes.
  intros k df Hk Hd. destruct (Hall k Hk) as (df' & Hd' & H1 & H2).
  assert (df' = df) as -> by congruence. by apply status_ready_columns.
Qed.

Lemma unique_nodup s : NoDup (unique s).
Proof. apply unique_from_nodup. Qed.


(** The tables of the week, on frames that have the columns read. *)
Lemma week_part_tables main cw :
  "Bot Name" ∈ columns main → "Mode" ∈ columns main →
  "Bot Name" ∈ columns cw → "Mode" ∈ columns cw → "Status" ∈ columns cw →
  ∃ week,
    week_part main cw
    = Ok (unique (series "Bot Name" main), unique (series "Mode" main), week) ∧
    dict_keys (total_closed_ticket_dict week) = unique (series "Bot Name" main) ∧
    dict_keys (total_open_ticket_dict week) = unique (series "Bot Name" main) ∧
    dict_keys (total_onhold_ticket_dict week)
    = unique (series "Bot Name" main).
Proof.
  intros Hb Hm Hcb Hcm Hcs. unfold week_part.
  rewrite !getitem_ok by done. cbn [mbind result_bind].
  set (bots := unique (series "Bot Name" main)).
  set (modes := unique (series "Mode" main)).
  destruct (split_distinct_bots cw bots Hcb (unique_nodup _))
    as (m & -> & Hkeys & Hget).
  cbn [split_keys split_dict mbind result_bind]. rewrite Hkeys.
  assert (∀ k, k ∈ bots → ∃ df, dict_get k m = Some df ∧
                                "Status" ∈ columns df ∧ "Mode" ∈ columns df)
    as Hall.
  { intros k Hk. exists (bot_rows cw "Bot Name" k). by rewrite Hget. }
  rewrite total_ticket_received_count_writes. cbn [mbind result_bind].
  destruct (mode_entries_ok m bots modes "Status" "Closed" Hall) as (e1 & ->).
  cbn [mbind result_bind].
  destruct (total_ticket_received_count_modewise_spec m bots modes "Mode")
    as (nested & -> & _).
  cbn [mbind result_bind].
  destruct (mode_entries_ok m bots modes "Status" "Open" Hall) as (e2 & ->).
  destruct (mode_entries_ok m bots modes "Status" "On Hold" Hall) as (e3 & ->).
  cbn [mbind result_bind].
  destruct (bot_totals_keys m bots modes "Status" "Closed" (unique_nodup _) Hall)
    as (t1 & -> & Ht1).
  destruct (bot_totals_keys m bots modes "Status" "Open" (unique_nodup _) Hall)
    as (t2 & -> & Ht2).
  destruct (bot_totals_keys m bots modes "Status" "On Hold" (unique_nodup _) Hall)
    as (t3 & -> & Ht3).
  cbn [mbind result_bind]. eexists. split; [reflexivity|]. by simpl.
Qed.

Lemma archive_part_tables la bots modes :
  "Bot Name" ∈ columns la → "Mode" ∈ columns la → "Status" ∈ columns la →
  NoDup bots →
  ∃ archive, archive_part la bots modes = Ok archive ∧
    dict_keys archive = bots.
Proof.
  intros Hcb Hcm Hcs Hnd. unfold archive_part.
  destruct (split_distinct_bots la bots Hcb Hnd) as (m & -> & Hkeys & Hget).
  cbn [split_keys split_dict mbind result_bind]. rewrite Hkeys.
  apply bot_totals_keys; [done|].
  intros k Hk. exists (bot_rows la "Bot Name" k). by rewrite Hget.
Qed.

Section RunShape.

Variable parse_date : string → option Z.
Variable today : Z.

Lemma series_other_column c c' df :
  c ≠ c' → series c' (coerce_frame parse_date c df) = series c' df.
Proof.
  intros Hne. unfold series, coerce_frame. simpl. rewrite map_map.
  apply map_ext. intros r. unfold cell_at, coerce_row.
  by rewrite lookup_insert_ne.
Qed.

(** X8.  On a frame that has the date, bot, mode and status columns, and
    with a clock whose eighth day before is a timestamp, the run returns
    its tables, and each per-bot table, of the week and of the archive,
    lists every bot of the whole frame once, in order of first appearance,
    whether or not the bot has a ticket in the window. *)
Theorem aggregation_run_lists_every_bot df :
  "Ticket Creation Date" ∈ columns df → "Bot Name" ∈ columns df →
  "Mode" ∈ columns df → "Status" ∈ columns df →
  cutoff_in_range today →
  ∃ tables,
    snd (aggregation_run parse_date today df) = Ok tables ∧
    dict_keys (total_closed_ticket_dict (current_week tables))
    = unique (series "Bot Name" df) ∧
    dict_keys (total_open_ticket_dict (current_week tables))
    = unique (series "Bot Name" df) ∧
    dict_keys (total_onhold_ticket_dict (current_week tables))
    = unique (series "Bot Name" df) ∧
    dict_keys (total_archive_open_ticket_dict tables)
    = unique (series "Bot Name" df).
Proof.
  intros Hd Hb Hm Hs Hcut. unfold aggregation_run.
  pose proof (filter_last_returns parse_date today df
                "Ticket Creation Date" None Hd Hcut) as Hcw.
  pose proof (filter_before_after_last parse_date today df
                "Ticket Creation Date" None None) as Hla.
  pose proof (filter_before_returns parse_date today df
                "Ticket Creation Date" None Hd Hcut) as Hla'.
  assert (fst (filter_last_8_days parse_date today df
                 "Ticket Creation Date" None)
          = coerce_frame parse_date "Ticket Creation Date" df) as Hpost.
  { unfold filter_last_8_days.
    by rewrite or_empty_fst, filter_body_column by done. }
  rewrite (surjective_pairing
             (filter_last_8_days parse_date today df
                "Ticket Creation Date" None)).
  set (cw := snd (filter_last_8_days parse_date today df
                    "Ticket Creation Date" None)) in *.
  set (la := snd (filter_before_last_8_days parse_date today df
                    "Ticket Creation Date" None)) in *.
  rewrite Hpost in *.
  assert (columns cw = columns df) as Hccw by (by rewrite Hcw).
  assert (columns la = columns df) as Hcla by (by rewrite Hla').
  destruct (week_part_tables
              (coerce_frame parse_date "Ticket Creation Date" df) cw)
    as (week & -> & H1 & H2 & H3); [done|done|by rewrite Hccw..|].
  rewrite Hla. rewrite series_other_column in * by done.
  destruct (archive_part_tables la (unique (series "Bot Name" df))
              (unique (series "Mode"
                         (coerce_frame parse_date "Ticket Creation Date" df))))
    as (archive & -> & H4); [by rewrite Hcla..|apply unique_nodup|].
  eexists. split; [reflexivity|]. by simpl.
Qed.

(** X9.  The run needs the bot column of the frame and, through the
    partitioner, the date column: without [Bot Name] it raises KeyError;
    with [Bot Name] but without [Ticket Creation Date] the first filter
    returns the frame without columns, the partitioner returns its pair,
    and the run raises AttributeError on [keys], leaving the frame as it
    was. *)
Theorem aggregation_run_missing_columns df :
  ("Bot Name" ∉ columns df →
   snd (aggregation_run parse_date today df) = Raise (KeyError "Bot Name")) ∧
  ("Ticket Creation Date" ∉ columns df → "Bot Name" ∈ columns df →
   aggregation_run parse_date today df = (df, Raise (AttributeError "keys"))).
Proof.
  split.
  - intros Hb. unfold aggregation_run.
    assert (columns (fst (filter_last_8_days parse_date today df
                            "Ticket Creation Date" None)) = columns df) as Hc.
    { unfold filter_last_8_days. rewrite or_empty_fst.
      destruct (decide ("Ticket Creation Date" ∈ columns df)).
      - by rewrite filter_body_column.
      - by rewrite filter_body_missing. }
    destruct (filter_last_8_days parse_date today df
                "Ticket Creation Date" None) as [post cw]. simpl in Hc.
    unfold week_part.
    by rewrite (getitem_missing post "Bot Name") by (by rewrite Hc).
  - intros Hd Hb. unfold aggregation_run, filter_last_8_days.
    rewrite filter_body_missing by done. cbn [or_empty].
    unfold week_part. by rewrite (getitem_ok df "Bot Name") by done.
Qed.

End RunShape.

Lemma aggregation_run_lists_every_bot_witness :
  ∃ tables,
    snd (aggregation_run iso_dates (day 19889) dated_frame) = Ok tables ∧
    dict_keys (total_archive_open_ticket_dict tables) = ["A"; "B"].
Proof.
  destruct (aggregation_run_lists_every_bot iso_dates (day 19889) dated_frame)
    as (tables & Hrun & _ & _ & _ & Harch);
    [solve_elem | solve_elem | solve_elem | solve_elem | in_range |].
  exists tables. split; [done|]. by rewrite Harch.
Defined.

Lemma aggregation_run_missing_columns_witness :
  snd (aggregation_run iso_dates (day 19889) (mkDF ["Mode"; "Status"] []))
  = Raise (KeyError "Bot Name") ∧
  aggregation_run iso_dates (day 19889) (mkDF ticket_columns [])
  = (mkDF ticket_columns [], Raise (AttributeError "keys")).
Proof.
  split.
  - apply (aggregation_run_missing_columns iso_dates (day 19889)
             (mkDF ["Mode"; "Status"] [])).
    intros Hin. not_elem Hin.
  - apply (aggregation_run_missing_columns iso_dates (day 19889)
             (mkDF ticket_columns [])); [|solve_elem].
    intros Hin. not_elem Hin.
Defined.


(** ** The cleaner *)

Lemma lookup_drop_cells (cols : list string) (r : Row) c :
  drop_cells cols r !! c = if decide (c ∈ cols) then None else r !! c.
Proof.
  induction cols as [|c0 cols IH]; simpl; [done|].
  destruct (decide (c0 = c)) as [->|Hne].
  - rewrite lookup_delete_eq. by rewrite decide_True by left.
  - rewrite lookup_delete_ne by done. rewrite IH.
    destruct (decide (c ∈ cols)) as [Hin|Hn].
    + by rewrite decide_True by (by right).
    + rewrite decide_False; [done|].
      intros [?|?]%elem_of_cons; [congruence|done].
Qed.

Lemma drop_cells_app (l1 l2 : list string) (r : Row) :
  drop_cells l2 (drop_cells l1 r) = drop_cells (l1 ++ l2) r.
Proof.
  apply map_eq. intros c. rewrite !lookup_drop_cells.
  destruct (decide (c ∈ l1)) as [H1|H1], (decide (c ∈ l2)) as [H2|H2];
    destruct (decide (c ∈ l1 ++ l2)) as [H|H]; try done;
    exfalso; rewrite elem_of_app in H; tauto.
Qed.

Lemma filter_columns_elem (cols l : list string) c :
  c ∈ List.filter (fun c => negb (bool_decide (c ∈ cols))) l ↔ c ∈ l ∧ c ∉ cols.
Proof.
  rewrite list_elem_of_In, filter_In, <- list_elem_of_In.
  rewrite negb_true_iff, bool_decide_eq_false. done.
Qed.

(** X10.  Removing columns never raises and builds a frame with the same
    number of rows that has exactly the columns not listed; reading a
    removed column raises KeyError, every other column reads as before, and
    two removals in a row are one removal of both lists. *)
Theorem remove_columns_effect df cols :
  (∀ c, c ∈ columns (remove_columns df cols) ↔ c ∈ columns df ∧ c ∉ cols) ∧
  length (rows (remove_columns df cols)) = length (rows df) ∧
  (∀ c, c ∈ cols → getitem (remove_columns df cols) c = Raise (KeyError c)) ∧
  (∀ c, c ∉ cols → getitem (remove_columns df cols) c = getitem df c) ∧
  (∀ more, remove_columns (remove_columns df cols) more
           = remove_columns df (cols ++ more)).
Proof.
  split; [|split; [|split; [|split]]].
  - intros c. apply filter_columns_elem.
  - unfold remove_columns. simpl. by rewrite length_map.
  - intros c Hc. apply getitem_missing. unfold remove_columns. simpl.
    rewrite filter_columns_elem. tauto.
  - intros c Hc. unfold getitem, has_column.
    assert (series c (remove_columns df cols) = series c df) as ->.
    { unfold series, remove_columns. simpl. rewrite map_map.
      apply map_ext. intros r. unfold cell_at.
      by rewrite lookup_drop_cells, decide_False by done. }
    destruct (decide (c ∈ columns df)) as [H|H].
    + rewrite !bool_decide_eq_true_2; [done..|].
      unfold remove_columns. simpl. by apply filter_columns_elem.
    + rewrite !bool_decide_eq_false_2; [done..|].
      unfold remove_columns. simpl. rewrite filter_columns_elem. tauto.
  - intros more. unfold remove_columns. simpl. f_equal.
    + rewrite filter_both. apply List.filter_ext. intros c.
      rewrite <- negb_orb. f_equal.
      destruct (decide (c ∈ cols)) as [H1|H1], (decide (c ∈ more)) as [H2|H2];
        rewrite ?(bool_decide_eq_true_2 _ H1), ?(bool_decide_eq_true_2 _ H2),
          ?(bool_decide_eq_false_2 _ H1), ?(bool_decide_eq_false_2 _ H2);
        simpl; symmetry;
        first [ apply bool_decide_eq_true; rewrite elem_of_app; tauto
              | apply bool_decide_eq_false; rewrite elem_of_app; tauto ].
    + rewrite map_map. apply map_ext. intros r. apply drop_cells_app.
Qed.


Lemma dict_get_elem {V} (d : dict V) k v :
  NoDup (dict_keys d) → (k, v) ∈ d → dict_get k d = Some v.
Proof.
  induction d as [|[k0 v0] d IH]; intros Hnd Hin; simpl.
  - by apply elem_of_nil in Hin.
  - simpl in Hnd. apply NoDup_cons in Hnd as [Hk0 Hnd].
    apply elem_of_cons in Hin as [[= -> ->]|Hin].
    + by rewrite String.eqb_refl.
    + destruct (String.eqb k k0) eqn:E; [|by apply IH].
      apply String.eqb_eq in E as ->. exfalso. apply Hk0.
      apply list_elem_of_In, in_map_iff. exists (k0, v).
      by rewrite <- list_elem_of_In.
Qed.

Section CleanerFacts.

Variable show_timestamp : Z → string.

Local Abbreviation F := (impute_cell show_timestamp).

Lemma impute_cell_text repl x : ∃ s, F repl x = VStr s.
Proof.
  destruct x as [s|t|]; unfold impute_cell; simpl; eauto.
  - destruct (String.eqb s "nan" || String.eqb s "-"); simpl; eauto.
  - destruct (String.eqb (show_timestamp t) "nan"
              || String.eqb (show_timestamp t) "-"); simpl; eauto.
Qed.

Lemma impute_cell_text_or_null repl x :
  text_or_null x = true →
  F repl x = if missing_text x then VStr repl else x.
Proof.
  destruct x as [s|t|]; unfold impute_cell; simpl; [|done..]. intros _.
  by destruct (String.eqb s "nan" || String.eqb s "-").
Qed.

Lemma impute_cell_idem repl x : F repl (F repl x) = F repl x.
Proof.
  assert (∀ s, F repl (VStr s) = VStr s ∨ F repl (VStr s) = VStr repl) as Hs.
  { intros s. unfold impute_cell. simpl.
    destruct (String.eqb s "nan" || String.eqb s "-"); simpl; auto. }
  assert (F repl (VStr repl) = VStr repl) as Hrepl.
  { destruct (Hs repl) as [H|H]; exact H. }
  assert (∀ s, F repl (F repl (VStr s)) = F repl (VStr s)) as Hss.
  { intros s. destruct (Hs s) as [H|H]; rewrite H; [exact H | exact Hrepl]. }
  destruct x as [s|t|]; [apply Hss| |].
  - change (F repl (VDate t)) with (F repl (VStr (show_timestamp t))).
    apply Hss.
  - change (F repl VNull) with (VStr repl). exact Hrepl.
Qed.

(** One imputation on a frame that has the column. *)
Lemma impute_column df c repl :
  c ∈ columns df →
  (col ← getitem df c;
   let df := set_column df c (map (astype_str show_timestamp) col) in
   col ← getitem df c;
   let df := set_column df c (map replace_markers col) in
   col ← getitem df c;
   Ok (set_column df c (map (fillna repl) col)))
  = Ok (mkDF (columns df)
          (map (fun r : Row => <[c := F repl (cell_at c r)]> r) (rows df))).
Proof.
  intros Hc. rewrite getitem_ok by done. cbn [mbind result_bind].
  rewrite set_column_map by done.
  rewrite getitem_ok by exact Hc. cbn [mbind result_bind].
  rewrite set_column_map by exact Hc. cbn [rows columns].
  rewrite getitem_ok by exact Hc. cbn [mbind result_bind].
  rewrite set_column_map by exact Hc. cbn [rows columns].
  do 2 f_equal. rewrite !map_map. apply map_ext. intros r.
  rewrite !cell_at_insert, !insert_insert_eq. done.
Qed.

Lemma impute_null_values_rows imp :
  ∀ df, impute_null_values show_timestamp df imp
        = Ok (mkDF (columns df)
                (map (impute_row show_timestamp (columns df) imp) (rows df))).
Proof.
  unfold impute_null_values.
  induction imp as [|[c repl] imp IH]; intros df; simpl.
  - rewrite map_id. by destruct df.
  - unfold has_column. destruct (bool_decide (c ∈ columns df)) eqn:B.
    + apply bool_decide_eq_true in B. rewrite impute_column by done.
      cbn [mbind result_bind]. rewrite IH. cbn [rows columns].
      rewrite map_map. do 2 f_equal. apply map_ext. intros r.
      unfold impute_row. simpl. by rewrite bool_decide_eq_true_2 by done.
    + cbn [mbind result_bind]. rewrite IH. do 2 f_equal.
      apply map_ext. intros r. unfold impute_row. simpl. by rewrite B.
Qed.

Lemma impute_row_lookup cols imp :
  NoDup (dict_keys imp) →
  ∀ (r : Row) c,
    impute_row show_timestamp cols imp r !! c
    = match dict_get c imp with
      | Some repl =>
          if bool_decide (c ∈ cols) then Some (F repl (cell_at c r))
          else r !! c
      | None => r !! c
      end.
Proof.
  unfold impute_row.
  induction imp as [|[c0 repl0] imp IH]; intros Hnd r c; simpl; [done|].
  simpl in Hnd. apply NoDup_cons in Hnd as [Hc0 Hnd]. rewrite IH by done.
  destruct (String.eqb c c0) eqn:E.
  - apply String.eqb_eq in E as ->.
    assert (dict_get c0 imp = None) as ->.
    { destruct (dict_get c0 imp) eqn:Hg; [|done]. exfalso. apply Hc0.
      apply dict_get_keys. eauto. }
    destruct (bool_decide (c0 ∈ cols)); [|done]. by rewrite lookup_insert_eq.
  - apply String.eqb_neq in E.
    assert (∀ y, (if bool_decide (c0 ∈ cols) then <[c0 := y]> r else r) !! c
                 = r !! c) as Hother.
    { intros y. destruct (bool_decide (c0 ∈ cols)); [|done].
      by rewrite lookup_insert_ne. }
    unfold cell_at. rewrite !Hother. done.
Qed.

Lemma impute_row_fixed cols imp (R : Row) :
  (∀ c repl, (c, repl) ∈ imp → c ∈ cols →
     ∃ y, R !! c = Some y ∧ F repl y = y) →
  impute_row show_timestamp cols imp R = R.
Proof.
  unfold impute_row. induction imp as [|[c repl] imp IH]; intros H; simpl;
    [done|].
  assert ((if bool_decide (c ∈ cols)
           then <[c := F repl (cell_at c R)]> R else R) = R) as ->.
  { destruct (bool_decide (c ∈ cols)) eqn:B; [|done].
    apply bool_decide_eq_true in B.
    destruct (H c repl) as (y & Hy & HF); [left|done|].
    unfold cell_at. rewrite Hy. simpl. rewrite HF. by apply insert_id. }
  apply IH. intros c' repl' Hin. apply H. by right.
Qed.

(** X11.  Imputation never raises and keeps the columns and the number of
    rows.  For a map with pairwise distinct columns: in every listed column
    the frame has, each cell ends as text, so no null is left; where the
    column held text or nulls, a null and the texts [nan] and [-] become
    the replacement and every other text stays; a column that is not listed
    reads as before. *)
Theorem impute_fills_missing df imp :
  NoDup (dict_keys imp) →
  ∃ out,
    impute_null_values show_timestamp df imp = Ok out ∧
    columns out = columns df ∧
    length (rows out) = length (rows df) ∧
    (∀ c repl, dict_get c imp = Some repl → c ∈ columns df →
       (∀ x, x ∈ series c out → is_text x = true) ∧
       ((∀ x, x ∈ series c df → text_or_null x = true) →
        series c out
        = map (fun x => if missing_text x then VStr repl else x)
            (series c df))) ∧
    (∀ c, dict_get c imp = None → series c out = series c df).
Proof.
  intros Hnd. rewrite impute_null_values_rows. eexists.
  split; [reflexivity|]. split; [done|]. cbn [rows columns].
  split; [by rewrite length_map|].
  assert (∀ c repl, dict_get c imp = Some repl → c ∈ columns df →
            series c (mkDF (columns df)
                        (map (impute_row show_timestamp (columns df) imp)
                           (rows df)))
            = map (F repl) (series c df)) as Hser.
  { intros c repl Hg Hc. unfold series. cbn [rows]. rewrite !map_map.
    apply map_ext. intros r. unfold cell_at at 1.
    rewrite impute_row_lookup by done. rewrite Hg.
    by rewrite bool_decide_eq_true_2 by done. }
  split.
  - intros c repl Hg Hc. rewrite (Hser c repl) by done. split.
    + intros x Hx. apply list_elem_of_In, in_map_iff in Hx as (x0 & <- & _).
      by destruct (impute_cell_text repl x0) as (s & ->).
    + intros Htext. apply map_ext_in. intros x Hx.
      apply impute_cell_text_or_null, Htext. by apply list_elem_of_In.
  - intros c Hg. unfold series. cbn [rows]. rewrite map_map.
    apply map_ext. intros r. unfold cell_at.
    by rewrite impute_row_lookup, Hg by done.
Qed.

(** X12.  Imputation with pairwise distinct columns is idempotent: imputing
    the frame it returned returns that frame again. *)
Theorem impute_twice df imp :
  NoDup (dict_keys imp) →
  ∃ out,
    impute_null_values show_timestamp df imp = Ok out ∧
    impute_null_values show_timestamp out imp = Ok out.
Proof.
  intros Hnd. rewrite impute_null_values_rows. eexists.
  split; [reflexivity|]. rewrite impute_null_values_rows. cbn [rows columns].
  do 2 f_equal. rewrite map_map. apply map_ext. intros r.
  apply impute_row_fixed. intros c repl Hin Hc.
  exists (F repl (cell_at c r)). split; [|apply impute_cell_idem].
  rewrite impute_row_lookup by done.
  rewrite (dict_get_elem imp c repl) by done.
  by rewrite bool_decide_eq_true_2 by done.
Qed.

End CleanerFacts.


Lemma dict_set_fresh {V} (d : dict V) k v :
  dict_get k d = None → dict_set k v d = d ++ [(k, v)].
Proof.
  induction d as [|[k0 v0] d IH]; simpl; intros H; [done|].
  destruct (String.eqb k k0); [done|]. by rewrite IH.
Qed.

(** Assignments to fresh, pairwise distinct keys append in order. *)
Lemma dict_write_fresh {V} (d : dict V) (ws : list (string * V)) :
  NoDup (map fst ws) →
  (∀ k, k ∈ map fst ws → dict_get k d = None) →
  dict_write d ws = d ++ ws.
Proof.
  revert d. induction ws as [|[k v] ws IH]; intros d Hnd Hfresh; simpl.
  - by rewrite app_nil_r.
  - simpl in Hnd. apply NoDup_cons in Hnd as [Hk Hnd].
    rewrite dict_set_fresh by (apply Hfresh; left).
    rewrite IH; [by rewrite <- app_assoc | done |].
    intros k' Hk'. assert (k' ≠ k) as Hne by (by intros ->).
    assert (dict_get k' d = None) as Hd by (apply Hfresh; by right).
    clear -Hne Hd. induction d as [|[k0 v0] d IHd]; simpl in *.
    + destruct (String.eqb k' k) eqn:E; [|done].
      by apply String.eqb_eq in E.
    + destruct (String.eqb k' k0); [done | by apply IHd].
Qed.

Lemma filter_all {A} (f : A → bool) (l : list A) :
  (∀ x, x ∈ l → f x = true) → List.filter f l = l.
Proof.
  induction l as [|x l IH]; intros H; simpl; [done|].
  rewrite H by left. f_equal. apply IH. intros y Hy. apply H. by right.
Qed.

(** Partitioning a frame by the bots it names, when every bot cell is
    text, puts every row in a partition. *)
Lemma partition_by_own_bots df :
  "Bot Name" ∈ columns df →
  (∀ x, x ∈ series "Bot Name" df → is_text x = true) →
  ∃ m,
    split_dataframe_by_bot_name df (unique (series "Bot Name" df)) "Bot Name"
    = SplitDict m ∧
    dict_keys m = unique (series "Bot Name" df) ∧
    list_sum (partition_sizes m) = length (rows df).
Proof.
  intros Hc Htext. set (bots := unique (series "Bot Name" df)).
  assert (NoDup bots) as Hnd by apply unique_nodup.
  rewrite split_dataframe_by_bot_name_writes by done.
  rewrite dict_write_fresh;
    [|by rewrite map_map, map_id|done].
  eexists. split; [reflexivity|]. cbn [app]. split.
  - unfold dict_keys. by rewrite map_map, map_id.
  - unfold partition_sizes. rewrite map_map. cbn [snd].
    transitivity (list_sum (map (fun b => count_rows b "Bot Name" df) bots)).
    { f_equal. apply map_ext. intros b. unfold bot_rows, count_rows.
      by rewrite select_rows. }
    rewrite count_rows_sum by done. f_equal. apply filter_all.
    intros r Hr.
    assert (cell_at "Bot Name" r ∈ series "Bot Name" df) as Hin.
    { apply list_elem_of_In, in_map_iff. exists r.
      by rewrite <- list_elem_of_In. }
    pose proof (Htext _ Hin) as Ht.
    destruct (cell_at "Bot Name" r) as [s| |] eqn:E; [|done..]. simpl.
    apply bool_decide_eq_true. unfold bots, unique.
    apply unique_from_elem. split; [|by intros ?%elem_of_nil].
    exists (VStr s). by split.
Qed.

Lemma imputation_values_distinct : NoDup (dict_keys imputation_values).
Proof. by apply nodup_two. Qed.

Section CleanedFrame.

Variable show_timestamp : Z → string.

Lemma impute_series df imp c repl :
  NoDup (dict_keys imp) → dict_get c imp = Some repl → c ∈ columns df →
  series c (mkDF (columns df)
              (map (impute_row show_timestamp (columns df) imp) (rows df)))
  = map (impute_cell show_timestamp repl) (series c df).
Proof.
  intros Hnd Hg Hc. unfold series. cbn [rows]. rewrite !map_map.
  apply map_ext. intros r. unfold cell_at at 1.
  rewrite impute_row_lookup by done. rewrite Hg.
  by rewrite bool_decide_eq_true_2 by done.
Qed.

(** X13.  Cleaning with the configuration of [main.py] keeps the bot column
    and leaves no ticket without a bot: after the removal of the configured
    columns and the imputation, partitioning the frame by the bots it names
    returns one partition per bot, and the partitions together hold as many
    rows as the raw frame. *)
Theorem cleaned_frame_partitions_every_row df :
  "Bot Name" ∈ columns df →
  ∃ clean m,
    impute_null_values show_timestamp (remove_columns df columns_to_remove)
      imputation_values = Ok clean ∧
    split_dataframe_by_bot_name clean (unique (series "Bot Name" clean))
      "Bot Name" = SplitDict m ∧
    dict_keys m = unique (series "Bot Name" clean) ∧
    list_sum (partition_sizes m) = length (rows df).
Proof.
  intros Hb. rewrite impute_null_values_rows.
  set (kept := remove_columns df columns_to_remove).
  assert ("Bot Name" ∈ columns kept) as Hk.
  { unfold kept, remove_columns. cbn [columns].
    apply filter_columns_elem. split; [done|].
    intros Hin. unfold columns_to_remove in Hin. not_elem Hin. }
  set (clean := mkDF (columns kept)
                  (map (impute_row show_timestamp (columns kept)
                          imputation_values) (rows kept))).
  destruct (partition_by_own_bots clean) as (m & Hm & Hkeys & Hsum).
  { exact Hk. }
  { intros x Hx. unfold clean in Hx.
    rewrite (impute_series kept imputation_values "Bot Name"
               "Unidentified Bot Name") in Hx
      by (done || apply imputation_values_distinct).
    apply list_elem_of_In, in_map_iff in Hx as (x0 & <- & _).
    by destruct (impute_cell_text show_timestamp "Unidentified Bot Name" x0)
      as (s & ->). }
  exists clean, m. split; [done|]. split; [done|]. split; [done|].
  rewrite Hsum. unfold clean, kept, remove_columns. cbn [rows].
  by rewrite !length_map.
Qed.

End CleanedFrame.

Lemma impute_fills_missing_witness :
  ∃ out,
    impute_null_values (fun _ => "") raw_frame imputation_values = Ok out ∧
    series "Bot Name" out
    = [VStr "A"; VStr "Unidentified Bot Name"; VStr "Unidentified Bot Name"] ∧
    series "Tags" out = series "Tags" raw_frame.
Proof.
  destruct (impute_fills_missing (fun _ => "") raw_frame imputation_values
              imputation_values_distinct)
    as (out & Hrun & _ & _ & Hlisted & Hother).
  exists out. split; [done|]. split.
  - destruct (Hlisted "Bot Name" "Unidentified Bot Name") as [_ Hval];
      [reflexivity | solve_elem |].
    rewrite Hval; [reflexivity|].
    intros x Hx. change (x ∈ [VStr "A"; VNull; VStr "-"]) in Hx.
    elem_cases Hx; reflexivity.
  - by apply Hother.
Defined.

Lemma impute_twice_witness :
  ∃ out,
    impute_null_values (fun _ => "") raw_frame imputation_values = Ok out ∧
    impute_null_values (fun _ => "") out imputation_values = Ok out.
Proof.
  exact (impute_twice (fun _ => "") raw_frame imputation_values
           imputation_values_distinct).
Defined.

Lemma cleaned_frame_partitions_every_row_witness :
  ∃ clean m,
    impute_null_values (fun _ => "") (remove_columns raw_frame columns_to_remove)
      imputation_values = Ok clean ∧
    split_dataframe_by_bot_name clean (unique (series "Bot Name" clean))
      "Bot Name" = SplitDict m ∧
    dict_keys m = unique (series "Bot Name" clean) ∧
    list_sum (partition_sizes m) = 3.
Proof.
  apply (cleaned_frame_partitions_every_row (fun _ => "") raw_frame).
  solve_elem.
Defined.


(** ** The nested table, entry by entry, and the report *)

Lemma dict_get_map {V} (g : string → V) (l : list string) v :
  dict_get v (map (fun v' => (v', g v')) l)
  = if decide (v ∈ l) then Some (g v) else None.
Proof.
  induction l as [|v0 l IH]; simpl; [done|].
  destruct (String.eqb v v0) eqn:E.
  - apply String.eqb_eq in E as ->. by rewrite decide_True by left.
  - apply String.eqb_neq in E. rewrite IH.
    destruct (decide (v ∈ l)) as [H|H].
    + by rewrite decide_True by (by right).
    + rewrite decide_False; [done|]. by intros [?|?]%elem_of_cons.
Qed.

Lemma dict_set_map {V} (g : string → V) (l : list string) v y :
  NoDup l → v ∈ l →
  dict_set v y (map (fun v' => (v', g v')) l)
  = map (fun v' => (v', if String.eqb v' v then y else g v')) l.
Proof.
  induction l as [|v0 l IH]; intros Hnd Hin; [by apply elem_of_nil in Hin|].
  apply NoDup_cons in Hnd as [Hv0 Hnd]. simpl.
  destruct (String.eqb v v0) eqn:E.
  - apply String.eqb_eq in E as <-. rewrite String.eqb_refl. f_equal.
    apply map_ext_in. intros v' Hv'. apply list_elem_of_In in Hv'.
    destruct (String.eqb v' v) eqn:E'; [|done].
    apply String.eqb_eq in E' as ->. done.
  - rewrite String.eqb_sym, E. f_equal. apply IH; [done|].
    apply elem_of_cons in Hin as [->|Hin]; [|done].
    by rewrite String.eqb_refl in E.
Qed.

Lemma dict_set_same {V} (d : dict V) k v :
  dict_get k d = Some v → dict_set k v d = d.
Proof.
  induction d as [|[k0 v0] d IH]; simpl; [done|].
  destruct (String.eqb k k0); [by intros [= ->] | intros H; by rewrite IH].
Qed.

Lemma empty_tables_map values :
  NoDup values → empty_tables values = map (fun v => (v, [])) values.
Proof.
  intros Hnd. unfold empty_tables.
  rewrite (dict_write_map [] (fun v : string => (v, @nil (string * nat)))).
  rewrite dict_write_fresh; [done|by rewrite map_map, map_id|done].
Qed.


Lemma dict_get_snoc {V} (d : dict V) k v :
  dict_get k d = None → dict_get k (d ++ [(k, v)]) = Some v.
Proof.
  induction d as [|[k0 v0] d IH]; simpl; intros H.
  - by rewrite String.eqb_refl.
  - destruct (String.eqb k k0); [done | by apply IH].
Qed.

Lemma table_rows_get row values v :
  v ∈ values → dict_get v (table_rows row values) = Some (row v).
Proof.
  intros Hv. unfold table_rows. rewrite dict_get_map. by rewrite decide_True.
Qed.

Lemma table_rows_ext row row' values :
  (∀ v, v ∈ values → row v = row' v) →
  table_rows row values = table_rows row' values.
Proof.
  intros H. apply map_ext_in. intros v Hv%list_elem_of_In. by rewrite H.
Qed.

Lemma table_rows_set row values v y :
  NoDup values → v ∈ values →
  dict_set v y (table_rows row values)
  = table_rows (fun v' => if String.eqb v' v then y else row v') values.
Proof. apply dict_set_map. Qed.

Lemma nested_assign_rows row values v x n :
  v ∈ values →
  nested_assign v x n (table_rows row values)
  = Ok (dict_set v (dict_set x n (row v)) (table_rows row values)).
Proof.
  intros Hv. unfold nested_assign, dict_item.
  by rewrite table_rows_get by done.
Qed.

(** The pass of one key: every value's inner dict gets the key's count
    appended. *)
Lemma modewise_pass df x row values c :
  NoDup values → c ∈ columns df → (∀ v, dict_get x (row v) = None) →
  for_each values (fun mode_counts value =>
      col ← getitem df c;
      let count := count_eq value col in
      mode_counts ← nested_assign value x count mode_counts;
      if count =? 0 then nested_assign value x 0 mode_counts
      else Ok mode_counts)
    (table_rows row values)
  = Ok (table_rows (fun v => row v ++ [(x, count_rows v c df)]) values).
Proof.
  intros Hnd Hc Hfresh.
  set (n := fun v => count_rows v c df).
  set (body := fun (mode_counts : dict (dict nat)) (value : string) => _).
  assert (∀ rest done, values = done ++ rest →
            for_each rest body (table_rows (mid_row row x n done) values)
            = Ok (table_rows (mid_row row x n (done ++ rest)) values)) as Hloop.
  { induction rest as [|v rest IH]; intros done Heq.
    - by rewrite app_nil_r.
    - assert (v ∈ values) as Hv.
      { rewrite Heq, elem_of_app. right. left. }
      assert (v ∉ done) as Hfree.
      { rewrite Heq in Hnd. apply NoDup_app in Hnd as (_ & Hd & _).
        intros Hin. apply (Hd v Hin). left. }
      assert (body (table_rows (mid_row row x n done) values) v
              = Ok (table_rows (mid_row row x n (done ++ [v])) values)) as Hstep.
      { unfold body. rewrite (getitem_ok df c Hc). cbn [mbind result_bind].
        rewrite count_eq_series. fold (n v).
        assert (table_rows (mid_row row x n (done ++ [v])) values
                = dict_set v (dict_set x (n v) (row v))
                    (table_rows (mid_row row x n done) values)) as Hset.
        { rewrite table_rows_set by done. apply table_rows_ext.
          intros v' _. unfold mid_row.
          destruct (String.eqb v' v) eqn:E.
          - apply String.eqb_eq in E as ->.
            rewrite bool_decide_eq_true_2
              by (rewrite elem_of_app; right; left).
            by rewrite dict_set_fresh.
          - apply String.eqb_neq in E.
            destruct (decide (v' ∈ done)) as [Hd|Hd].
            + rewrite !bool_decide_eq_true_2;
                [done | done | rewrite elem_of_app; by left].
            + rewrite !bool_decide_eq_false_2; [done | done |].
              rewrite elem_of_app, list_elem_of_singleton. tauto. }
        assert (mid_row row x n done v = row v) as Hbefore.
        { unfold mid_row. by rewrite bool_decide_eq_false_2. }
        assert (mid_row row x n (done ++ [v]) v = row v ++ [(x, n v)])
          as Hafter.
        { unfold mid_row.
          by rewrite bool_decide_eq_true_2
            by (rewrite elem_of_app; right; left). }
        rewrite nested_assign_rows by done. rewrite Hbefore, <- Hset.
        cbn [mbind result_bind].
        destruct (n v =? 0) eqn:E; [|done].
        apply Nat.eqb_eq in E. rewrite nested_assign_rows by done.
        rewrite Hafter, E.
        rewrite (dict_set_same (row v ++ [(x, 0)]))
          by (by apply dict_get_snoc).
        rewrite dict_set_same; [done|].
        rewrite table_rows_get by done. by rewrite Hafter, E. }
      cbn [for_each]. rewrite Hstep. cbn [mbind result_bind].
      rewrite (IH (done ++ [v])) by (by rewrite <- app_assoc).
      by rewrite <- app_assoc. }
  specialize (Hloop values [] eq_refl). cbn [app] in Hloop.
  rewrite (table_rows_ext row (mid_row row x n [])).
  - rewrite Hloop. f_equal. apply table_rows_ext. intros v Hv.
    unfold mid_row. by rewrite bool_decide_eq_true_2.
  - intros v _. unfold mid_row. rewrite bool_decide_eq_false_2; [done|].
    apply not_elem_of_nil.
Qed.


Lemma counted_keys_snoc d c done k :
  counted_keys d c (done ++ [k])
  = counted_keys d c done
    ++ match dict_get k d with
       | Some df => if has_column df c then [k] else []
       | None => []
       end.
Proof.
  unfold counted_keys. rewrite List.filter_app. f_equal. cbn [List.filter].
  destruct (dict_get k d) as [df|]; [|done]. by destruct (has_column df c).
Qed.

Lemma counted_keys_elem d c keys k :
  k ∈ counted_keys d c keys → k ∈ keys.
Proof.
  unfold counted_keys. rewrite !list_elem_of_In, List.filter_In. tauto.
Qed.

(** The outer loop, from any point of the key list on. *)
Lemma modewise_from d values c rest :
  NoDup values →
  ∀ done, NoDup (done ++ rest) →
    for_each rest (fun mode_counts key =>
        match dict_get key d with
        | None => Ok mode_counts
        | Some df =>
            if negb (has_column df c) then Ok mode_counts
            else
              for_each values (fun mode_counts value =>
                col ← getitem df c;
                let count := count_eq value col in
                mode_counts ← nested_assign value key count mode_counts;
                if count =? 0 then nested_assign value key 0 mode_counts
                else Ok mode_counts)
                mode_counts
        end) (counts_table d done values c)
    = Ok (counts_table d (done ++ rest) values c).
Proof.
  intros Hv. induction rest as [|k rest IH]; intros done Hnd.
  - by rewrite app_nil_r.
  - assert (k ∉ done) as Hk.
    { apply NoDup_app in Hnd as (_ & Hd & _). intros Hin.
      apply (Hd k Hin). left. }
    replace (done ++ k :: rest) with ((done ++ [k]) ++ rest) in *
      by (by rewrite <- app_assoc).
    cbn [for_each].
    assert (counts_table d (done ++ [k]) values c
            = table_rows (fun v =>
                map (fun k' => (k', count_for d c k' v))
                  (counted_keys d c (done ++ [k]))) values) as Hnext by done.
    destruct (dict_get k d) as [df|] eqn:Hget.
    + destruct (has_column df c) eqn:Hcol; cbn [negb].
      * change (counts_table d done values c)
          with (table_rows (fun v =>
                  map (fun k' => (k', count_for d c k' v))
                    (counted_keys d c done)) values).
        rewrite (modewise_pass df k _ values c); [| done | | ].
        -- cbn [mbind result_bind]. rewrite <- (IH (done ++ [k]) Hnd).
           f_equal. rewrite Hnext. apply table_rows_ext. intros v _.
           rewrite counted_keys_snoc, Hget, Hcol, map_app. cbn [map].
           unfold count_for at 3. by rewrite Hget.
        -- by apply has_column_true.
        -- intros v. rewrite dict_get_map, decide_False; [done|].
           intros Hin. by apply Hk, (counted_keys_elem d c).
      * cbn [mbind result_bind]. rewrite <- (IH (done ++ [k]) Hnd).
        f_equal. unfold counts_table.
        by rewrite counted_keys_snoc, Hget, Hcol, app_nil_r.
    + cbn [mbind result_bind]. rewrite <- (IH (done ++ [k]) Hnd).
      f_equal. unfold counts_table.
      by rewrite counted_keys_snoc, Hget, app_nil_r.
Qed.

(** X14.  For distinct keys and distinct values the nested table is known
    entry by entry and in order: the values in the order given, and under
    each value the keys that have a frame with the column, in the order
    given, each with the number of its rows that hold the value.  A key
    without frame, or whose frame lacks the column, is in no inner dict. *)
Theorem modewise_table_in_order (d : dict DataFrame)
    (keys values : list string) (c : string) :
  NoDup keys → NoDup values →
  total_ticket_received_count_modewise d keys values c
  = Ok (counts_table d keys values c).
Proof.
  intros Hk Hv. unfold total_ticket_received_count_modewise.
  rewrite empty_tables_map by done.
  apply (modewise_from d values c keys Hv []). done.
Qed.

Lemma modewise_table_in_order_witness :
  total_ticket_received_count_modewise scenario_partitions
    ["B"; "Ghost"; "A"] ["Email"; "Phone"] "Mode"
  = Ok [("Email", [("B", 0); ("A", 2)]); ("Phone", [("B", 0); ("A", 0)])].
Proof.
  rewrite (modewise_table_in_order scenario_partitions
             ["B"; "Ghost"; "A"] ["Email"; "Phone"] "Mode").
  - reflexivity.
  - repeat (apply NoDup_cons; split; [intros H; not_elem H|]). apply NoDup_nil_2.
  - repeat (apply NoDup_cons; split; [intros H; not_elem H|]). apply NoDup_nil_2.
Defined.


(** X15.  The report for the nested table of distinct keys and values.
    With no value to count the table is empty and writing the report stops
    with StopIteration at [next(iter(mode_wise_data_dict))]; otherwise the
    active sheet receives, in this order, the title row, the header
    [Bot Name] followed by the values, one row per counted key holding the
    key and its count under each value, a blank row, and the sections of
    the dict mapping. *)
Theorem report_rows_of_counted_table (d : dict DataFrame)
    (keys values : list string) (c : string)
    (dict_mapping : dict (dict nat)) :
  NoDup keys → NoDup values →
  ∃ nested,
    total_ticket_received_count_modewise d keys values c = Ok nested ∧
    create_excel_with_pivot_and_dicts nested dict_mapping
    = match values with
      | [] => StopIteration
      | _ :: _ =>
          Sheet ([XText "Total Tickets Received (Current Week Mode wise)"]
                 :: (XText "Bot Name" :: map XText values)
                 :: pivot_block d keys values c
                 ++ [] :: dict_sections dict_mapping)
      end.
Proof.
  intros Hk Hv. exists (counts_table d keys values c). split.
  { unfold total_ticket_received_count_modewise.
    rewrite empty_tables_map by done.
    apply (modewise_from d values c keys Hv []). done. }
  destruct values as [|v0 vs] eqn:Hvalues; [done|]. rewrite <- Hvalues.
  assert (counts_table d keys values c
          = (v0, map (fun k => (k, count_for d c k v0))
                   (counted_keys d c keys))
            :: counts_table d keys vs c) as Hhead by (by rewrite Hvalues).
  unfold create_excel_with_pivot_and_dicts. rewrite Hhead at 1.
  cbv zeta. f_equal. f_equal. f_equal.
  - unfold dict_keys, counts_table. by rewrite !map_map.
  - f_equal. unfold dict_keys, pivot_block. rewrite !map_map. cbn [fst].
    apply map_ext_in. intros k Hin%list_elem_of_In. f_equal.
    unfold counts_table. rewrite map_map. cbn [snd].
    apply map_ext. intros v.
    by rewrite dict_get_map, decide_True.
Qed.

Lemma report_rows_of_counted_table_witness :
  ∃ nested,
    total_ticket_received_count_modewise scenario_partitions
      ["B"; "Ghost"; "A"] ["Email"; "Phone"] "Mode" = Ok nested ∧
    create_excel_with_pivot_and_dicts nested [("Closed", [("A", 1)])]
    = Sheet [[XText "Total Tickets Received (Current Week Mode wise)"];
             [XText "Bot Name"; XText "Email"; XText "Phone"];
             [XText "B"; XNumber 0; XNumber 0];
             [XText "A"; XNumber 2; XNumber 0];
             [];
             [XText "Closed"];
             [XText "Bot Name"; XText "Ticket Count"];
             [XText "A"; XNumber 1];
             []].
Proof.
  apply (report_rows_of_counted_table scenario_partitions
           ["B"; "Ghost"; "A"] ["Email"; "Phone"] "Mode"
           [("Closed", [("A", 1)])]).
  - repeat (apply NoDup_cons; split; [intros H; not_elem H|]).
    apply NoDup_nil_2.
  - repeat (apply NoDup_cons; split; [intros H; not_elem H|]).
    apply NoDup_nil_2.
Defined.
